(** * StepUp Chess backend: game-session engine, step ledger, leaderboard

    A shallow embedding of the Cloud Functions of the StepUp Chess platform
    (functions/src): the cost calculator, the move service
    [validateAndApplyMove], the callable handlers [createGame], [joinGame],
    [makeMove], [endGame], [submitStepDelta], the leaderboard trigger
    [onGameCompleted] and the repositories they write through.

    Conventions
    - JavaScript numbers that the handlers handle are integers; they are
      modelled as [Z].  A value that can be [NaN] or [undefined] in the
      source (a distance read past the end of a square name, the result of
      [calculateCost] on an unknown cost mode) is an [option Z], [None]
      standing for the non-number.
    - The Realtime Database and Firestore are finite maps; every awaited
      repository call is one atomic store operation.  A handler is given
      twice: as the composition of its operations, which is the call run
      from start to end with no other call in between ([makeMove],
      [joinGame], ...), and as the sequence of its awaited operations
      ([makeMove_steps], [joinGame_steps], ...), between which the
      operations of other calls may run.  The lemmas [*_steps_run] relate
      the two.
    - chess.js and [JSON.parse] are libraries outside the repository: they
      are taken as parameters (the class [ChessJs], the section variable
      [JSON_parse]) over which the development is parametric.  Executable
      instances are given at the end of the definitions for the evaluated
      examples.
    - The handlers modelled are the ones index.ts exports, from
      functions/*.functions.ts, services/ and repositories/. *)

From Stdlib Require Import ZArith String Ascii List Bool Lia.
From Stdlib Require Import QArith Qround Lqa Sorted Permutation.
From stdpp Require Import gmap strings list fin_maps pretty.

Open Scope Z_scope.
Open Scope string_scope.

(** ** types.ts *)

Inductive OnlineGameStatus := waiting | active | completed | abandoned.

Inductive GameOutcome := win | draw | outcome_abandoned.

(** chess.js internal piece type character: 'p' | 'n' | 'b' | 'r' | 'q' | 'k'. *)
Inductive PieceType := p_ | n_ | b_ | r_ | q_ | k_.

Inductive Color := w_ | b_c.

Record StepCostPreset := mkPreset {
  name : string;
  pawn : Z;
  knight : Z;
  bishop : Z;
  rook : Z;
  queen : Z;
  king : Z;
  distanceCost : Z
}.

Record OnlineGame := mkGame {
  id : string;
  whitePlayerId : string;
  blackPlayerId : option string;
  fen : string;
  moveHistory : list string;
  status : OnlineGameStatus;
  presetName : string;
  costModeName : string;
  createdAt : string;
  outcome : option GameOutcome;
  winnerId : option string
}.

#[global] Instance OnlineGameStatus_eq_dec : EqDecision OnlineGameStatus.
Proof. solve_decision. Defined.
#[global] Instance GameOutcome_eq_dec : EqDecision GameOutcome.
Proof. solve_decision. Defined.
#[global] Instance PieceType_eq_dec : EqDecision PieceType.
Proof. solve_decision. Defined.
#[global] Instance Color_eq_dec : EqDecision Color.
Proof. solve_decision. Defined.

(** ** utils/cost-calculator.ts *)

Module CostModel.

(** [s.charCodeAt(i)]: the code unit at index [i], [NaN] past the end. *)
Definition charCodeAt (s : string) (i : nat) : option Z :=
  match String.get i s with
  | Some c => Some (Z.of_N (N_of_ascii c))
  | None => None
  end.

Definition baseCostFor (preset : StepCostPreset) (piece : PieceType) : Z :=
  match piece with
  | p_ => pawn preset
  | n_ => knight preset
  | b_ => bishop preset
  | r_ => rook preset
  | q_ => queen preset
  | k_ => king preset
  end.

(** Arithmetic on possibly-NaN numbers: NaN is absorbing. *)
Definition num_sub (a b : option Z) : option Z :=
  match a, b with Some x, Some y => Some (x - y) | _, _ => None end.
Definition num_abs (a : option Z) : option Z :=
  match a with Some x => Some (Z.abs x) | None => None end.
Definition num_add (a b : option Z) : option Z :=
  match a, b with Some x, Some y => Some (x + y) | _, _ => None end.
Definition num_max (a b : option Z) : option Z :=
  match a, b with Some x, Some y => Some (Z.max x y) | _, _ => None end.
Definition num_mul (a b : option Z) : option Z :=
  match a, b with Some x, Some y => Some (x * y) | _, _ => None end.

Definition moveDistance (piece : PieceType) (from to : string) : option Z :=
  let dx := num_abs (num_sub (charCodeAt to 0) (charCodeAt from 0)) in
  let dy := num_abs (num_sub (charCodeAt to 1) (charCodeAt from 1)) in
  if decide (piece = n_) then num_add dx dy
  else num_max dx dy.

(** The [switch] on the cost-mode string has three cases and no default: any
    other string falls out of the function, which then yields [undefined]. *)
Definition calculateCost (preset : StepCostPreset) (costMode : string)
    (piece : PieceType) (from to : string) (capturingKing : bool) : option Z :=
  if String.eqb costMode "baseDistance" then
    let base := baseCostFor preset piece in
    num_add (Some base)
            (num_mul (moveDistance piece from to) (Some (distanceCost preset)))
  else if String.eqb costMode "distance" then
    num_mul (moveDistance piece from to) (Some (distanceCost preset))
  else if String.eqb costMode "fixed" then
    let base := baseCostFor preset piece in
    Some (if capturingKing then base * 2 else base)
  else None.

(** A two-character square name built from a file and a rank character. *)
Definition square (file rank : ascii) : string :=
  String file (String rank EmptyString).

Definition code (c : ascii) : Z := Z.of_N (N_of_ascii c).

(** The eight knight jumps, as (file delta, rank delta). *)
Definition knight_deltas : list (Z * Z) :=
  [ (1, 2); (2, 1); (2, -1); (1, -2); (-1, -2); (-2, -1); (-2, 1); (-1, 2) ].

End CostModel.

Import CostModel.

(** ** Errors and the store monad *)

(** Codes of [HttpsError] used by the handlers. *)
Inductive FunctionsErrorCode :=
  | unauthenticated | invalid_argument | not_found
  | failed_precondition | permission_denied.

(** A handler fails either with an [HttpsError] (a caller error, sent back
    with its code and message) or with any other exception ([Thrown], which
    the callable wrapper reports as an internal error). *)
Inductive Failure :=
  | HttpsError (code : FunctionsErrorCode) (message : string)
  | Thrown (message : string).

Inductive Result (A : Type) :=
  | Ok (a : A)
  | Err (e : Failure).
Arguments Ok {A} a.
Arguments Err {A} e.

#[global] Instance FunctionsErrorCode_eq_dec : EqDecision FunctionsErrorCode.
Proof. solve_decision. Defined.

(** Win / loss / draw counters of one leaderboard document; a missing
    document or field counts as 0 under [FieldValue.increment]. *)
Record Stats := mkStats { wins : Z; losses : Z; draws : Z }.

Definition zeroStats : Stats := mkStats 0 0 0.

(** The two databases, restricted to the paths the handlers touch. *)
Record Store := mkStore {
  rtdb_games : gmap string OnlineGame;        (* RTDB   games/{gameId}                     *)
  fs_games : gmap string OnlineGame;          (* Firestore games/{gameId}                  *)
  rtdb_steps : gmap (string * string) Z;      (* RTDB   games/{gameId}/steps/{uid}/balance *)
  userActiveGame : gmap string string;        (* RTDB   userActiveGame/{uid}               *)
  leaderboard : gmap string Stats             (* Firestore leaderboard/{uid}               *)
}.

Definition M (A : Type) : Type := Store -> Store * Result A.

Definition ret {A} (a : A) : M A := fun s => (s, Ok a).
Definition throw {A} (e : Failure) : M A := fun s => (s, Err e).
Definition bind {A B} (m : M A) (k : A -> M B) : M B :=
  fun s => match m s with
           | (s', Ok a) => k a s'
           | (s', Err e) => (s', Err e)
           end.
Definition gets {A} (f : Store -> A) : M A := fun s => (s, Ok (f s)).
Definition modify (f : Store -> Store) : M unit := fun s => (f s, Ok tt).
Definition lift {A} (r : Result A) : M A := fun s => (s, r).

Declare Scope store_scope.
Delimit Scope store_scope with store.
Notation "x <- m ;; k" := (bind m (fun x => k))
  (at level 100, m at next level, right associativity) : store_scope.
Notation "m ;;; k" := (bind m (fun _ => k))
  (at level 100, right associativity) : store_scope.
Notation "'assert!' c 'else' e ;; k" := (if c then k else throw e)
  (at level 100, c at next level, e at next level, right associativity) : store_scope.

(** ** Handlers in flight

    An [async] handler runs up to its next [await], lets the awaited store
    operation happen, and goes on with the value read; an operation that
    fails ends the handler with that failure.  [Done] is a handler that has
    returned or thrown. *)
Inductive Proc (A : Type) : Type :=
  | Done (r : Result A)
  | Await {B : Type} (op : M B) (k : B -> Proc A).
Arguments Done {A} r.
Arguments Await {A B} op k.

(** The handler takes its next awaited operation. *)
Definition step_proc {A} (p : Proc A) (s : Store) : Store * Proc A :=
  match p with
  | Done r => (s, Done r)
  | Await op k =>
      match op s with
      | (s', Ok b) => (s', k b)
      | (s', Err e) => (s', Done (Err e))
      end
  end.

(** The handler runs to its end with nothing in between. *)
Fixpoint run_proc {A} (p : Proc A) (s : Store) : Store * Result A :=
  match p with
  | Done r => (s, r)
  | Await op k =>
      match op s with
      | (s', Ok b) => run_proc (k b) s'
      | (s', Err e) => (s', Err e)
      end
  end.

Definition result_of {A} (p : Proc A) : option (Result A) :=
  match p with
  | Done r => Some r
  | Await _ _ => None
  end.

(** Handlers in flight side by side: handler [i] takes its next operation. *)
Definition sched_step {A} (i : nat) (st : Store * list (Proc A))
    : Store * list (Proc A) :=
  match nth_error (snd st) i with
  | Some p =>
      let '(s', p') := step_proc p (fst st) in
      (s', <[i := p']> (snd st))
  | None => st
  end.

Definition interleave {A} (schedule : list nat) (st : Store * list (Proc A))
    : Store * list (Proc A) :=
  fold_left (fun acc i => sched_step i acc) schedule st.

(** JavaScript truthiness of a string and of a nullable string. *)
Definition truthy (s : string) : bool := negb (String.eqb s "").
Definition truthy_opt (o : option string) : bool :=
  match o with Some s => truthy s | None => false end.

(** ** config/config.service.ts *)

(** The evaluated Remote Config template returned by [getConfigAsync]. *)
Record Config := mkConfig {
  getNumber : string -> Z;
  getString : string -> string
}.

Module CONFIG_KEYS.
Definition MAX_STEP_DELTA_PER_CALL := "max_step_delta_per_call".
Definition PRESET_QUICK := "preset_quick".
Definition PRESET_NORMAL := "preset_normal".
Definition PRESET_MARATHON := "preset_marathon".
End CONFIG_KEYS.

(** [DEFAULT_CONFIG] and the fallback configuration built from it. *)
Definition DEFAULT_CONFIG_number (key : string) : Z :=
  if String.eqb key CONFIG_KEYS.MAX_STEP_DELTA_PER_CALL then 10000
  else if String.eqb key "max_steps_per_hour" then 50000
  else if String.eqb key "max_move_history_length" then 500
  else 0.

(** The quote character, and the JSON text of a preset as [DEFAULT_CONFIG]
    spells it: an object of the seven numeric fields, without blanks. *)
Definition dquote : string := String (ascii_of_nat 34) EmptyString.

Definition json_field (key : string) (value : Z) : string :=
  dquote ++ key ++ dquote ++ ":" ++ pretty value.

Definition preset_json (pawn knight bishop rook queen king distanceCost : Z) : string :=
  "{" ++ json_field "pawn" pawn ++ "," ++ json_field "knight" knight ++ ","
      ++ json_field "bishop" bishop ++ "," ++ json_field "rook" rook ++ ","
      ++ json_field "queen" queen ++ "," ++ json_field "king" king ++ ","
      ++ json_field "distanceCost" distanceCost ++ "}".

Definition DEFAULT_CONFIG_string (key : string) : string :=
  if String.eqb key CONFIG_KEYS.PRESET_QUICK then preset_json 2 5 5 7 10 3 1
  else if String.eqb key CONFIG_KEYS.PRESET_NORMAL then preset_json 50 80 80 100 150 30 10
  else if String.eqb key CONFIG_KEYS.PRESET_MARATHON then preset_json 200 350 350 500 750 100 50
  else "".

Definition makeFallbackConfig : Config :=
  mkConfig DEFAULT_CONFIG_number DEFAULT_CONFIG_string.

(** ** repositories/game.repository.ts *)

Definition set_rtdb_games (f : gmap string OnlineGame -> gmap string OnlineGame)
    (s : Store) : Store :=
  mkStore (f (rtdb_games s)) (fs_games s) (rtdb_steps s) (userActiveGame s) (leaderboard s).
Definition set_fs_games (f : gmap string OnlineGame -> gmap string OnlineGame)
    (s : Store) : Store :=
  mkStore (rtdb_games s) (f (fs_games s)) (rtdb_steps s) (userActiveGame s) (leaderboard s).
Definition set_rtdb_steps (f : gmap (string * string) Z -> gmap (string * string) Z)
    (s : Store) : Store :=
  mkStore (rtdb_games s) (fs_games s) (f (rtdb_steps s)) (userActiveGame s) (leaderboard s).
Definition set_userActiveGame (f : gmap string string -> gmap string string)
    (s : Store) : Store :=
  mkStore (rtdb_games s) (fs_games s) (rtdb_steps s) (f (userActiveGame s)) (leaderboard s).
Definition set_leaderboard (f : gmap string Stats -> gmap string Stats)
    (s : Store) : Store :=
  mkStore (rtdb_games s) (fs_games s) (rtdb_steps s) (userActiveGame s) (f (leaderboard s)).

(** [Partial<OnlineGame>] as the handlers build it: the fields an update
    object carries; [None] is an absent key, which [update] leaves alone. *)
Record GameUpdate := mkUpdate {
  u_blackPlayerId : option string;
  u_status : option OnlineGameStatus;
  u_outcome : option GameOutcome;
  u_winnerId : option string
}.

Definition apply_update (u : GameUpdate) (g : OnlineGame) : OnlineGame :=
  mkGame (id g) (whitePlayerId g)
         (match u_blackPlayerId u with Some b => Some b | None => blackPlayerId g end)
         (fen g) (moveHistory g)
         (match u_status u with Some st => st | None => status g end)
         (presetName g) (costModeName g) (createdAt g)
         (match u_outcome u with Some o => Some o | None => outcome g end)
         (match u_winnerId u with Some w => Some w | None => winnerId g end).

Definition getGame (gameId : string) : M OnlineGame :=
  fun s => match rtdb_games s !! gameId with
           | Some g => (s, Ok g)
           | None => (s, Err (HttpsError not_found ("Game " ++ gameId ++ " not found")))
           end.

(** Writes the initial record to RTDB and Firestore and sets the creator's
    active-game pointer. *)
Definition createGameRecord (gameId : string) (game : OnlineGame)
    (creatorUid : string) : M unit :=
  modify (fun s =>
    set_userActiveGame (insert creatorUid gameId)
      (set_fs_games (insert gameId game)
        (set_rtdb_games (insert gameId game) s))).

(** Updates the game in both RTDB and Firestore (status changes).  The two
    updates are issued together.  The handlers call it on a game they have
    just read from RTDB, whose record the RTDB update merges into.  The
    Firestore [update] of a document that does not exist changes nothing
    and is rejected (NOT_FOUND), which makes the call fail after the RTDB
    update went out. *)
Definition firestore_update_result (s : Store) (gameId : string) : Result unit :=
  match fs_games s !! gameId with
  | Some _ => Ok tt
  | None => Err (Thrown "NOT_FOUND")
  end.

Definition updateGameState (gameId : string) (updates : GameUpdate) : M unit :=
  fun s =>
    (set_fs_games (alter (apply_update updates) gameId)
       (set_rtdb_games (alter (apply_update updates) gameId) s),
     firestore_update_result s gameId).

(** Updates only RTDB: the move hot path. *)
Definition updateGameMove (gameId : string) (newFen : string)
    (newMoveHistory : list string) : M unit :=
  modify (set_rtdb_games (alter (fun g =>
    mkGame (id g) (whitePlayerId g) (blackPlayerId g) newFen newMoveHistory
           (status g) (presetName g) (costModeName g) (createdAt g)
           (outcome g) (winnerId g)) gameId)).

Definition setUserActiveGame (uid gameId : string) : M unit :=
  modify (set_userActiveGame (insert uid gameId)).

Definition clearUserActiveGames (uids : list string) : M unit :=
  modify (set_userActiveGame (fun m => foldr (fun uid acc => delete uid acc) m uids)).

(** [Promise.all] of two calls: both are started, so both take effect
    whether or not the other fails; the result is the failure, if any. *)
Definition both (m1 m2 : M unit) : M unit :=
  fun s =>
    let '(s1, r1) := m1 s in
    let '(s2, r2) := m2 s1 in
    (s2, match r1 with Err e => Err e | Ok _ => r2 end).

Definition assertNoActiveGame (uid : string) : M unit :=
  fun s => match userActiveGame s !! uid with
           | Some _ => (s, Err (HttpsError failed_precondition
                         "You already have an active game. Finish or resign it first."))
           | None => (s, Ok tt)
           end.

(** ** repositories/step.repository.ts *)

Definition balance_of (s : Store) (gameId uid : string) : Z :=
  default 0 (rtdb_steps s !! (gameId, uid)).

Definition getStepBalance (gameId uid : string) : M Z :=
  gets (fun s => balance_of s gameId uid).

Definition setStepBalance (gameId uid : string) (balance : Z) : M unit :=
  modify (set_rtdb_steps (insert (gameId, uid) balance)).

(** One RTDB transaction: read, add and write in a single atomic step. *)
Definition atomicIncrementStepBalance (gameId uid : string) (delta : Z) : M Z :=
  fun s => let b := balance_of s gameId uid + delta in
           (set_rtdb_steps (insert (gameId, uid) b) s, Ok b).

(** ** repositories/leaderboard.repository.ts *)

Definition stats_of (lb : gmap string Stats) (uid : string) : Stats :=
  default zeroStats (lb !! uid).

Definition incrementWin (uid : string) : M unit :=
  modify (set_leaderboard (fun lb =>
    <[uid := mkStats (wins (stats_of lb uid) + 1) (losses (stats_of lb uid))
                     (draws (stats_of lb uid))]> lb)).

Definition incrementLoss (uid : string) : M unit :=
  modify (set_leaderboard (fun lb =>
    <[uid := mkStats (wins (stats_of lb uid)) (losses (stats_of lb uid) + 1)
                     (draws (stats_of lb uid))]> lb)).

Definition incrementDraw (uid : string) : M unit :=
  modify (set_leaderboard (fun lb =>
    <[uid := mkStats (wins (stats_of lb uid)) (losses (stats_of lb uid))
                     (draws (stats_of lb uid) + 1)]> lb)).

(** ** services/leaderboard.service.ts *)

(** Applies win / loss / draw counters from the completed game's outcome and
    winnerId.  No-op if the game was abandoned or has no second player. *)
Definition applyGameResult (game : OnlineGame) : M unit :=
  if negb (truthy_opt (blackPlayerId game))
     || bool_decide (outcome game = Some outcome_abandoned)
     || bool_decide (outcome game = None)
  then ret tt
  else
    let black := default "" (blackPlayerId game) in
    if bool_decide (outcome game = Some win) && truthy_opt (winnerId game) then
      let winner := default "" (winnerId game) in
      let loserId :=
        if bool_decide (winner = whitePlayerId game) then black else whitePlayerId game in
      (incrementWin winner ;;; incrementLoss loserId)%store
    else if bool_decide (outcome game = Some draw) then
      (incrementDraw (whitePlayerId game) ;;; incrementDraw black)%store
    else ret tt.

(** ** functions/leaderboard.functions.ts *)

(** The Firestore update trigger on games/{gameId}: [before] and [after] are
    the document snapshots of the event, absent when the event has no data. *)
Definition onGameCompleted (before after : option OnlineGame) : M unit :=
  match before, after with
  | Some b, Some a =>
      if bool_decide (status b = status a) || negb (bool_decide (status a = completed))
      then ret tt
      else applyGameResult a
  | _, _ => ret tt
  end.

(** ** functions/game.functions.ts: handlers that do not consult chess.js *)

Definition requireAuth (auth : option string) : M string :=
  match auth with
  | Some uid => ret uid
  | None => throw (HttpsError unauthenticated "Must be signed in")
  end.

Definition is_player (game : OnlineGame) (uid : string) : bool :=
  bool_decide (uid = whitePlayerId game) || bool_decide (Some uid = blackPlayerId game).

Definition INITIAL_FEN : string :=
  "rnbqkbnr/pppppppp/8/8/8/8/PPPPPPPP/RNBQKBNR w KQkq - 0 1".

(** utils/presets.ts: preset name to Remote Config key. *)
Definition PRESET_CONFIG_KEYS : list (string * string) :=
  [ ("Quick", CONFIG_KEYS.PRESET_QUICK);
    ("Normal", CONFIG_KEYS.PRESET_NORMAL);
    ("Marathon", CONFIG_KEYS.PRESET_MARATHON) ].

Definition KNOWN_PRESET_NAMES : list string := map fst PRESET_CONFIG_KEYS.

(** [PRESET_CONFIG_KEYS] is a plain object: indexed by a name that is not one
    of its own keys it still answers with what it inherits from
    [Object.prototype] under these names, a function or an object in each
    case, hence a truthy value. *)
Definition OBJECT_PROTOTYPE_NAMES : list string :=
  [ "constructor"; "__defineGetter__"; "__defineSetter__"; "hasOwnProperty";
    "__lookupGetter__"; "__lookupSetter__"; "isPrototypeOf"; "propertyIsEnumerable";
    "toString"; "valueOf"; "__proto__"; "toLocaleString" ].

Definition includes (l : list string) (x : string) : bool :=
  existsb (String.eqb x) l.

(** [gameId] is the key of the pushed reference and [now] the creation time;
    both come from the environment. *)
Definition createGame (auth : option string) (presetName costModeName : string)
    (gameId now : string) : M string :=
  (uid <- requireAuth auth ;;
   assert! (truthy presetName && truthy costModeName)
     else (HttpsError invalid_argument "presetName and costModeName are required") ;;
   assert! (includes KNOWN_PRESET_NAMES presetName)
     else (HttpsError invalid_argument ("Unknown preset: " ++ presetName)) ;;
   (assertNoActiveGame uid ;;;
    let game := mkGame gameId uid None INITIAL_FEN [] waiting presetName costModeName
                       now None None in
    createGameRecord gameId game uid ;;;
    ret gameId))%store.

Definition createGame_steps (auth : option string) (presetName costModeName : string)
    (gameId now : string) : Proc string :=
  match auth with
  | None => Done (Err (HttpsError unauthenticated "Must be signed in"))
  | Some uid =>
      if negb (truthy presetName && truthy costModeName)
      then Done (Err (HttpsError invalid_argument
                        "presetName and costModeName are required"))
      else if negb (includes KNOWN_PRESET_NAMES presetName)
      then Done (Err (HttpsError invalid_argument ("Unknown preset: " ++ presetName)))
      else
        Await (assertNoActiveGame uid) (fun _ =>
          let game := mkGame gameId uid None INITIAL_FEN [] waiting presetName
                             costModeName now None None in
          Await (createGameRecord gameId game uid) (fun _ => Done (Ok gameId)))
  end.

(** [isEmulator] is [process.env.FUNCTIONS_EMULATOR === 'true']. *)
Definition joinGame (isEmulator : bool) (auth : option string) (gameId : string) : M unit :=
  (uid <- requireAuth auth ;;
   assert! (truthy gameId) else (HttpsError invalid_argument "gameId is required") ;;
   game <- getGame gameId ;;
   assert! (negb (bool_decide (blackPlayerId game <> None)
                  || negb (bool_decide (status game = waiting))))
     else (HttpsError failed_precondition "Game is already full") ;;
   assert! (negb (negb isEmulator && bool_decide (whitePlayerId game = uid)))
     else (HttpsError failed_precondition "Cannot join your own game") ;;
   ((if negb isEmulator || negb (bool_decide (whitePlayerId game = uid))
     then assertNoActiveGame uid else ret tt) ;;;
    both (updateGameState gameId (mkUpdate (Some uid) (Some active) None None))
         (setUserActiveGame uid gameId)))%store.

Definition joinGame_steps (isEmulator : bool) (auth : option string) (gameId : string)
    : Proc unit :=
  match auth with
  | None => Done (Err (HttpsError unauthenticated "Must be signed in"))
  | Some uid =>
      if negb (truthy gameId)
      then Done (Err (HttpsError invalid_argument "gameId is required"))
      else
        Await (getGame gameId) (fun game =>
          if bool_decide (blackPlayerId game <> None)
             || negb (bool_decide (status game = waiting))
          then Done (Err (HttpsError failed_precondition "Game is already full"))
          else if negb isEmulator && bool_decide (whitePlayerId game = uid)
          then Done (Err (HttpsError failed_precondition "Cannot join your own game"))
          else
            let write :=
              Await (both (updateGameState gameId
                             (mkUpdate (Some uid) (Some active) None None))
                          (setUserActiveGame uid gameId))
                    (fun _ => Done (Ok tt)) in
            if negb isEmulator || negb (bool_decide (whitePlayerId game = uid))
            then Await (assertNoActiveGame uid) (fun _ => write)
            else write)
  end.

Definition finalStatus_of (o : GameOutcome) : OnlineGameStatus :=
  match o with outcome_abandoned => abandoned | _ => completed end.

Definition endGame_update (uid : string) (o : GameOutcome) : GameUpdate :=
  mkUpdate None (Some (finalStatus_of o)) (Some o)
           (match o with win => Some uid | _ => None end).

Definition uidsToClean (game : OnlineGame) : list string :=
  whitePlayerId game ::
  match blackPlayerId game with
  | Some b => if truthy b then [b] else []
  | None => []
  end.

Definition endGame (auth : option string) (gameId : string) (o : GameOutcome) : M unit :=
  (uid <- requireAuth auth ;;
   assert! (truthy gameId)
     else (HttpsError invalid_argument "gameId and outcome are required") ;;
   game <- getGame gameId ;;
   assert! (is_player game uid)
     else (HttpsError permission_denied "You are not a player in this game") ;;
   both (updateGameState gameId (endGame_update uid o))
        (clearUserActiveGames (uidsToClean game)))%store.

Definition endGame_steps (auth : option string) (gameId : string) (o : GameOutcome)
    : Proc unit :=
  match auth with
  | None => Done (Err (HttpsError unauthenticated "Must be signed in"))
  | Some uid =>
      if negb (truthy gameId)
      then Done (Err (HttpsError invalid_argument "gameId and outcome are required"))
      else
        Await (getGame gameId) (fun game =>
          if negb (is_player game uid)
          then Done (Err (HttpsError permission_denied
                            "You are not a player in this game"))
          else
            Await (both (updateGameState gameId (endGame_update uid o))
                        (clearUserActiveGames (uidsToClean game)))
                  (fun _ => Done (Ok tt)))
  end.

(** ** functions/steps.functions.ts *)

(** [delta] is [None] for a value that [Number.isInteger] refuses. *)
Definition submitStepDelta (config : Config) (auth : option string)
    (gameId : string) (delta : option Z) : M Z :=
  (uid <- requireAuth auth ;;
   assert! (truthy gameId) else (HttpsError invalid_argument "gameId is required") ;;
   match delta with
   | None => throw (HttpsError invalid_argument "delta must be a positive integer")
   | Some d =>
       assert! (negb (d <=? 0)%Z)
         else (HttpsError invalid_argument "delta must be a positive integer") ;;
       game <- getGame gameId ;;
       assert! (is_player game uid)
         else (HttpsError permission_denied "You are not a player in this game") ;;
       assert! (bool_decide (status game = active))
         else (HttpsError failed_precondition "Game is not active") ;;
       let maxDelta := getNumber config CONFIG_KEYS.MAX_STEP_DELTA_PER_CALL in
       assert! (negb (maxDelta <? d)%Z)
         else (HttpsError invalid_argument
                 ("delta exceeds maximum allowed per call (" ++ pretty maxDelta ++ ")")) ;;
       atomicIncrementStepBalance gameId uid d
   end)%store.

Definition submitStepDelta_steps (config : Config) (auth : option string)
    (gameId : string) (delta : option Z) : Proc Z :=
  match auth with
  | None => Done (Err (HttpsError unauthenticated "Must be signed in"))
  | Some uid =>
      if negb (truthy gameId)
      then Done (Err (HttpsError invalid_argument "gameId is required"))
      else
        match delta with
        | None => Done (Err (HttpsError invalid_argument
                               "delta must be a positive integer"))
        | Some d =>
            if (d <=? 0)%Z
            then Done (Err (HttpsError invalid_argument
                              "delta must be a positive integer"))
            else
              Await (getGame gameId) (fun game =>
                if negb (is_player game uid)
                then Done (Err (HttpsError permission_denied
                                  "You are not a player in this game"))
                else if negb (bool_decide (status game = active))
                then Done (Err (HttpsError failed_precondition "Game is not active"))
                else
                  let maxDelta := getNumber config CONFIG_KEYS.MAX_STEP_DELTA_PER_CALL in
                  if (maxDelta <? d)%Z
                  then Done (Err (HttpsError invalid_argument
                                    ("delta exceeds maximum allowed per call ("
                                     ++ pretty maxDelta ++ ")")))
                  else
                    Await (atomicIncrementStepBalance gameId uid d)
                          (fun newBalance => Done (Ok newBalance)))
        end
  end.

(** ** chess.js and JSON.parse: the external interface *)

Record Piece := mkPiece { ptype : PieceType; pcolor : Color }.

#[global] Instance Piece_eq_dec : EqDecision Piece.
Proof. solve_decision. Defined.


(** What the handlers use of a chess.js [Chess] object.  The object is
    mutable in the source; here every method returns the object's next
    state.  [chess_new] is the constructor, which throws on a board encoding
    it cannot load ([None]); [chess_get] gives the piece on a square, if any;
    [chess_remove] and [chess_put] edit the board (their return values are
    ignored by the source); [chess_move] is the legality oracle, which
    throws on a move it rejects ([None]); [chess_fen] prints the encoding. *)
Class ChessJs := {
  Chess : Type;
  chess_new : string -> option Chess;
  chess_get : Chess -> string -> option Piece;
  chess_remove : Chess -> string -> Chess;
  chess_put : Chess -> Piece -> string -> Chess;
  chess_move : Chess -> string -> string -> option string -> option Chess;
  chess_fen : Chess -> string
}.



(** The preset object read back by [JSON.parse]: the seven numbers, and the
    object's own [name] key when the text carries one. *)
Record PresetValues := mkValues {
  v_name : option string;
  v_pawn : Z; v_knight : Z; v_bishop : Z; v_rook : Z; v_queen : Z; v_king : Z;
  v_distanceCost : Z
}.

(** ** Strings as the move service uses them *)

(** [s.split(sep)] for a one-character separator. *)
Fixpoint split (sep : ascii) (s : string) : list string :=
  match s with
  | EmptyString => [EmptyString]
  | String c rest =>
      if Ascii.eqb c sep then EmptyString :: split sep rest
      else match split sep rest with
           | [] => [String c EmptyString]
           | h :: t => String c h :: t
           end
  end.

(** [parts.join(sep)]. *)
Fixpoint join (sep : string) (parts : list string) : string :=
  match parts with
  | [] => EmptyString
  | [x] => x
  | x :: rest => x ++ sep ++ join sep rest
  end.

(** [parts[1] = v] on a JavaScript array: a shorter array is extended. *)
Definition set_index1 (v : string) (parts : list string) : list string :=
  match parts with
  | [] => [EmptyString; v]
  | [a] => [a; v]
  | a :: _ :: rest => a :: v :: rest
  end.

Definition lower_ascii (c : ascii) : ascii :=
  let n := nat_of_ascii c in
  if (Nat.leb 65 n && Nat.leb n 90)%bool then ascii_of_nat (n + 32) else c.

Fixpoint toLowerCase (s : string) : string :=
  match s with
  | EmptyString => EmptyString
  | String c rest => String (lower_ascii c) (toLowerCase rest)
  end.

(** ** services/game.service.ts and the move handler *)

Record MoveResult := mkMoveResult {
  newFen : string;
  cost : option Z;
  moveRecord : string
}.

Record MoveResponse := mkMoveResponse {
  r_fen : string;
  r_moveHistory : list string;
  r_cost : option Z;
  r_newBalance : option Z
}.

(** [balance < cost]: false when [cost] is not a number. *)
Definition lt_num (balance : Z) (cost : option Z) : bool :=
  match cost with Some c => (balance <? c)%Z | None => false end.

Definition show_num (x : option Z) : string :=
  match x with Some c => pretty c | None => "NaN" end.

(** The database client refuses to write a NaN: [set] throws. *)
Definition setStepBalance_num (gameId uid : string) (balance : option Z) : M unit :=
  match balance with
  | Some b => setStepBalance gameId uid b
  | None => throw (Thrown "set failed: value contains NaN")
  end.

Section MoveEngine.

Context {chessjs : ChessJs}.

(** [JSON.parse] on the text of a preset; [None] when it throws.  The
    texts considered are those of preset objects, whose seven cost fields
    are integers, as the three of [DEFAULT_CONFIG] are. *)
Variable JSON_parse : string -> option PresetValues.

(** utils/presets.ts.  Reads a preset's move costs from Remote Config.
    [PRESET_CONFIG_KEYS[name]] is looked up.  For one of the three own keys
    the text under the configuration key is parsed and spread after the
    requested name, so that a [name] key of the text replaces it.  For a
    name inherited from [Object.prototype] the guard passes as well; what
    is then handed to [getString] is a function or an object, under which
    no configuration holds a parameter, so the text read is empty and
    [JSON.parse] throws.  For every other name the lookup is [undefined]
    and the guard throws. *)
Definition getPreset (config : Config) (name : string) : Result StepCostPreset :=
  match List.find (fun kv => String.eqb (fst kv) name) PRESET_CONFIG_KEYS with
  | Some (_, configKey) =>
      let raw := getString config configKey in
      match JSON_parse raw with
      | None => Err (Thrown "SyntaxError")
      | Some values =>
          Ok (mkPreset (default name (v_name values))
                       (v_pawn values) (v_knight values) (v_bishop values)
                       (v_rook values) (v_queen values) (v_king values)
                       (v_distanceCost values))
      end
  | None =>
      if includes OBJECT_PROTOTYPE_NAMES name
      then Err (Thrown "SyntaxError")
      else Err (Thrown ("Unknown preset: " ++ name))
  end.

(** The two branches of [validateAndApplyMove] each yield the type of the
    piece moved (the source upper-cases its letter and lower-cases it again
    for the cost calculator) and the new board encoding.

    The king-capture branch: the board is edited directly. *)
Definition applyKingCapture (game : OnlineGame) (from to : string)
    : Result (PieceType * string) :=
  match chess_new (fen game) with
  | None => Err (Thrown "Invalid FEN")
  | Some chess =>
      match chess_get chess from with
      | None => Err (HttpsError invalid_argument ("No piece at " ++ from))
      | Some attacker =>
          let chess := chess_remove chess to in
          let chess := chess_remove chess from in
          let chess := chess_put chess attacker to in
          Ok (ptype attacker, chess_fen chess)
      end
  end.

(** The board encoding with its side-to-move field aligned to the caller
    (the free-play rule). *)
Definition alignedFen (game : OnlineGame) (uid : string) : string :=
  let playerColor := if bool_decide (uid = whitePlayerId game) then "w" else "b" in
  let fenParts := split " " (fen game) in
  let fenParts :=
    if bool_decide (nth_error fenParts 1 = Some playerColor) then fenParts
    else set_index1 playerColor fenParts in
  join " " fenParts.

(** The ordinary branch: the move goes to the legality oracle on the aligned
    board. *)
Definition applyNormalMove (game : OnlineGame) (uid from to : string)
    (promotion : option string) : Result (PieceType * string) :=
  match chess_new (alignedFen game uid) with
  | None => Err (Thrown "Invalid FEN")
  | Some chess =>
      match chess_get chess from with
      | None => Err (HttpsError invalid_argument ("No piece at " ++ from))
      | Some boardPiece =>
          let isPromotion :=
            bool_decide (ptype boardPiece = p_)
            && (bool_decide (String.get 1 to = Some "8"%char)
                || bool_decide (String.get 1 to = Some "1"%char)) in
          let promotionPiece :=
            match promotion with
            | Some pr => Some (toLowerCase pr)
            | None => if isPromotion then Some "q" else None
            end in
          match chess_move chess from to promotionPiece with
          | None => Err (HttpsError invalid_argument
                           ("Illegal move: " ++ from ++ "-" ++ to))
          | Some chess => Ok (ptype boardPiece, chess_fen chess)
          end
      end
  end.

Definition validateAndApplyMove (game : OnlineGame) (uid from to : string)
    (promotion : option string) (capturingKing : bool) (preset : StepCostPreset)
    : Result MoveResult :=
  match (if capturingKing then applyKingCapture game from to
         else applyNormalMove game uid from to promotion) with
  | Err e => Err e
  | Ok (piece, newFen) =>
      let cost := calculateCost preset (costModeName game) piece from to capturingKing in
      Ok (mkMoveResult newFen cost (from ++ to ++ default "" promotion))
  end.

(** functions/game.functions.ts: the authoritative move handler.  [config]
    is the value of [getConfigAsync()] at the time of the call.  The two
    writes at the end are issued together; when the cost is not a number the
    comparison is false, the game write goes out and the balance write is
    refused. *)
Definition makeMove (config : Config) (auth : option string)
    (gameId from to : string) (promotion : option string) (capturingKing : bool)
    : M MoveResponse :=
  (uid <- requireAuth auth ;;
   assert! (truthy gameId && truthy from && truthy to)
     else (HttpsError invalid_argument "gameId, from, and to are required") ;;
   game <- getGame gameId ;;
   assert! (bool_decide (status game = active))
     else (HttpsError failed_precondition "Game is not active") ;;
   assert! (is_player game uid)
     else (HttpsError permission_denied "You are not a player in this game") ;;
   preset <- lift (getPreset config (presetName game)) ;;
   r <- lift (validateAndApplyMove game uid from to promotion capturingKing preset) ;;
   balance <- getStepBalance gameId uid ;;
   assert! (negb (lt_num balance (cost r)))
     else (HttpsError failed_precondition
             ("Insufficient steps: need " ++ show_num (cost r)
              ++ ", have " ++ pretty balance)) ;;
   let newMoveHistory := (moveHistory game ++ [moveRecord r])%list in
   let newBalance := num_sub (Some balance) (cost r) in
   (updateGameMove gameId (newFen r) newMoveHistory ;;;
    setStepBalance_num gameId uid newBalance ;;;
    ret (mkMoveResponse (newFen r) newMoveHistory (cost r) newBalance)))%store.

(** The same handler await by await: the game is read, then the balance,
    then the two writes are issued, built from what was read. *)
Definition makeMove_steps (config : Config) (auth : option string)
    (gameId from to : string) (promotion : option string) (capturingKing : bool)
    : Proc MoveResponse :=
  match auth with
  | None => Done (Err (HttpsError unauthenticated "Must be signed in"))
  | Some uid =>
      if negb (truthy gameId && truthy from && truthy to)
      then Done (Err (HttpsError invalid_argument "gameId, from, and to are required"))
      else
        Await (getGame gameId) (fun game =>
          if negb (bool_decide (status game = active))
          then Done (Err (HttpsError failed_precondition "Game is not active"))
          else if negb (is_player game uid)
          then Done (Err (HttpsError permission_denied
                            "You are not a player in this game"))
          else
            match getPreset config (presetName game) with
            | Err e => Done (Err e)
            | Ok preset =>
                match validateAndApplyMove game uid from to promotion capturingKing
                                           preset with
                | Err e => Done (Err e)
                | Ok r =>
                    Await (getStepBalance gameId uid) (fun balance =>
                      if lt_num balance (cost r)
                      then Done (Err (HttpsError failed_precondition
                                        ("Insufficient steps: need " ++ show_num (cost r)
                                         ++ ", have " ++ pretty balance)))
                      else
                        let newMoveHistory := (moveHistory game ++ [moveRecord r])%list in
                        let newBalance := num_sub (Some balance) (cost r) in
                        Await (both (updateGameMove gameId (newFen r) newMoveHistory)
                                    (setStepBalance_num gameId uid newBalance))
                              (fun _ =>
                                 Done (Ok (mkMoveResponse (newFen r) newMoveHistory
                                             (cost r) newBalance))))
                end
            end)
  end.

End MoveEngine.

(** ** An executable instance of the external interface

    [MiniChess] and [FlatJson] stand in for chess.js and [JSON.parse] where
    a handler is evaluated on a concrete input.  Every general theorem
    below is proved for an arbitrary [ChessJs] and an arbitrary parser.

    [MiniChess] loads and prints the piece placement and the side to move
    of a six-field board encoding.  Its oracle checks that the moving piece
    belongs to the side to move, that the target is another square of the
    board not held by a piece of the same side nor by a king, and that a
    pawn reaching the last rank comes with a promotion piece; it does not
    check piece geometry. *)

Module MiniChess.

Record board := mkBoard {
  cells : list (list (option Piece));   (* rank 8 first, file a first *)
  turn : string;
  tail : list string                    (* castling, en passant, clocks *)
}.

Definition piece_of_char (c : ascii) : option Piece :=
  let n := nat_of_ascii c in
  let col := if Nat.leb 97 n then b_c else w_ in
  let l := lower_ascii c in
  if Ascii.eqb l "p" then Some (mkPiece p_ col)
  else if Ascii.eqb l "n" then Some (mkPiece n_ col)
  else if Ascii.eqb l "b" then Some (mkPiece b_ col)
  else if Ascii.eqb l "r" then Some (mkPiece r_ col)
  else if Ascii.eqb l "q" then Some (mkPiece q_ col)
  else if Ascii.eqb l "k" then Some (mkPiece k_ col)
  else None.

Definition char_of_piece (pc : Piece) : ascii :=
  let base := match ptype pc with
              | p_ => 112 | n_ => 110 | b_ => 98 | r_ => 114 | q_ => 113 | k_ => 107
              end%nat in
  ascii_of_nat (match pcolor pc with w_ => base - 32 | b_c => base end).

Fixpoint parse_rank (s : string) : option (list (option Piece)) :=
  match s with
  | EmptyString => Some []
  | String c rest =>
      match parse_rank rest with
      | None => None
      | Some tl =>
          match piece_of_char c with
          | Some pc => Some (Some pc :: tl)
          | None =>
              let n := nat_of_ascii c in
              if (Nat.leb 49 n && Nat.leb n 56)%bool
              then Some (repeat None (n - 48) ++ tl)%list
              else None
          end
      end
  end.

Fixpoint parse_ranks (rs : list string) : option (list (list (option Piece))) :=
  match rs with
  | [] => Some []
  | r :: rest =>
      match parse_rank r, parse_ranks rest with
      | Some row, Some rows =>
          if Nat.eqb (length row) 8 then Some (row :: rows) else None
      | _, _ => None
      end
  end.

Definition load (fen : string) : option board :=
  match split " " fen with
  | [placement; t; c; e; h; f] =>
      if (String.eqb t "w" || String.eqb t "b")%bool then
        match parse_ranks (split "/" placement) with
        | Some rows =>
            if Nat.eqb (length rows) 8 then Some (mkBoard rows t [c; e; h; f])
            else None
        | None => None
        end
      else None
  | _ => None
  end.

Definition digit (n : nat) : string := String (ascii_of_nat (48 + n)) EmptyString.

Fixpoint print_rank (row : list (option Piece)) (empties : nat) : string :=
  match row with
  | [] => if Nat.eqb empties 0 then EmptyString else digit empties
  | None :: tl => print_rank tl (S empties)
  | Some pc :: tl =>
      (if Nat.eqb empties 0 then EmptyString else digit empties)
      ++ String (char_of_piece pc) (print_rank tl 0)
  end.

Definition print (b : board) : string :=
  join " " (join "/" (map (fun row => print_rank row 0) (cells b)) :: turn b :: tail b).

(** Row and column of a square name, when it names a square of the board. *)
Definition coords (sq : string) : option (nat * nat) :=
  match sq with
  | String f (String r EmptyString) =>
      let fi := nat_of_ascii f in
      let ri := nat_of_ascii r in
      if (Nat.leb 97 fi && Nat.leb fi 104 && Nat.leb 49 ri && Nat.leb ri 56)%bool
      then Some (56 - ri, fi - 97)%nat
      else None
  | _ => None
  end.

Definition get (b : board) (sq : string) : option Piece :=
  match coords sq with
  | Some (r, c) =>
      match nth_error (cells b) r with
      | Some row => match nth_error row c with Some cell => cell | None => None end
      | None => None
      end
  | None => None
  end.

Definition set_cell (b : board) (sq : string) (v : option Piece) : board :=
  match coords sq with
  | Some (r, c) =>
      match nth_error (cells b) r with
      | Some row => mkBoard (<[r := <[c := v]> row]> (cells b)) (turn b) (tail b)
      | None => b
      end
  | None => b
  end.


Definition remove (b : board) (sq : string) : board := set_cell b sq None.

Definition put (b : board) (pc : Piece) (sq : string) : board := set_cell b sq (Some pc).

Definition color_char (c : Color) : string :=
  match c with w_ => "w" | b_c => "b" end.

Definition promoted (pr : string) : option PieceType :=
  if String.eqb pr "q" then Some q_
  else if String.eqb pr "r" then Some r_
  else if String.eqb pr "b" then Some b_
  else if String.eqb pr "n" then Some n_
  else None.

Definition relocate (b : board) (pc : Piece) (from to : string) : board :=
  let b1 := put (remove b from) pc to in
  mkBoard (cells b1) (if String.eqb (turn b) "w" then "b" else "w") (tail b).

Definition move (b : board) (from to : string) (promotion : option string)
    : option board :=
  match get b from, coords to with
  | Some pc, Some (r, _) =>
      if negb (String.eqb (color_char (pcolor pc)) (turn b)) then None
      else if String.eqb from to then None
      else
        let blocked :=
          match get b to with
          | Some target =>
              (bool_decide (pcolor target = pcolor pc)
               || bool_decide (ptype target = k_))%bool
          | None => false
          end in
        if blocked then None
        else if (bool_decide (ptype pc = p_) && (Nat.eqb r 0 || Nat.eqb r 7))%bool then
          match promotion with
          | Some pr =>
              match promoted pr with
              | Some t => Some (relocate b (mkPiece t (pcolor pc)) from to)
              | None => None
              end
          | None => None
          end
        else Some (relocate b pc from to)
  | _, _ => None
  end.

Definition chessjs : ChessJs :=
  {| Chess := board;
     chess_new := load;
     chess_get := get;
     chess_remove := remove;
     chess_put := put;
     chess_move := move;
     chess_fen := print |}.

End MiniChess.

Module FlatJson.

Fixpoint digits_value (s : string) (acc : Z) : option Z :=
  match s with
  | EmptyString => Some acc
  | String c rest =>
      let n := nat_of_ascii c in
      if (Nat.leb 48 n && Nat.leb n 57)%bool
      then digits_value rest (10 * acc + Z.of_nat (n - 48))
      else None
  end.

Definition parse_int (s : string) : option Z :=
  match s with
  | EmptyString => None
  | String "-" rest =>
      match rest with
      | EmptyString => None
      | _ => option_map Z.opp (digits_value rest 0)
      end
  | _ => digits_value s 0
  end.

(** The text between the first and the last character, when those are
    [open] and [close]. *)
Definition unwrap (open close : ascii) (s : string) : option string :=
  let n := String.length s in
  match String.get 0 s, String.get (n - 1) s with
  | Some a, Some b =>
      if (Ascii.eqb a open && Ascii.eqb b close && Nat.leb 2 n)%bool
      then Some (substring 1 (n - 2) s)
      else None
  | _, _ => None
  end.

(** A field value: an integer or a quoted text. *)
Inductive value := VInt (z : Z) | VStr (s : string).

Definition parse_value (v : string) : option value :=
  match parse_int v with
  | Some z => Some (VInt z)
  | None => option_map VStr (unwrap (ascii_of_nat 34) (ascii_of_nat 34) v)
  end.

Definition parse_field (f : string) : option (string * value) :=
  match split ":" f with
  | [k; v] =>
      match unwrap (ascii_of_nat 34) (ascii_of_nat 34) k, parse_value v with
      | Some key, Some x => Some (key, x)
      | _, _ => None
      end
  | _ => None
  end.

Fixpoint parse_fields (fs : list string) : option (list (string * value)) :=
  match fs with
  | [] => Some []
  | f :: rest =>
      match parse_field f, parse_fields rest with
      | Some kv, Some kvs => Some (kv :: kvs)
      | _, _ => None
      end
  end.

(** The value under a key; of two fields with one key the later one counts. *)
Definition lookup_field (kvs : list (string * value)) (key : string) : option value :=
  option_map snd (List.find (fun kv => String.eqb (fst kv) key) (rev kvs)).

Definition field (kvs : list (string * value)) (key : string) : option Z :=
  match lookup_field kvs key with
  | Some (VInt z) => Some z
  | _ => None
  end.

Definition name_field (kvs : list (string * value)) : option string :=
  match lookup_field kvs "name" with
  | Some (VStr s) => Some s
  | Some (VInt z) => Some (pretty z)
  | None => None
  end.

(** Reads an object of integer fields carrying the seven preset numbers,
    and its name field if it has one. *)
Definition parse (raw : string) : option PresetValues :=
  match unwrap "{" "}" raw with
  | None => None
  | Some body =>
      match parse_fields (split "," body) with
      | None => None
      | Some kvs =>
          match field kvs "pawn", field kvs "knight", field kvs "bishop",
                field kvs "rook", field kvs "queen", field kvs "king",
                field kvs "distanceCost" with
          | Some a, Some b, Some c, Some d, Some e, Some f, Some g =>
              Some (mkValues (name_field kvs) a b c d e f g)
          | _, _, _, _, _, _, _ => None
          end
      end
  end.

End FlatJson.

(** ** The balance check and deduction under interleaving

    [makeMove] reads the balance with [getStepBalance] and, when the check
    passes, writes the difference with [setStepBalance]: two awaited store
    operations, between which other calls may run.  [submitStepDelta] earns
    through one transaction.  A task is a call in flight on one
    (gameId, uid) balance; a schedule picks which task takes its next store
    operation. *)

Module SpendRace.

Inductive task :=
  | Spend (cost : Z)                  (* before getStepBalance *)
  | SpendChecked (cost balance : Z)   (* check passed on [balance]; before setStepBalance *)
  | Earn (delta : Z)                  (* before the transaction *)
  | Spent (cost : Z)                  (* returned with success *)
  | Rejected                          (* failed: insufficient steps *)
  | Earned (delta : Z).

Definition step_task (gameId uid : string) (t : task) (s : Store) : Store * task :=
  match t with
  | Spend c =>
      match getStepBalance gameId uid s with
      | (s1, Ok balance) =>
          if lt_num balance (Some c) then (s1, Rejected) else (s1, SpendChecked c balance)
      | (s1, Err _) => (s1, Rejected)
      end
  | SpendChecked c balance =>
      (fst (setStepBalance gameId uid (balance - c) s), Spent c)
  | Earn d => (fst (atomicIncrementStepBalance gameId uid d s), Earned d)
  | Spent _ | Rejected | Earned _ => (s, t)
  end.

(** Task [i] takes one step. *)
Definition step (gameId uid : string) (i : nat) (st : Store * list task)
    : Store * list task :=
  match nth_error (snd st) i with
  | Some t =>
      let '(s', t') := step_task gameId uid t (fst st) in
      (s', <[i := t']> (snd st))
  | None => st
  end.

Definition run (gameId uid : string) (schedule : list nat) (st : Store * list task)
    : Store * list task :=
  fold_left (fun acc i => step gameId uid i acc) schedule st.

Definition spent_of (t : task) : Z := match t with Spent c => c | _ => 0 end.
Definition earned_of (t : task) : Z := match t with Earned d => d | _ => 0 end.

Definition total_spent (ts : list task) : Z := fold_right Z.add 0 (map spent_of ts).
Definition total_earned (ts : list task) : Z := fold_right Z.add 0 (map earned_of ts).

(** No write in flight would take the balance below zero. *)
Definition pending_ok (t : task) : Prop :=
  match t with
  | SpendChecked c balance => 0 <= balance - c
  | Earn d => 0 <= d
  | _ => True
  end.

End SpendRace.

(** The Firestore update event of games/{gameId} between two stores,
    delivered to [onGameCompleted]. *)
Definition fire_onGameCompleted (gameId : string) (s_before s_after : Store) : M unit :=
  onGameCompleted (fs_games s_before !! gameId) (fs_games s_after !! gameId).

Definition emptyStore : Store := mkStore ∅ ∅ ∅ ∅ ∅.

(** The store in which [makeMove] evaluates its examples: one active game
    between alice (white) and bob (black) from the starting position. *)
Definition demoGame (mode : string) : OnlineGame :=
  mkGame "g1" "alice" (Some "bob") INITIAL_FEN [] active "Normal" mode
         "2024-01-01T00:00:00.000Z" None None.

Definition demoStore (g : OnlineGame) (aliceSteps bobSteps : Z) : Store :=
  mkStore {[ id g := g ]} {[ id g := g ]}
          (<[(id g, "alice") := aliceSteps]> {[ (id g, "bob") := bobSteps ]})
          (<["alice" := id g]> {[ "bob" := id g ]})
          ∅.

Definition NormalPreset : StepCostPreset := mkPreset "Normal" 50 80 80 100 150 30 10.

(** A position in which white promotes on e8; black is to move in the stored
    encoding. *)
Definition promotionGame : OnlineGame :=
  mkGame "g2" "alice" (Some "bob") "8/4P3/8/8/8/8/8/k6K b - - 0 40" ["e6e7"] active
         "Normal" "fixed" "2024-01-01T00:00:00.000Z" None None.

(** An already finished game. *)
Definition finishedGame (st : OnlineGameStatus) (o : GameOutcome)
    (w : option string) : OnlineGame :=
  mkGame "g1" "alice" (Some "bob") INITIAL_FEN ["e2e4"] st "Normal" "distance"
         "2024-01-01T00:00:00.000Z" (Some o) w.


(** A position in which the white pawn on d7 can take the black king on
    e8. *)
Definition pawnTakesKingGame : OnlineGame :=
  mkGame "g3" "alice" (Some "bob") "4k3/3P4/8/8/8/8/8/4K3 w - - 0 40" ["c6d7"] active
         "Normal" "fixed" "2024-01-01T00:00:00.000Z" None None.

(** A configuration whose Normal preset was edited after the defaults. *)
Definition editedConfig : Config :=
  mkConfig DEFAULT_CONFIG_number
    (fun key => if String.eqb key CONFIG_KEYS.PRESET_NORMAL
                then preset_json 50 80 80 100 150 30 25
                else DEFAULT_CONFIG_string key).

Ltac unfold_store :=
  unfold bind, ret, throw, lift, gets, modify, requireAuth, getGame,
    getStepBalance, setStepBalance_num, setStepBalance, updateGameMove in *.

(** The store after the two writes of a successful move. *)
Definition committed (gameId uid : string) (game : OnlineGame) (r : MoveResult)
    (c : Z) (s : Store) : Store :=
  fst (setStepBalance gameId uid (balance_of s gameId uid - c)
        (fst (updateGameMove gameId (newFen r)
                (moveHistory game ++ [moveRecord r])%list s))).

(** What is left of [joinGame] once its checks have passed: the two writes. *)
Definition join_write (uid gameId : string) : Proc unit :=
  Await (both (updateGameState gameId (mkUpdate (Some uid) (Some active) None None))
              (setUserActiveGame uid gameId))
        (fun _ => Done (Ok tt)).

(** The store after the two writes of a successful join. *)
Definition seated (uid gameId : string) (s : Store) : Store :=
  fst (setUserActiveGame uid gameId
         (fst (updateGameState gameId (mkUpdate (Some uid) (Some active) None None) s))).

(** ** matchmaking.ts *)

Record QueueEntry := mkEntry { userId : string; joinedAt : Z }.

(** The store together with the two RTDB paths of matchmaking. *)
Record MatchDb := mkMatchDb {
  m_store : Store;
  queue : gmap string Z;            (* RTDB queue/{userId}/joinedAt  *)
  matches : gmap string string      (* RTDB matches/{userId}/gameId  *)
}.

(** [entries] is what the query queue.orderByChild(joinedAt) returned. *)
Definition is_snapshot (entries : list QueueEntry) (q : gmap string Z) : Prop :=
  Permutation (map (fun e => (userId e, joinedAt e)) entries) (map_to_list q) /\
  StronglySorted (fun a b => joinedAt a <= joinedAt b) entries.

(** The trigger on a new queue entry.  [gameId] is the key of the pushed
    reference and [now] the creation time. *)
Definition matchmakingOnQueueWrite (entries : list QueueEntry) (gameId now : string)
    (db : MatchDb) : MatchDb :=
  match entries with
  | player1 :: player2 :: _ =>
      let game := mkGame gameId (userId player1) (Some (userId player2)) INITIAL_FEN []
                         active "Normal" "distance" now None None in
      mkMatchDb
        (set_userActiveGame
           (fun m => <[userId player2 := gameId]> (<[userId player1 := gameId]> m))
           (set_fs_games (insert gameId game)
              (set_rtdb_games (insert gameId game) (m_store db))))
        (delete (userId player2) (delete (userId player1) (queue db)))
        (<[userId player2 := gameId]> (<[userId player1 := gameId]> (matches db)))
  | _ => db
  end.

(** ** services/user.service.ts, repositories/user.repository.ts,
       functions/user.functions.ts *)

Definition AVATAR_COLORS : list Z :=
  [ 0xFF5C6BC0; 0xFF26A69A; 0xFFEF5350; 0xFF66BB6A;
    0xFFFFA726; 0xFFAB47BC; 0xFF29B6F6; 0xFFEC407A ].

(** [AVATAR_COLORS[Math.floor(r * AVATAR_COLORS.length)]] for the value [r]
    of [Math.random()]; [None] is [undefined].  The product by the length,
    8, is exact on doubles, so the rational computes the same index. *)
Definition randomAvatarColor (r : Q) : option Z :=
  let i := Qfloor (r * inject_Z (Z.of_nat (length AVATAR_COLORS))) in
  if (i <? 0)%Z then None else nth_error AVATAR_COLORS (Z.to_nat i).

Record UserProfile := mkProfile {
  up_id : string;
  up_displayName : string;
  up_avatarColor : option Z;
  up_isOnline : bool
}.

(** The store together with the user documents. *)
Record UserDb := mkUserDb {
  u_store : Store;
  users : gmap string UserProfile;       (* Firestore users/{uid}                    *)
  lbDisplayName : gmap string string;    (* Firestore leaderboard/{uid}.displayName  *)
  lifetimeSteps : gmap string Z          (* RTDB steps/{uid}/balance                 *)
}.

(** The user record a creation event carries. *)
Record AuthUser := mkAuthUser {
  au_uid : string;
  au_displayName : option string;
  au_email : option string
}.

(** displayName ?? email?.split('@')[0] ?? 'Player' *)
Definition initialDisplayName (u : AuthUser) : string :=
  match au_displayName u with
  | Some d => d
  | None =>
      match au_email u with
      | Some e => match split "@" e with h :: _ => h | [] => "Player" end
      | None => "Player"
      end
  end.

(** [r] is the value [Math.random()] takes in [randomAvatarColor]; an event
    without data is ignored. *)
Definition onUserCreated (data : option AuthUser) (r : Q) (db : UserDb) : UserDb :=
  match data with
  | None => db
  | Some u =>
      let uid := au_uid u in
      let displayName := initialDisplayName u in
      mkUserDb
        (set_leaderboard (insert uid zeroStats) (u_store db))
        (<[uid := mkProfile uid displayName (randomAvatarColor r) false]> (users db))
        (<[uid := displayName]> (lbDisplayName db))
        (<[uid := 0]> (lifetimeSteps db))
  end.

(** Both updates are issued together; an update of a document that does not
    exist is refused by Firestore and changes nothing. *)
Definition syncDisplayName (uid name : string) (db : UserDb) : UserDb * Result unit :=
  let db' :=
    mkUserDb (u_store db)
      (alter (fun pr => mkProfile (up_id pr) name (up_avatarColor pr) (up_isOnline pr))
             uid (users db))
      (alter (fun _ => name) uid (lbDisplayName db))
      (lifetimeSteps db) in
  match users db !! uid, lbDisplayName db !! uid with
  | Some _, Some _ => (db', Ok tt)
  | _, _ => (db', Err (Thrown "NOT_FOUND"))
  end.

Section DisplayName.

(** [String.prototype.trim]. *)
Variable trim : string -> string.

(** [displayName] is [None] when the request carries no string there. *)
Definition updateDisplayName (auth : option string) (displayName : option string)
    (db : UserDb) : UserDb * Result unit :=
  match auth with
  | None => (db, Err (HttpsError unauthenticated "Must be signed in"))
  | Some uid =>
      match displayName with
      | Some d =>
          if negb (truthy d) || Nat.eqb (String.length (trim d)) 0
          then (db, Err (HttpsError invalid_argument "displayName is required"))
          else syncDisplayName uid (trim d) db
      | None => (db, Err (HttpsError invalid_argument "displayName is required"))
      end
  end.

End DisplayName.

(** A trim on the white space of the ASCII range (tab, line feed, vertical
    tab, form feed, carriage return, space), for the evaluated examples. *)
Module AsciiTrim.

Definition is_space (c : ascii) : bool :=
  let n := nat_of_ascii c in
  (Nat.leb 9 n && Nat.leb n 13 || Nat.eqb n 32)%bool.

Fixpoint trim_start (s : string) : string :=
  match s with
  | String c rest => if is_space c then trim_start rest else s
  | EmptyString => EmptyString
  end.

Fixpoint trim_end (s : string) : string :=
  match s with
  | EmptyString => EmptyString
  | String c rest =>
      match trim_end rest with
      | EmptyString => if is_space c then EmptyString else String c EmptyString
      | t => String c t
      end
  end.

Definition trim (s : string) : string := trim_end (trim_start s).

End AsciiTrim.

(** ** Calls against the store

    One invocation of a handler or of the leaderboard trigger, and the store
    it leaves behind. *)

Inductive Call :=
  | CallCreateGame (auth : option string) (presetName costModeName gameId now : string)
  | CallJoinGame (isEmulator : bool) (auth : option string) (gameId : string)
  | CallMakeMove (config : Config) (auth : option string) (gameId from to : string)
                 (promotion : option string) (capturingKing : bool)
  | CallEndGame (auth : option string) (gameId : string) (o : GameOutcome)
  | CallSubmitStepDelta (config : Config) (auth : option string) (gameId : string)
                        (delta : option Z)
  | CallOnGameCompleted (before after : option OnlineGame)
  | CallMatchmaking (entries : list QueueEntry) (gameId now : string).

Definition exec {O : ChessJs} (parse : string -> option PresetValues)
    (c : Call) (s : Store) : Store :=
  match c with
  | CallCreateGame auth presetName costModeName gameId now =>
      fst (createGame auth presetName costModeName gameId now s)
  | CallJoinGame isEmulator auth gameId => fst (joinGame isEmulator auth gameId s)
  | CallMakeMove config auth gameId from to promotion ck =>
      fst (makeMove parse config auth gameId from to promotion ck s)
  | CallEndGame auth gameId o => fst (endGame auth gameId o s)
  | CallSubmitStepDelta config auth gameId delta =>
      fst (submitStepDelta config auth gameId delta s)
  | CallOnGameCompleted before after => fst (onGameCompleted before after s)
  | CallMatchmaking entries gameId now =>
      m_store (matchmakingOnQueueWrite entries gameId now (mkMatchDb s ∅ ∅))
  end.

(** A pushed key is new: [createGame] is never run on the id of a game that
    exists. *)
Definition fresh_call (c : Call) (s : Store) : Prop :=
  match c with
  | CallCreateGame _ _ _ gameId _ | CallMatchmaking _ gameId _ =>
      rtdb_games s !! gameId = None /\ fs_games s !! gameId = None
  | _ => True
  end.


(** The stores that calls build from the empty one. *)
Inductive reachable {O : ChessJs} (parse : string -> option PresetValues)
    : Store -> Prop :=
  | reachable_empty : reachable parse emptyStore
  | reachable_step c s :
      reachable parse s -> fresh_call c s -> reachable parse (exec parse c s).


(** What the live record and its Firestore mirror share: everything but the
    board and the move sequence, which only the live record follows. *)
Definition same_record (g1 g2 : OnlineGame) : Prop :=
  id g1 = id g2 /\ whitePlayerId g1 = whitePlayerId g2 /\
  blackPlayerId g1 = blackPlayerId g2 /\ status g1 = status g2 /\
  presetName g1 = presetName g2 /\ costModeName g1 = costModeName g2 /\
  createdAt g1 = createdAt g2 /\ outcome g1 = outcome g2 /\
  winnerId g1 = winnerId g2.


Definition balances_nonneg (s : Store) : Prop :=
  forall k b, rtdb_steps s !! k = Some b -> 0 <= b.

(** Black is absent from a waiting game and present in an active one. *)
Definition seats_ok (g : OnlineGame) : Prop :=
  (status g = waiting -> blackPlayerId g = None) /\
  (status g = active -> blackPlayerId g <> None).

(** An active-game pointer names a game that exists and in which the user
    plays. *)
Definition pointers_ok (s : Store) : Prop :=
  forall uid gameId,
    userActiveGame s !! uid = Some gameId ->
    exists g, rtdb_games s !! gameId = Some g /\ is_player g uid = true.

(** A step submission, before or after its transaction. *)
Definition earn_task (t : SpendRace.task) : Prop :=
  match t with
  | SpendRace.Earn _ | SpendRace.Earned _ => True
  | _ => False
  end.

(** Folds the rational constants of a goal for [lra]. *)
Ltac q_consts :=
  unfold Qdiv; change (/ 8)%Q with (1 # 8)%Q;
  repeat match goal with
  | |- context [inject_Z ?z] =>
      let v := eval vm_compute in (inject_Z z) in change (inject_Z z) with v
  | H : context [inject_Z ?z] |- _ =>
      let v := eval vm_compute in (inject_Z z) in change (inject_Z z) with v in H
  end.

(* ===================================================================== *)
(** * Theorems *)
(* ===================================================================== *)

(** ** Cost model: distance metric *)

Lemma moveDistance_squares piece f1 r1 f2 r2 rest1 rest2 :
  moveDistance piece (String f1 (String r1 rest1)) (String f2 (String r2 rest2)) =
  Some (if decide (piece = n_)
        then Z.abs (code f2 - code f1) + Z.abs (code r2 - code r1)
        else Z.max (Z.abs (code f2 - code f1)) (Z.abs (code r2 - code r1))).
Proof.
  unfold moveDistance, charCodeAt, code; simpl.
  destruct (decide (piece = n_)); reflexivity.
Qed.

Lemma knight_delta_sum dx dy :
  In (dx, dy) knight_deltas -> Z.abs dx + Z.abs dy = 3.
Proof.
  unfold knight_deltas; simpl.
  intros H; repeat (destruct H as [H | H]; [inversion H; subst; reflexivity |]).
  contradiction.
Qed.

(** C9.  The distance used by the cost model is the Manhattan distance
    |dx|+|dy| for a knight and the Chebyshev distance max(|dx|,|dy|) for every
    other piece; the knight distance is 3 for each of the eight knight
    deltas; and in mode [distance] with distanceCost = 10 the pawn move
    e2-e4 costs exactly 20 and the knight move g1-f3 exactly 30, whatever the
    preset's base costs are and whether or not the move is a king capture. *)
Theorem C9_distance_metric_and_examples :
  (forall f1 r1 f2 r2,
      moveDistance n_ (square f1 r1) (square f2 r2) =
        Some (Z.abs (code f2 - code f1) + Z.abs (code r2 - code r1))) /\
  (forall piece f1 r1 f2 r2,
      piece <> n_ ->
      moveDistance piece (square f1 r1) (square f2 r2) =
        Some (Z.max (Z.abs (code f2 - code f1)) (Z.abs (code r2 - code r1)))) /\
  (forall f1 r1 f2 r2,
      In (code f2 - code f1, code r2 - code r1) knight_deltas ->
      moveDistance n_ (square f1 r1) (square f2 r2) = Some 3) /\
  (forall nm a b c d e f ck,
      calculateCost (mkPreset nm a b c d e f 10) "distance" p_ "e2" "e4" ck = Some 20 /\
      calculateCost (mkPreset nm a b c d e f 10) "distance" n_ "g1" "f3" ck = Some 30).
Proof.
  split; [| split; [| split]].
  - intros. unfold square. rewrite moveDistance_squares.
    destruct (decide (n_ = n_)); [reflexivity | congruence].
  - intros piece f1 r1 f2 r2 Hp. unfold square. rewrite moveDistance_squares.
    destruct (decide (piece = n_)); [contradiction | reflexivity].
  - intros f1 r1 f2 r2 Hin. unfold square. rewrite moveDistance_squares.
    destruct (decide (n_ = n_)); [| congruence].
    f_equal. exact (knight_delta_sum _ _ Hin).
  - intros. split; reflexivity.
Qed.

Lemma C9_witness :
  moveDistance q_ "d1" "d8" = Some 7 /\ moveDistance n_ "g1" "f3" = Some 3.
Proof.
  destruct C9_distance_metric_and_examples as (_ & Hcheb & Hknight & _).
  split.
  - apply (Hcheb q_ "d"%char "1"%char "d"%char "8"%char). discriminate.
  - apply (Hknight "g"%char "1"%char "f"%char "3"%char).
    vm_compute. tauto.
Defined.


(** ** The move handler, case by case *)

(** ** The move handler, case by case *)

Section MakeMoveFacts.

Context {O : ChessJs}.
Variable parse : string -> option PresetValues.

Lemma makeMove_inv config auth gameId from to promotion ck s s' res :
  makeMove parse config auth gameId from to promotion ck s = (s', res) ->
  (s' = s /\ exists code msg, res = Err (HttpsError code msg)) \/
  (s' = s /\ exists msg, res = Err (Thrown msg)) \/
  (exists uid game preset r,
      auth = Some uid /\
      (truthy gameId && truthy from && truthy to = true) /\
      rtdb_games s !! gameId = Some game /\
      status game = active /\
      is_player game uid = true /\
      getPreset parse config (presetName game) = Ok preset /\
      validateAndApplyMove game uid from to promotion ck preset = Ok r /\
      lt_num (balance_of s gameId uid) (cost r) = false /\
      match cost r with
      | Some c =>
          s' = committed gameId uid game r c s /\
          res = Ok (mkMoveResponse (newFen r) (moveHistory game ++ [moveRecord r])%list
                      (Some c) (Some (balance_of s gameId uid - c)))
      | None =>
          s' = fst (updateGameMove gameId (newFen r)
                      (moveHistory game ++ [moveRecord r])%list s) /\
          exists msg, res = Err (Thrown msg)
      end).
Proof.
  unfold makeMove. unfold_store.
  destruct auth as [uid |]; cbn; [| intros [= <- <-]; left; eauto ].
  destruct (truthy gameId && truthy from && truthy to) eqn:Hargs; cbn;
    [| intros [= <- <-]; left; eauto ].
  destruct (rtdb_games s !! gameId) as [game |] eqn:Hg; cbn;
    [| intros [= <- <-]; left; eauto ].
  destruct (bool_decide (status game = active)) eqn:Hst; cbn;
    [| intros [= <- <-]; left; eauto ].
  apply bool_decide_eq_true in Hst.
  destruct (is_player game uid) eqn:Hpl; cbn; [| intros [= <- <-]; left; eauto ].
  destruct (getPreset parse config (presetName game)) as [preset | e] eqn:Hp; cbn.
  2:{ intros [= <- <-]. destruct e; [left | right; left]; eauto. }
  destruct (validateAndApplyMove game uid from to promotion ck preset) as [r | e] eqn:Hv;
    cbn.
  2:{ intros [= <- <-]. destruct e; [left | right; left]; eauto. }
  destruct (lt_num (balance_of s gameId uid) (cost r)) eqn:Hlt; cbn;
    [ intros [= <- <-]; left; eauto |].
  intros Hrun. right; right.
  exists uid, game, preset, r.
  repeat (split; [assumption || reflexivity |]).
  destruct (cost r) as [c |] eqn:Hc; cbn in Hrun; injection Hrun as <- <-.
  - split; reflexivity.
  - split; [reflexivity | eauto].
Qed.

Lemma makeMove_commit config uid gameId from to promotion ck s game preset r c :
  truthy gameId && truthy from && truthy to = true ->
  rtdb_games s !! gameId = Some game ->
  status game = active ->
  is_player game uid = true ->
  getPreset parse config (presetName game) = Ok preset ->
  validateAndApplyMove game uid from to promotion ck preset = Ok r ->
  cost r = Some c ->
  lt_num (balance_of s gameId uid) (Some c) = false ->
  makeMove parse config (Some uid) gameId from to promotion ck s =
    (committed gameId uid game r c s,
     Ok (mkMoveResponse (newFen r) (moveHistory game ++ [moveRecord r])%list
           (Some c) (Some (balance_of s gameId uid - c)))).
Proof.
  intros Hargs Hg Hst Hpl Hp Hv Hc Hlt.
  unfold makeMove. unfold_store. cbn.
  rewrite Hargs; cbn. rewrite Hg; cbn.
  rewrite (bool_decide_eq_true_2 _ Hst); cbn.
  rewrite Hpl; cbn. rewrite Hp; cbn. rewrite Hv; cbn.
  rewrite Hc. rewrite Hlt; cbn. reflexivity.
Qed.

End MakeMoveFacts.

(** ** The awaited steps of a handler, run without interruption *)

Lemma createGame_steps_run auth presetName costModeName gameId now s :
  run_proc (createGame_steps auth presetName costModeName gameId now) s =
  createGame auth presetName costModeName gameId now s.
Proof.
  unfold createGame_steps, createGame, assertNoActiveGame, createGameRecord. unfold_store.
  remember (includes KNOWN_PRESET_NAMES presetName) as known eqn:Hknown.
  destruct auth as [uid |]; cbn; [| reflexivity].
  destruct (truthy presetName && truthy costModeName); cbn; [| reflexivity].
  destruct known; cbn; [| reflexivity].
  destruct (userActiveGame s !! uid); reflexivity.
Qed.

Lemma joinGame_steps_run isEmulator auth gameId s :
  run_proc (joinGame_steps isEmulator auth gameId) s = joinGame isEmulator auth gameId s.
Proof.
  unfold joinGame_steps, joinGame, both, updateGameState, setUserActiveGame,
    assertNoActiveGame. unfold_store.
  destruct auth as [uid |]; cbn; [| reflexivity].
  destruct (truthy gameId); cbn; [| reflexivity].
  destruct (rtdb_games s !! gameId) as [game |]; cbn; [| reflexivity].
  destruct (bool_decide (blackPlayerId game <> None)
            || negb (bool_decide (status game = waiting))); cbn; [reflexivity |].
  destruct (negb isEmulator && bool_decide (whitePlayerId game = uid)); cbn;
    [reflexivity |].
  destruct (negb isEmulator || negb (bool_decide (whitePlayerId game = uid))); cbn.
  - destruct (userActiveGame s !! uid); cbn; [reflexivity |].
    destruct (firestore_update_result s gameId) as [[] | e]; reflexivity.
  - destruct (firestore_update_result s gameId) as [[] | e]; reflexivity.
Qed.

Lemma endGame_steps_run auth gameId o s :
  run_proc (endGame_steps auth gameId o) s = endGame auth gameId o s.
Proof.
  unfold endGame_steps, endGame, both, updateGameState, clearUserActiveGames.
  unfold_store.
  destruct auth as [uid |]; cbn; [| reflexivity].
  destruct (truthy gameId); cbn; [| reflexivity].
  destruct (rtdb_games s !! gameId) as [game |]; cbn; [| reflexivity].
  destruct (is_player game uid); cbn; [| reflexivity].
  destruct (firestore_update_result s gameId) as [[] | e]; reflexivity.
Qed.

Lemma submitStepDelta_steps_run config auth gameId delta s :
  run_proc (submitStepDelta_steps config auth gameId delta) s =
  submitStepDelta config auth gameId delta s.
Proof.
  unfold submitStepDelta_steps, submitStepDelta, atomicIncrementStepBalance. unfold_store.
  destruct auth as [uid |]; cbn; [| reflexivity].
  destruct (truthy gameId); cbn; [| reflexivity].
  destruct delta as [d |]; cbn; [| reflexivity].
  destruct (d <=? 0)%Z; cbn; [reflexivity |].
  destruct (rtdb_games s !! gameId) as [game |]; cbn; [| reflexivity].
  destruct (is_player game uid); cbn; [| reflexivity].
  destruct (bool_decide (status game = active)); cbn; [| reflexivity].
  destruct (getNumber config CONFIG_KEYS.MAX_STEP_DELTA_PER_CALL <? d)%Z; reflexivity.
Qed.

Lemma makeMove_steps_run (O : ChessJs) (parse : string -> option PresetValues)
    config auth gameId from to promotion ck s :
  run_proc (makeMove_steps parse config auth gameId from to promotion ck) s =
  makeMove parse config auth gameId from to promotion ck s.
Proof.
  unfold makeMove_steps, makeMove, both. unfold_store.
  destruct auth as [uid |]; cbn; [| reflexivity].
  destruct (truthy gameId && truthy from && truthy to); cbn; [| reflexivity].
  destruct (rtdb_games s !! gameId) as [game |]; cbn; [| reflexivity].
  destruct (bool_decide (status game = active)); cbn; [| reflexivity].
  destruct (is_player game uid); cbn; [| reflexivity].
  destruct (getPreset parse config (presetName game)) as [preset | e]; cbn;
    [| reflexivity].
  destruct (validateAndApplyMove game uid from to promotion ck preset) as [r | e]; cbn;
    [| reflexivity].
  destruct (lt_num (balance_of s gameId uid) (cost r)); cbn; [reflexivity |].
  destruct (cost r); reflexivity.
Qed.



(** ** Frame of a successful move *)






(** ** Promotion default *)




(** C7, as stated, fails on the king-capture path, which never promotes:
    the white pawn on d7 that takes the king on e8 with isKingCapture set
    and no promotion piece stands on e8 as a pawn, not as a queen. *)
Lemma C7_counterexample :
  exists s' resp,
    makeMove (chessjs := MiniChess.chessjs) FlatJson.parse makeFallbackConfig
             (Some "alice") "g3" "d7" "e8" None true (demoStore pawnTakesKingGame 200 0)
      = (s', Ok resp) /\
    (ptype <$> MiniChess.get (default (MiniChess.mkBoard [] "" [])
                                (MiniChess.load (fen pawnTakesKingGame))) "d7")
      = Some p_ /\
    String.get 1 "e8" = Some "8"%char /\
    r_fen resp = "4P3/8/8/8/8/8/8/4K3 w - - 0 40" /\
    MiniChess.get (default (MiniChess.mkBoard [] "" []) (MiniChess.load (r_fen resp))) "e8"
      = Some (mkPiece p_ w_) /\
    MiniChess.get (default (MiniChess.mkBoard [] "" []) (MiniChess.load (r_fen resp))) "e8"
      <> Some (mkPiece q_ w_).
Proof.
  eexists _, _. split; [vm_compute; reflexivity |].
  repeat split; try (vm_compute; reflexivity). vm_compute. discriminate.
Qed.

(** ** King capture *)



(** ** The stand-in board obeys the laws assumed of chess.js *)













(** ** Presets are read at move time *)

Lemma getPreset_agree (parse : string -> option PresetValues) cfg1 cfg2 name :
  (forall key, In (name, key) PRESET_CONFIG_KEYS ->
               getString cfg1 key = getString cfg2 key) ->
  getPreset parse cfg1 name = getPreset parse cfg2 name.
Proof.
  intros Hagree. unfold getPreset.
  destruct (find (fun kv => String.eqb (fst kv) name) PRESET_CONFIG_KEYS)
    as [[n key] |] eqn:Hfind; [| reflexivity].
  apply find_some in Hfind. destruct Hfind as [Hin Heq].
  apply String.eqb_eq in Heq. cbn in Heq. subst n.
  rewrite (Hagree key Hin). reflexivity.
Qed.


(** C3, as the code has it.  [createGame] stores the preset by name (it
    checks the name against the known names and reads no preset numbers),
    and [makeMove] resolves that name in the configuration in effect at the
    time of the move: two runs of [makeMove] on the same store and move give
    the same result, cost included, whenever the two configurations hold
    the same text under the key of the game's preset. *)
Theorem C3_preset_resolved_at_move_time (O : ChessJs)
    (parse : string -> option PresetValues) :
  (forall uid presetName costModeName gameId now s s' gid,
      createGame (Some uid) presetName costModeName gameId now s = (s', Ok gid) ->
      In presetName KNOWN_PRESET_NAMES /\
      rtdb_games s' !! gameId =
        Some (mkGame gameId uid None INITIAL_FEN [] waiting presetName costModeName
                     now None None)) /\
  (forall cfg1 cfg2 auth gameId from to promotion ck s,
      (forall game key,
          rtdb_games s !! gameId = Some game ->
          In (presetName game, key) PRESET_CONFIG_KEYS ->
          getString cfg1 key = getString cfg2 key) ->
      makeMove parse cfg1 auth gameId from to promotion ck s =
      makeMove parse cfg2 auth gameId from to promotion ck s).
Proof.
  split.
  - intros uid presetName costModeName gameId now s s' gid.
    unfold createGame, assertNoActiveGame, createGameRecord. unfold_store.
    remember (includes KNOWN_PRESET_NAMES presetName) as known eqn:Hknown.
    symmetry in Hknown. cbn.
    destruct (truthy presetName && truthy costModeName); cbn; [| discriminate].
    destruct known; cbn; [| discriminate].
    destruct (userActiveGame s !! uid); cbn; [discriminate |].
    intros [= <- <-]. split.
    + unfold includes in Hknown. apply existsb_exists in Hknown.
      destruct Hknown as (x & Hin & Heq). apply String.eqb_eq in Heq. subst x. exact Hin.
    + cbn. apply lookup_insert_eq.
  - intros cfg1 cfg2 auth gameId from to promotion ck s Hagree.
    unfold makeMove. unfold_store.
    destruct auth as [uid |]; cbn; [| reflexivity].
    destruct (truthy gameId && truthy from && truthy to); cbn; [| reflexivity].
    destruct (rtdb_games s !! gameId) as [game |] eqn:Hg; cbn; [| reflexivity].
    destruct (bool_decide (status game = active)); cbn; [| reflexivity].
    destruct (is_player game uid); cbn; [| reflexivity].
    rewrite (getPreset_agree parse cfg1 cfg2 (presetName game)
               (fun key Hin => Hagree game key eq_refl Hin)).
    reflexivity.
Qed.

Lemma C3_witness :
  makeMove (chessjs := MiniChess.chessjs) FlatJson.parse makeFallbackConfig
           (Some "alice") "g1" "e2" "e4" None false
           (demoStore (mkGame "g1" "alice" (Some "bob") INITIAL_FEN [] active "Quick"
                              "distance" "2024-01-01T00:00:00.000Z" None None) 100 0) =
  makeMove (chessjs := MiniChess.chessjs) FlatJson.parse editedConfig
           (Some "alice") "g1" "e2" "e4" None false
           (demoStore (mkGame "g1" "alice" (Some "bob") INITIAL_FEN [] active "Quick"
                              "distance" "2024-01-01T00:00:00.000Z" None None) 100 0).
Proof.
  apply (proj2 (C3_preset_resolved_at_move_time MiniChess.chessjs FlatJson.parse)).
  intros game key Hg Hin. vm_compute in Hg. injection Hg as <-.
  cbn in Hin. destruct Hin as [Hin | [Hin | [Hin | []]]]; try discriminate Hin.
  injection Hin as <-. reflexivity.
Defined.

(** C3, as stated, fails: the same move of the same in-flight game costs 20
    under the default configuration and 50 once the Normal preset's distance
    multiplier has been edited from 10 to 25. *)
Lemma C3_counterexample :
  exists s1 r1 s2 r2,
    makeMove (chessjs := MiniChess.chessjs) FlatJson.parse makeFallbackConfig
             (Some "alice") "g1" "e2" "e4" None false
             (demoStore (demoGame "distance") 100 0) = (s1, Ok r1) /\
    makeMove (chessjs := MiniChess.chessjs) FlatJson.parse editedConfig
             (Some "alice") "g1" "e2" "e4" None false
             (demoStore (demoGame "distance") 100 0) = (s2, Ok r2) /\
    r_cost r1 = Some 20 /\ r_cost r2 = Some 50 /\ r_cost r1 <> r_cost r2.
Proof.
  eexists _, _, _, _.
  split; [vm_compute; reflexivity |].
  split; [vm_compute; reflexivity |].
  split; [reflexivity |]. split; [reflexivity | discriminate].
Qed.

(** ** Terminal statuses *)

Lemma makeMove_not_active (O : ChessJs) (parse : string -> option PresetValues)
    config uid gameId from to promotion ck s game :
  truthy gameId && truthy from && truthy to = true ->
  rtdb_games s !! gameId = Some game ->
  status game <> active ->
  makeMove parse config (Some uid) gameId from to promotion ck s =
    (s, Err (HttpsError failed_precondition "Game is not active")).
Proof.
  intros Hargs Hg Hst. unfold makeMove. unfold_store. cbn.
  rewrite Hargs; cbn. rewrite Hg; cbn.
  rewrite (bool_decide_eq_false_2 _ Hst). reflexivity.
Qed.

Lemma joinGame_not_waiting isEmulator uid gameId s game :
  truthy gameId = true ->
  rtdb_games s !! gameId = Some game ->
  status game <> waiting ->
  joinGame isEmulator (Some uid) gameId s =
    (s, Err (HttpsError failed_precondition "Game is already full")).
Proof.
  intros Hid Hg Hst. unfold joinGame. unfold_store. cbn.
  rewrite Hid; cbn. rewrite Hg; cbn.
  rewrite (bool_decide_eq_false_2 _ Hst). cbn.
  rewrite orb_true_r. reflexivity.
Qed.

Lemma submitStepDelta_not_active config uid gameId d s game :
  truthy gameId = true ->
  0 < d ->
  rtdb_games s !! gameId = Some game ->
  is_player game uid = true ->
  status game <> active ->
  submitStepDelta config (Some uid) gameId (Some d) s =
    (s, Err (HttpsError failed_precondition "Game is not active")).
Proof.
  intros Hid Hd Hg Hpl Hst. unfold submitStepDelta. unfold_store. cbn.
  rewrite Hid; cbn.
  destruct (Z.leb_spec d 0) as [Hle | _]; [lia |]. cbn.
  rewrite Hg; cbn. rewrite Hpl; cbn.
  rewrite (bool_decide_eq_false_2 _ Hst). reflexivity.
Qed.

Lemma endGame_accepted uid gameId o s game :
  truthy gameId = true ->
  rtdb_games s !! gameId = Some game ->
  is_player game uid = true ->
  endGame (Some uid) gameId o s =
    (fst (clearUserActiveGames (uidsToClean game)
            (fst (updateGameState gameId (endGame_update uid o) s))),
     firestore_update_result s gameId).
Proof.
  intros Hid Hg Hpl. unfold endGame, both, updateGameState, clearUserActiveGames.
  unfold_store. cbn.
  rewrite Hid; cbn. rewrite Hg; cbn. rewrite Hpl; cbn.
  destruct (firestore_update_result s gameId) as [[] |]; reflexivity.
Qed.

(** C2, as the code has it.  On a game whose status is completed or
    abandoned, a well-formed [makeMove], [joinGame] and (by a player, with a
    positive delta) [submitStepDelta] fail with a failed-precondition error
    and leave the store as it was; [makeMove] and [submitStepDelta] succeed
    only on an active game and [joinGame] only on a waiting one.  [endGame]
    has no status guard: called by a player of a game whose Firestore
    document exists, it is accepted in every status. *)
Theorem C2_terminal_states (O : ChessJs) (parse : string -> option PresetValues)
    s gameId game :
  truthy gameId = true ->
  rtdb_games s !! gameId = Some game ->
  (status game = completed \/ status game = abandoned ->
     (forall config uid from to promotion ck,
         truthy from && truthy to = true ->
         makeMove parse config (Some uid) gameId from to promotion ck s =
           (s, Err (HttpsError failed_precondition "Game is not active"))) /\
     (forall isEmulator uid,
         joinGame isEmulator (Some uid) gameId s =
           (s, Err (HttpsError failed_precondition "Game is already full"))) /\
     (forall config uid d,
         is_player game uid = true -> 0 < d ->
         submitStepDelta config (Some uid) gameId (Some d) s =
           (s, Err (HttpsError failed_precondition "Game is not active")))) /\
  (forall config auth from to promotion ck s' resp,
      makeMove parse config auth gameId from to promotion ck s = (s', Ok resp) ->
      status game = active) /\
  (forall isEmulator auth s',
      joinGame isEmulator auth gameId s = (s', Ok tt) -> status game = waiting) /\
  (forall config auth delta s' b,
      submitStepDelta config auth gameId delta s = (s', Ok b) -> status game = active) /\
  (forall uid o,
      is_player game uid = true ->
      fs_games s !! gameId <> None ->
      exists s', endGame (Some uid) gameId o s = (s', Ok tt)).
Proof.
  intros Hid Hg. split; [| split; [| split; [| split]]].
  - intros Hterminal.
    assert (Hna : status game <> active) by (destruct Hterminal as [-> | ->]; discriminate).
    assert (Hnw : status game <> waiting) by (destruct Hterminal as [-> | ->]; discriminate).
    split; [| split].
    + intros config uid from to promotion ck Hargs.
      apply makeMove_not_active with (game := game); try assumption.
      rewrite Hid. exact Hargs.
    + intros isEmulator uid. apply joinGame_not_waiting with (game := game); assumption.
    + intros config uid d Hpl Hd.
      apply submitStepDelta_not_active with (game := game); assumption.
  - intros config auth from to promotion ck s' resp Hrun.
    apply makeMove_inv in Hrun.
    destruct Hrun as [[_ (c & m & H)] | [[_ (m & H)] |
      (uid & game0 & preset & r & _ & _ & Hg0 & Hst & _)]]; try discriminate.
    rewrite Hg in Hg0. injection Hg0 as <-. exact Hst.
  - intros isEmulator auth s'. unfold joinGame. unfold_store.
    destruct auth as [uid |]; cbn; [| discriminate].
    rewrite Hid; cbn. rewrite Hg; cbn.
    destruct (decide (status game = waiting)) as [Hw | Hw]; [intros _; exact Hw |].
    rewrite (bool_decide_eq_false_2 _ Hw). cbn. rewrite orb_true_r. discriminate.
  - intros config auth delta s' b. unfold submitStepDelta. unfold_store.
    destruct auth as [uid |]; cbn; [| discriminate].
    rewrite Hid; cbn.
    destruct delta as [d |]; cbn; [| discriminate].
    destruct (d <=? 0)%Z; cbn; [discriminate |].
    rewrite Hg; cbn.
    destruct (is_player game uid); cbn; [| discriminate].
    destruct (decide (status game = active)) as [Ha | Ha]; [intros _; exact Ha |].
    rewrite (bool_decide_eq_false_2 _ Ha). discriminate.
  - intros uid o Hpl Hfs. eexists.
    rewrite (endGame_accepted uid gameId o s game Hid Hg Hpl).
    unfold firestore_update_result.
    destruct (fs_games s !! gameId); [reflexivity | contradiction].
Qed.

Lemma C2_witness :
  joinGame false (Some "carol") "g1" (demoStore (finishedGame completed draw None) 0 0) =
    (demoStore (finishedGame completed draw None) 0 0,
     Err (HttpsError failed_precondition "Game is already full")).
Proof.
  destruct (C2_terminal_states MiniChess.chessjs FlatJson.parse
              (demoStore (finishedGame completed draw None) 0 0) "g1"
              (finishedGame completed draw None) eq_refl eq_refl)
    as (Hterminal & _).
  destruct (Hterminal (or_introl eq_refl)) as (_ & Hjoin & _).
  exact (Hjoin false "carol").
Defined.

(** C2, as stated, fails for [endGame]: on a game already completed as a
    draw, [endGame] by a player succeeds and rewrites the status to
    abandoned. *)
Lemma C2_counterexample :
  exists s',
    endGame (Some "alice") "g1" outcome_abandoned
            (demoStore (finishedGame completed draw None) 0 0) = (s', Ok tt) /\
    status <$> rtdb_games s' !! "g1" = Some abandoned.
Proof.
  eexists. split; [vm_compute; reflexivity |]. vm_compute. reflexivity.
Qed.

(** ** Ending a game *)

Lemma lookup_foldr_delete (m : gmap string string) (uids : list string) (u : string) :
  foldr (fun uid acc => delete uid acc) m uids !! u =
    if decide (u ∈ uids) then None else m !! u.
Proof.
  induction uids as [| x uids IH]; cbn.
  - destruct (decide (u ∈ [])) as [Hin | _]; [inversion Hin | reflexivity].
  - destruct (decide (x = u)) as [-> | Hne].
    + rewrite lookup_delete_eq.
      destruct (decide (u ∈ u :: uids)) as [_ | Hnin]; [reflexivity |].
      contradiction Hnin. left.
    + rewrite lookup_delete_ne by exact Hne. rewrite IH.
      destruct (decide (u ∈ uids)) as [Hin | Hnin];
        destruct (decide (u ∈ x :: uids)) as [Hin' | Hnin']; try reflexivity.
      * contradiction Hnin'. right. exact Hin.
      * apply elem_of_cons in Hin'. destruct Hin' as [-> | Hin']; contradiction.
Qed.



(** ** Leaderboard accumulation *)

Lemma stats_of_insert_eq (lb : gmap string Stats) u st :
  stats_of (<[u := st]> lb) u = st.
Proof. unfold stats_of. rewrite lookup_insert_eq. reflexivity. Qed.

Lemma stats_of_insert_ne (lb : gmap string Stats) u v st :
  u <> v -> stats_of (<[u := st]> lb) v = stats_of lb v.
Proof. intros Hne. unfold stats_of. rewrite lookup_insert_ne by exact Hne. reflexivity. Qed.

Lemma onGameCompleted_no_change b a s :
  status b = status a ->
  onGameCompleted (Some b) (Some a) s = (s, Ok tt).
Proof.
  intros Heq. unfold onGameCompleted.
  rewrite (bool_decide_eq_true_2 _ Heq). reflexivity.
Qed.

Lemma onGameCompleted_not_completed before after s :
  (forall a, after = Some a -> status a <> completed) ->
  onGameCompleted before after s = (s, Ok tt).
Proof.
  intros Hnc. unfold onGameCompleted.
  destruct before as [b |]; [| reflexivity].
  destruct after as [a |]; [| reflexivity].
  rewrite (bool_decide_eq_false_2 _ (Hnc a eq_refl)). cbn.
  rewrite orb_true_r. reflexivity.
Qed.

Lemma onGameCompleted_fresh b a s :
  status b <> completed ->
  status a = completed ->
  onGameCompleted (Some b) (Some a) s = applyGameResult a s.
Proof.
  intros Hb Ha. unfold onGameCompleted.
  rewrite bool_decide_eq_false_2 by congruence.
  rewrite (bool_decide_eq_true_2 _ Ha). reflexivity.
Qed.

Lemma endGame_firestore auth gameId o s :
  fst (endGame auth gameId o s) = s \/
  exists uid,
    fs_games (fst (endGame auth gameId o s)) !! gameId =
      apply_update (endGame_update uid o) <$> fs_games s !! gameId.
Proof.
  unfold endGame, both, clearUserActiveGames, updateGameState. unfold_store.
  destruct auth as [uid |]; cbn; [| left; reflexivity].
  destruct (truthy gameId); cbn; [| left; reflexivity].
  destruct (rtdb_games s !! gameId) as [game |]; cbn; [| left; reflexivity].
  destruct (is_player game uid); cbn; [| left; reflexivity].
  right. exists uid. apply lookup_alter_eq.
Qed.

Lemma onGameCompleted_same_doc doc s :
  onGameCompleted doc doc s = (s, Ok tt).
Proof.
  destruct doc as [g |]; [| reflexivity].
  apply onGameCompleted_no_change. reflexivity.
Qed.

Lemma status_apply_endGame_update uid o g :
  status (apply_update (endGame_update uid o) g) = finalStatus_of o.
Proof. reflexivity. Qed.

(** C4.  The win / loss / draw counters are applied once per transition of
    a game into status completed: an update whose new status is not
    completed (abandoned included) applies nothing; an update that does not
    change the status applies nothing, so handling a completed-to-completed
    update, once or twice, leaves the leaderboard as it was, and so does the
    update event of a repeated identical [endGame]; a change into completed
    with outcome win adds exactly 1 to the winner's wins and 1 to the other
    player's losses, and with outcome draw exactly 1 to each player's
    draws, and touches nothing else. *)
Theorem C4_leaderboard_applied_once_per_completion :
  (forall before after s,
      (forall a, after = Some a -> status a <> completed) ->
      onGameCompleted before after s = (s, Ok tt)) /\
  (forall b a s,
      status b = status a ->
      onGameCompleted (Some b) (Some a) s = (s, Ok tt)) /\
  (forall b a s,
      status b = completed -> status a = completed ->
      bind (onGameCompleted (Some b) (Some a))
           (fun _ => onGameCompleted (Some b) (Some a)) s = (s, Ok tt)) /\
  (forall auth gameId o s sigma,
      let s1 := fst (endGame auth gameId o s) in
      let s2 := fst (endGame auth gameId o s1) in
      fire_onGameCompleted gameId s1 s2 sigma = (sigma, Ok tt)) /\
  (forall b a s black winner,
      status b <> completed -> status a = completed ->
      blackPlayerId a = Some black -> truthy black = true ->
      outcome a = Some win ->
      winnerId a = Some winner -> truthy winner = true ->
      let loser := if bool_decide (winner = whitePlayerId a)
                   then black else whitePlayerId a in
      winner <> loser ->
      exists s',
        onGameCompleted (Some b) (Some a) s = (s', Ok tt) /\
        stats_of (leaderboard s') winner =
          mkStats (wins (stats_of (leaderboard s) winner) + 1)
                  (losses (stats_of (leaderboard s) winner))
                  (draws (stats_of (leaderboard s) winner)) /\
        stats_of (leaderboard s') loser =
          mkStats (wins (stats_of (leaderboard s) loser))
                  (losses (stats_of (leaderboard s) loser) + 1)
                  (draws (stats_of (leaderboard s) loser)) /\
        (forall u, u <> winner -> u <> loser ->
                   leaderboard s' !! u = leaderboard s !! u) /\
        rtdb_games s' = rtdb_games s /\ fs_games s' = fs_games s /\
        rtdb_steps s' = rtdb_steps s /\ userActiveGame s' = userActiveGame s) /\
  (forall b a s black,
      status b <> completed -> status a = completed ->
      blackPlayerId a = Some black -> truthy black = true ->
      outcome a = Some draw ->
      whitePlayerId a <> black ->
      exists s',
        onGameCompleted (Some b) (Some a) s = (s', Ok tt) /\
        stats_of (leaderboard s') (whitePlayerId a) =
          mkStats (wins (stats_of (leaderboard s) (whitePlayerId a)))
                  (losses (stats_of (leaderboard s) (whitePlayerId a)))
                  (draws (stats_of (leaderboard s) (whitePlayerId a)) + 1) /\
        stats_of (leaderboard s') black =
          mkStats (wins (stats_of (leaderboard s) black))
                  (losses (stats_of (leaderboard s) black))
                  (draws (stats_of (leaderboard s) black) + 1) /\
        (forall u, u <> whitePlayerId a -> u <> black ->
                   leaderboard s' !! u = leaderboard s !! u) /\
        rtdb_games s' = rtdb_games s /\ fs_games s' = fs_games s /\
        rtdb_steps s' = rtdb_steps s /\ userActiveGame s' = userActiveGame s).
Proof.
  split; [exact onGameCompleted_not_completed |].
  split; [exact onGameCompleted_no_change |].
  split.
  { intros b a s Hb Ha. unfold bind.
    rewrite onGameCompleted_no_change by congruence.
    apply onGameCompleted_no_change. congruence. }
  split.
  { intros auth gameId o s sigma. cbv zeta. unfold fire_onGameCompleted.
    destruct (endGame_firestore auth gameId o s) as [H1 | [uid1 H1]].
    - rewrite !H1. apply onGameCompleted_same_doc.
    - destruct (endGame_firestore auth gameId o (fst (endGame auth gameId o s)))
        as [H2 | [uid2 H2]].
      + rewrite H2. apply onGameCompleted_same_doc.
      + rewrite H2, H1.
        destruct (fs_games s !! gameId) as [g |]; [| reflexivity].
        apply onGameCompleted_no_change. reflexivity. }
  split.
  { intros b a s black winner Hb Ha Hblack Htb Ho Hw Htw loser Hne.
    rewrite onGameCompleted_fresh by assumption.
    unfold applyGameResult. rewrite Hblack, Ho, Hw. cbn. rewrite Htb, Htw. cbn.
    fold loser.
    unfold incrementWin, incrementLoss. unfold_store. cbn.
    eexists. split; [reflexivity |]. cbn.
    split.
    { rewrite stats_of_insert_ne by congruence.
      rewrite stats_of_insert_eq. reflexivity. }
    split.
    { rewrite stats_of_insert_eq.
      rewrite !stats_of_insert_ne by congruence. reflexivity. }
    split.
    { intros u Huw Hul. rewrite !lookup_insert_ne by congruence. reflexivity. }
    repeat split. }
  { intros b a s black Hb Ha Hblack Htb Ho Hne.
    rewrite onGameCompleted_fresh by assumption.
    unfold applyGameResult. rewrite Hblack, Ho. cbn. rewrite Htb. cbn.
    unfold incrementDraw. unfold_store. cbn.
    eexists. split; [reflexivity |]. cbn.
    split.
    { rewrite stats_of_insert_ne by congruence.
      rewrite stats_of_insert_eq. reflexivity. }
    split.
    { rewrite stats_of_insert_eq.
      rewrite !stats_of_insert_ne by congruence. reflexivity. }
    split.
    { intros u Huw Hul. rewrite !lookup_insert_ne by congruence. reflexivity. }
    repeat split. }
Qed.

Lemma C4_witness :
  exists s',
    onGameCompleted (Some (demoGame "distance"))
                    (Some (apply_update (endGame_update "bob" win) (demoGame "distance")))
                    (demoStore (demoGame "distance") 0 0) = (s', Ok tt) /\
    stats_of (leaderboard s') "bob" = mkStats 1 0 0 /\
    stats_of (leaderboard s') "alice" = mkStats 0 1 0.
Proof.
  destruct C4_leaderboard_applied_once_per_completion as (_ & _ & _ & _ & Hwin & _).
  destruct (Hwin (demoGame "distance")
                 (apply_update (endGame_update "bob" win) (demoGame "distance"))
                 (demoStore (demoGame "distance") 0 0) "bob" "bob")
    as (s' & Hrun & Hw & Hl & _);
    try reflexivity; try discriminate.
  exists s'. split; [exact Hrun |]. split; [exact Hw | exact Hl].
Defined.

(** ** The spend is a check followed by a write *)

Import SpendRace.

Lemma balance_of_set gameId uid b s :
  balance_of (set_rtdb_steps (insert (gameId, uid) b) s) gameId uid = b.
Proof. unfold balance_of. cbn. rewrite lookup_insert_eq. reflexivity. Qed.

Lemma step_task_invariant gameId uid t s :
  0 <= balance_of s gameId uid ->
  pending_ok t ->
  0 <= balance_of (fst (step_task gameId uid t s)) gameId uid /\
  pending_ok (snd (step_task gameId uid t s)).
Proof.
  intros Hb Ht. destruct t as [c | c b | d | c | | d].
  - unfold step_task, getStepBalance, gets, lt_num.
    destruct (Z.ltb_spec (balance_of s gameId uid) c) as [Hlt | Hge]; cbn.
    + split; [exact Hb | exact I].
    + split; [exact Hb | lia].
  - cbn in Ht. unfold step_task, setStepBalance, modify. cbn [fst snd].
    rewrite balance_of_set. split; [exact Ht | exact I].
  - cbn in Ht. unfold step_task, atomicIncrementStepBalance. cbn [fst snd].
    rewrite balance_of_set. split; [lia | exact I].
  - split; [exact Hb | exact I].
  - split; [exact Hb | exact I].
  - split; [exact Hb | exact I].
Qed.

Lemma step_invariant gameId uid i s ts :
  0 <= balance_of s gameId uid ->
  Forall pending_ok ts ->
  0 <= balance_of (fst (step gameId uid i (s, ts))) gameId uid /\
  Forall pending_ok (snd (step gameId uid i (s, ts))).
Proof.
  intros Hb Hts. unfold step. cbn [fst snd].
  destruct (nth_error ts i) as [t |] eqn:Hi; [| split; assumption].
  assert (Ht : pending_ok t).
  { rewrite Forall_forall in Hts. apply Hts. apply list_elem_of_In.
    eapply nth_error_In. exact Hi. }
  destruct (step_task_invariant gameId uid t s Hb Ht) as (Hb' & Ht').
  destruct (step_task gameId uid t s) as [s1 t1]. cbn [fst snd] in *.
  split; [exact Hb' |]. apply Forall_insert; assumption.
Qed.

(** The part of the ledger property that the check-then-write does keep:
    whatever the interleaving of spends and earns, the balance never goes
    below zero. *)
Lemma run_balance_nonneg gameId uid schedule s ts :
  0 <= balance_of s gameId uid ->
  Forall pending_ok ts ->
  0 <= balance_of (fst (run gameId uid schedule (s, ts))) gameId uid /\
  Forall pending_ok (snd (run gameId uid schedule (s, ts))).
Proof.
  revert s ts. induction schedule as [| i schedule IH]; intros s ts Hb Hts.
  - split; assumption.
  - change (run gameId uid (i :: schedule) (s, ts))
      with (run gameId uid schedule (step gameId uid i (s, ts))).
    destruct (step_invariant gameId uid i s ts Hb Hts) as (Hb' & Hts').
    destruct (step gameId uid i (s, ts)) as [s1 ts1]. cbn [fst snd] in *.
    apply IH; assumption.
Qed.

(** C5.  The spend of [makeMove] is a read of the balance followed, once
    the check has passed, by a separate write.  From a balance of 100, two
    concurrent moves of cost 60 by the same player that both read before
    either writes both succeed: the balance ends at 40, never negative, but
    the successful spends sum to 120, more than the starting balance with
    no earn in between.  Run one after the other, the second is rejected. *)
Theorem C5_double_spend_interleaving :
  (exists s',
      run "g1" "alice" [0; 1; 0; 1]%nat
          (demoStore (demoGame "distance") 100 0, [Spend 60; Spend 60]) =
        (s', [Spent 60; Spent 60]) /\
      balance_of s' "g1" "alice" = 40 /\
      total_spent [Spent 60; Spent 60] = 120 /\
      total_earned [Spent 60; Spent 60] = 0 /\
      100 + total_earned [Spent 60; Spent 60] < total_spent [Spent 60; Spent 60]) /\
  (exists s',
      run "g1" "alice" [0; 0; 1; 1]%nat
          (demoStore (demoGame "distance") 100 0, [Spend 60; Spend 60]) =
        (s', [Spent 60; Rejected]) /\
      balance_of s' "g1" "alice" = 40) /\
  (exists s',
      run "g1" "alice" [0; 1; 0]%nat
          (demoStore (demoGame "distance") 100 0, [Spend 60; Earn 50]) =
        (s', [Spent 60; Earned 50]) /\
      balance_of s' "g1" "alice" = 40).
Proof.
  split; [| split].
  - eexists. split; [vm_compute; reflexivity |].
    repeat split; vm_compute; reflexivity.
  - eexists. split; [vm_compute; reflexivity |]. vm_compute; reflexivity.
  - eexists. split; [vm_compute; reflexivity |]. vm_compute; reflexivity.
Qed.

(** The two steps of a [Spend] task, run without interruption, are the
    balance check and deduction of a successful [makeMove]. *)
Lemma spend_task_is_makeMove_spend (O : ChessJs) (parse : string -> option PresetValues)
    config uid gameId from to promotion ck s s' resp :
  makeMove parse config (Some uid) gameId from to promotion ck s = (s', Ok resp) ->
  exists c sb,
    r_cost resp = Some c /\
    run gameId uid [0; 0]%nat (s, [Spend c]) = (sb, [Spent c]) /\
    rtdb_steps sb = rtdb_steps s'.
Proof.
  intros Hrun. apply makeMove_inv in Hrun.
  destruct Hrun as [[_ (c & m & H)] | [[_ (m & H)] |
    (uid0 & game & preset & r & Hauth & _ & _ & _ & _ & _ & _ & Hlt & Hc)]];
    try discriminate.
  injection Hauth as <-.
  destruct (cost r) as [c |]; [| destruct Hc as [_ [m H]]; discriminate].
  destruct Hc as [-> [= ->]].
  exists c. eexists. split; [reflexivity |].
  unfold run, step, step_task, getStepBalance, gets. cbn.
  unfold lt_num in Hlt. rewrite Hlt. cbn.
  split; reflexivity.
Qed.

(* ===================================================================== *)
(** * Further properties of the handlers *)
(* ===================================================================== *)

(** ** What each handler can do to the store *)

Lemma createGame_inv auth presetName costModeName gameId now s s' r :
  createGame auth presetName costModeName gameId now s = (s', r) ->
  (s' = s /\ exists code msg, r = Err (HttpsError code msg)) \/
  (exists uid,
      auth = Some uid /\
      truthy presetName && truthy costModeName = true /\
      In presetName KNOWN_PRESET_NAMES /\
      userActiveGame s !! uid = None /\
      s' = fst (createGameRecord gameId
                  (mkGame gameId uid None INITIAL_FEN [] waiting presetName costModeName
                          now None None) uid s) /\
      r = Ok gameId).
Proof.
  unfold createGame, assertNoActiveGame. unfold_store.
  remember (includes KNOWN_PRESET_NAMES presetName) as known eqn:Hknown.
  symmetry in Hknown.
  destruct auth as [uid |]; cbn; [| intros [= <- <-]; left; eauto].
  destruct (truthy presetName && truthy costModeName) eqn:Hargs; cbn;
    [| intros [= <- <-]; left; eauto].
  destruct known; cbn; [| intros [= <- <-]; left; eauto].
  destruct (userActiveGame s !! uid) eqn:Hactive; cbn; [intros [= <- <-]; left; eauto |].
  intros [= <- <-]. right. exists uid.
  split; [reflexivity |]. split; [first [exact Hargs | reflexivity] |].
  split; [| split; [first [exact Hactive | reflexivity] | split; reflexivity]].
  unfold includes in Hknown. apply existsb_exists in Hknown.
  destruct Hknown as (x & Hin & Heq). apply String.eqb_eq in Heq. subst x. exact Hin.
Qed.

Lemma joinGame_inv isEmulator auth gameId s s' r :
  joinGame isEmulator auth gameId s = (s', r) ->
  (s' = s /\ exists code msg, r = Err (HttpsError code msg)) \/
  (exists uid game,
      auth = Some uid /\
      truthy gameId = true /\
      rtdb_games s !! gameId = Some game /\
      blackPlayerId game = None /\
      status game = waiting /\
      (isEmulator = false -> whitePlayerId game <> uid) /\
      (userActiveGame s !! uid = None \/ (isEmulator = true /\ whitePlayerId game = uid)) /\
      s' = fst (setUserActiveGame uid gameId
                  (fst (updateGameState gameId
                          (mkUpdate (Some uid) (Some active) None None) s))) /\
      r = firestore_update_result s gameId).
Proof.
  unfold joinGame, both, updateGameState, setUserActiveGame, assertNoActiveGame.
  unfold_store.
  destruct auth as [uid |]; cbn; [| intros [= <- <-]; left; eauto].
  destruct (truthy gameId) eqn:Hid; cbn; [| intros [= <- <-]; left; eauto].
  destruct (rtdb_games s !! gameId) as [game |] eqn:Hg; cbn;
    [| intros [= <- <-]; left; eauto].
  destruct (decide (blackPlayerId game = None)) as [Hb | Hb].
  2:{ rewrite (bool_decide_eq_true_2 _ Hb). cbn. intros [= <- <-]; left; eauto. }
  rewrite bool_decide_eq_false_2 by (intros H; apply H; exact Hb). cbn.
  destruct (decide (status game = waiting)) as [Hw | Hw].
  2:{ rewrite (bool_decide_eq_false_2 _ Hw). cbn. intros [= <- <-]; left; eauto. }
  rewrite (bool_decide_eq_true_2 _ Hw). cbn.
  destruct isEmulator; cbn.
  - destruct (decide (whitePlayerId game = uid)) as [Hself | Hother].
    + rewrite (bool_decide_eq_true_2 _ Hself). cbn.
      intros [= <- <-]. right. exists uid, game.
      repeat (split; [reflexivity || assumption || discriminate |]).
      split; [right; split; [reflexivity | exact Hself] |].
      split; [reflexivity | destruct (firestore_update_result s gameId) as [[] |]; reflexivity].
    + rewrite (bool_decide_eq_false_2 _ Hother). cbn.
      destruct (userActiveGame s !! uid) eqn:Hactive; cbn;
        [intros [= <- <-]; left; eauto |].
      intros [= <- <-]. right. exists uid, game.
      repeat (split; [reflexivity || assumption || discriminate |]).
      split; [left; first [assumption | reflexivity] |].
      split; [reflexivity | destruct (firestore_update_result s gameId) as [[] |]; reflexivity].
  - destruct (decide (whitePlayerId game = uid)) as [Hself | Hother].
    + rewrite (bool_decide_eq_true_2 _ Hself). cbn. intros [= <- <-]; left; eauto.
    + rewrite (bool_decide_eq_false_2 _ Hother). cbn.
      destruct (userActiveGame s !! uid) eqn:Hactive; cbn;
        [intros [= <- <-]; left; eauto |].
      intros [= <- <-]. right. exists uid, game.
      repeat (split; [reflexivity || assumption |]).
      split; [intros _; exact Hother |].
      split; [left; first [assumption | reflexivity] |].
      split; [reflexivity | destruct (firestore_update_result s gameId) as [[] |]; reflexivity].
Qed.

Lemma endGame_inv auth gameId o s s' r :
  endGame auth gameId o s = (s', r) ->
  (s' = s /\ exists code msg, r = Err (HttpsError code msg)) \/
  (exists uid game,
      auth = Some uid /\
      truthy gameId = true /\
      rtdb_games s !! gameId = Some game /\
      is_player game uid = true /\
      s' = fst (clearUserActiveGames (uidsToClean game)
                  (fst (updateGameState gameId (endGame_update uid o) s))) /\
      r = firestore_update_result s gameId).
Proof.
  unfold endGame, both, updateGameState, clearUserActiveGames. unfold_store.
  destruct auth as [uid |]; cbn; [| intros [= <- <-]; left; eauto].
  destruct (truthy gameId) eqn:Hid; cbn; [| intros [= <- <-]; left; eauto].
  destruct (rtdb_games s !! gameId) as [game |] eqn:Hg; cbn;
    [| intros [= <- <-]; left; eauto].
  destruct (is_player game uid) eqn:Hpl; cbn; [| intros [= <- <-]; left; eauto].
  intros [= <- <-]. right. exists uid, game.
  repeat (split; [reflexivity || assumption |]).
  destruct (firestore_update_result s gameId) as [[] |]; reflexivity.
Qed.

Lemma submitStepDelta_inv config auth gameId delta s s' r :
  submitStepDelta config auth gameId delta s = (s', r) ->
  (s' = s /\ exists code msg, r = Err (HttpsError code msg)) \/
  (exists uid game d,
      auth = Some uid /\ delta = Some d /\
      truthy gameId = true /\
      rtdb_games s !! gameId = Some game /\
      is_player game uid = true /\
      status game = active /\
      0 < d <= getNumber config CONFIG_KEYS.MAX_STEP_DELTA_PER_CALL /\
      s' = set_rtdb_steps (insert (gameId, uid) (balance_of s gameId uid + d)) s /\
      r = Ok (balance_of s gameId uid + d)).
Proof.
  unfold submitStepDelta, atomicIncrementStepBalance. unfold_store.
  destruct auth as [uid |]; cbn; [| intros [= <- <-]; left; eauto].
  destruct (truthy gameId) eqn:Hid; cbn; [| intros [= <- <-]; left; eauto].
  destruct delta as [d |]; cbn; [| intros [= <- <-]; left; eauto].
  destruct (Z.leb_spec d 0) as [Hle | Hpos]; cbn; [intros [= <- <-]; left; eauto |].
  destruct (rtdb_games s !! gameId) as [game |] eqn:Hg; cbn;
    [| intros [= <- <-]; left; eauto].
  destruct (is_player game uid) eqn:Hpl; cbn; [| intros [= <- <-]; left; eauto].
  destruct (decide (status game = active)) as [Ha | Ha].
  2:{ rewrite (bool_decide_eq_false_2 _ Ha). cbn. intros [= <- <-]; left; eauto. }
  rewrite (bool_decide_eq_true_2 _ Ha). cbn.
  destruct (Z.ltb_spec (getNumber config CONFIG_KEYS.MAX_STEP_DELTA_PER_CALL) d)
    as [Hcap | Hcap]; cbn; [intros [= <- <-]; left; eauto |].
  intros [= <- <-]. right. exists uid, game, d.
  repeat (split; [reflexivity || assumption || lia |]). split; reflexivity.
Qed.

(** What one call does to the two copies of one game. *)
Lemma exec_game_cases (O : ChessJs) (parse : string -> option PresetValues) c s gid :
  fresh_call c s ->
  (rtdb_games (exec parse c s) !! gid = rtdb_games s !! gid /\
   fs_games (exec parse c s) !! gid = fs_games s !! gid) \/
  (rtdb_games s !! gid = None /\ fs_games s !! gid = None /\
   exists g0,
     rtdb_games (exec parse c s) !! gid = Some g0 /\
     fs_games (exec parse c s) !! gid = Some g0 /\
     seats_ok g0 /\ moveHistory g0 = [] /\ fen g0 = INITIAL_FEN /\
     outcome g0 = None /\ winnerId g0 = None /\
     (status g0 = waiting \/ status g0 = active)) \/
  (exists g u,
     rtdb_games s !! gid = Some g /\
     ((u = mkUpdate (u_blackPlayerId u) (Some active) None None /\
       u_blackPlayerId u <> None /\ blackPlayerId g = None /\ status g = waiting) \/
      (exists uid o, u = endGame_update uid o)) /\
     rtdb_games (exec parse c s) !! gid = Some (apply_update u g) /\
     fs_games (exec parse c s) !! gid = apply_update u <$> fs_games s !! gid) \/
  (exists g nf rec,
     rtdb_games s !! gid = Some g /\ status g = active /\
     rtdb_games (exec parse c s) !! gid =
       Some (mkGame (id g) (whitePlayerId g) (blackPlayerId g) nf
                    (moveHistory g ++ [rec])%list (status g) (presetName g)
                    (costModeName g) (createdAt g) (outcome g) (winnerId g)) /\
     fs_games (exec parse c s) !! gid = fs_games s !! gid).
Proof.
  intros Hfresh. destruct c as [auth pn cm gameId now | em auth gameId
    | config auth gameId from to promotion ck | auth gameId o
    | config auth gameId delta | before after | entries gameId now]; cbn [exec].
  - destruct (createGame auth pn cm gameId now s) as [s' r] eqn:Hrun.
    apply createGame_inv in Hrun. cbn [fst].
    destruct Hrun as [[-> _] | (uid & _ & _ & _ & _ & -> & _)]; [left; auto |].
    unfold createGameRecord. unfold_store. cbn.
    destruct (decide (gameId = gid)) as [-> | Hne].
    + right; left. destruct Hfresh as [Hr Hf].
      split; [exact Hr |]. split; [exact Hf |].
      eexists. rewrite !lookup_insert_eq.
      split; [reflexivity |]. split; [reflexivity |].
      cbn. repeat split; auto; discriminate.
    + left. rewrite !lookup_insert_ne by exact Hne. auto.
  - destruct (joinGame em auth gameId s) as [s' r] eqn:Hrun.
    apply joinGame_inv in Hrun. cbn [fst].
    destruct Hrun as [[-> _] | (uid & g & _ & _ & Hg & Hb & Hw & _ & _ & -> & _)];
      [left; auto |].
    unfold setUserActiveGame, updateGameState. unfold_store. cbn.
    destruct (decide (gameId = gid)) as [-> | Hne].
    + right; right; left. exists g, (mkUpdate (Some uid) (Some active) None None).
      split; [exact Hg |]. split; [left; repeat split; auto; discriminate |].
      rewrite !lookup_alter_eq, Hg. auto.
    + left. rewrite !lookup_alter_ne by exact Hne. auto.
  - destruct (makeMove parse config auth gameId from to promotion ck s) as [s' r] eqn:Hrun.
    apply makeMove_inv in Hrun. cbn [fst].
    destruct Hrun as [[-> _] | [[-> _] |
      (uid & g & preset & mr & _ & _ & Hg & Hst & _ & _ & _ & _ & Hc)]];
      [left; auto | left; auto |].
    assert (Hs' : rtdb_games s' =
              alter (fun g0 => mkGame (id g0) (whitePlayerId g0) (blackPlayerId g0)
                                 (newFen mr) (moveHistory g ++ [moveRecord mr])%list
                                 (status g0) (presetName g0) (costModeName g0)
                                 (createdAt g0) (outcome g0) (winnerId g0))
                    gameId (rtdb_games s) /\ fs_games s' = fs_games s).
    { destruct (cost mr); destruct Hc as [-> _]; split; reflexivity. }
    destruct Hs' as [Hr Hf]. rewrite Hr, Hf.
    destruct (decide (gameId = gid)) as [-> | Hne].
    + right; right; right. exists g, (newFen mr), (moveRecord mr).
      split; [exact Hg |]. split; [exact Hst |].
      rewrite lookup_alter_eq, Hg. auto.
    + left. rewrite lookup_alter_ne by exact Hne. auto.
  - destruct (endGame auth gameId o s) as [s' r] eqn:Hrun.
    apply endGame_inv in Hrun. cbn [fst].
    destruct Hrun as [[-> _] | (uid & g & _ & _ & Hg & _ & -> & _)]; [left; auto |].
    unfold clearUserActiveGames, updateGameState. unfold_store. cbn.
    destruct (decide (gameId = gid)) as [-> | Hne].
    + right; right; left. exists g, (endGame_update uid o).
      split; [exact Hg |]. split; [right; eauto |].
      rewrite !lookup_alter_eq, Hg. auto.
    + left. rewrite !lookup_alter_ne by exact Hne. auto.
  - destruct (submitStepDelta config auth gameId delta s) as [s' r] eqn:Hrun.
    apply submitStepDelta_inv in Hrun. cbn [fst].
    destruct Hrun as [[-> _] | (uid & g & d & _ & _ & _ & _ & _ & _ & _ & -> & _)];
      left; auto.
  - left. unfold onGameCompleted, applyGameResult, incrementWin, incrementLoss,
      incrementDraw. unfold_store.
    destruct before as [b |]; [| auto]. destruct after as [a |]; [| auto].
    repeat match goal with
           | |- context [if ?c then _ else _] => destruct c; cbn
           end; auto.
  - unfold matchmakingOnQueueWrite.
    destruct entries as [| p1 [| p2 rest]]; [left; auto | left; auto |].
    cbn. destruct (decide (gameId = gid)) as [-> | Hne].
    + right; left. destruct Hfresh as [Hr Hf].
      split; [exact Hr |]. split; [exact Hf |].
      eexists. rewrite !lookup_insert_eq.
      split; [reflexivity |]. split; [reflexivity |].
      cbn. repeat split; auto; discriminate.
    + left. rewrite !lookup_insert_ne by exact Hne. auto.
Qed.

(** ** Life cycle of a game under every call *)




(** ** Invariants of the reachable stores *)



Lemma seats_step (O : ChessJs) (parse : string -> option PresetValues) c s :
  fresh_call c s ->
  (forall gid g, rtdb_games s !! gid = Some g -> seats_ok g) ->
  forall gid g', rtdb_games (exec parse c s) !! gid = Some g' -> seats_ok g'.
Proof.
  intros Hfresh Hinv gid g' Hg'.
  destruct (exec_game_cases O parse c s gid Hfresh)
    as [[Hr _] | [(_ & _ & g0 & Hr & _ & Hseats & _) |
         [(g & u & Hg & Hu & Hr & _) | (g & nf & rec & Hg & _ & Hr & _)]]].
  - rewrite Hr in Hg'. exact (Hinv gid g' Hg').
  - rewrite Hr in Hg'. injection Hg' as <-. exact Hseats.
  - rewrite Hr in Hg'. injection Hg' as <-.
    destruct Hu as [(Hu & Hsome & _ & _) | (uid & o & ->)].
    + rewrite Hu. unfold seats_ok. cbn.
      split; [discriminate |]. intros _.
      destruct (u_blackPlayerId u); [discriminate | contradiction].
    + unfold seats_ok. cbn. destruct o; split; discriminate.
  - rewrite Hr in Hg'. injection Hg' as <-. exact (Hinv gid g Hg).
Qed.

Lemma balance_of_nonneg s gameId uid :
  balances_nonneg s -> 0 <= balance_of s gameId uid.
Proof.
  intros Hinv. unfold balance_of.
  destruct (rtdb_steps s !! (gameId, uid)) as [b |] eqn:Hb; cbn; [| lia].
  exact (Hinv _ _ Hb).
Qed.

Lemma balances_insert s k v :
  balances_nonneg s -> 0 <= v ->
  forall k0 b, <[k := v]> (rtdb_steps s) !! k0 = Some b -> 0 <= b.
Proof.
  intros Hinv Hv k0 b. destruct (decide (k = k0)) as [-> | Hne].
  - rewrite lookup_insert_eq. intros [= <-]. exact Hv.
  - rewrite lookup_insert_ne by exact Hne. apply Hinv.
Qed.

Lemma balances_step (O : ChessJs) (parse : string -> option PresetValues) c s :
  balances_nonneg s -> balances_nonneg (exec parse c s).
Proof.
  intros Hinv.
  destruct c as [auth pn cm gameId now | em auth gameId
    | config auth gameId from to promotion ck | auth gameId o
    | config auth gameId delta | before after | entries gameId now]; cbn [exec].
  - destruct (createGame auth pn cm gameId now s) as [s' r] eqn:Hrun.
    apply createGame_inv in Hrun.
    destruct Hrun as [[-> _] | (uid & _ & _ & _ & _ & -> & _)]; exact Hinv.
  - destruct (joinGame em auth gameId s) as [s' r] eqn:Hrun.
    apply joinGame_inv in Hrun.
    destruct Hrun as [[-> _] | (uid & g & _ & _ & _ & _ & _ & _ & _ & -> & _)];
      exact Hinv.
  - destruct (makeMove parse config auth gameId from to promotion ck s) as [s' r] eqn:Hrun.
    apply makeMove_inv in Hrun. cbn [fst].
    destruct Hrun as [[-> _] | [[-> _] |
      (uid & g & preset & mr & _ & _ & _ & _ & _ & _ & _ & Hlt & Hc)]];
      [exact Hinv | exact Hinv |].
    destruct (cost mr) as [c |]; destruct Hc as [-> _]; [| exact Hinv].
    unfold lt_num in Hlt. apply Z.ltb_ge in Hlt.
    assert (Hnew : 0 <= balance_of s gameId uid - c) by lia.
    exact (balances_insert s (gameId, uid) _ Hinv Hnew).
  - destruct (endGame auth gameId o s) as [s' r] eqn:Hrun.
    apply endGame_inv in Hrun.
    destruct Hrun as [[-> _] | (uid & g & _ & _ & _ & _ & -> & _)]; exact Hinv.
  - destruct (submitStepDelta config auth gameId delta s) as [s' r] eqn:Hrun.
    apply submitStepDelta_inv in Hrun. cbn [fst].
    destruct Hrun as [[-> _] | (uid & g & d & _ & _ & _ & _ & _ & _ & Hd & -> & _)];
      [exact Hinv |].
    pose proof (balance_of_nonneg s gameId uid Hinv) as Hold.
    assert (Hnew : 0 <= balance_of s gameId uid + d) by lia.
    exact (balances_insert s (gameId, uid) _ Hinv Hnew).
  - unfold onGameCompleted, applyGameResult, incrementWin, incrementLoss,
      incrementDraw. unfold_store.
    destruct before as [b |]; [| exact Hinv]. destruct after as [a |]; [| exact Hinv].
    repeat match goal with
           | |- context [if ?c then _ else _] => destruct c; cbn
           end; exact Hinv.
  - unfold matchmakingOnQueueWrite.
    destruct entries as [| p1 [| p2 rest]]; exact Hinv.
Qed.






(** X3.  In every reachable store a waiting game has no black player and an
    active game has one. *)
Theorem X3_seats_match_status (O : ChessJs)
    (parse : string -> option PresetValues) s gid g :
  reachable parse s ->
  rtdb_games s !! gid = Some g ->
  seats_ok g.
Proof.
  intros Hreach. revert gid g.
  induction Hreach as [| c s Hreach IH Hfresh]; intros gid g Hg.
  - cbn in Hg. rewrite lookup_empty in Hg. discriminate.
  - exact (seats_step O parse c s Hfresh IH gid g Hg).
Qed.

Lemma X3_witness :
  seats_ok (mkGame "g1" "alice" None INITIAL_FEN [] waiting "Normal" "distance" "t0"
                   None None).
Proof.
  apply (X3_seats_match_status MiniChess.chessjs FlatJson.parse
           (exec (O := MiniChess.chessjs) FlatJson.parse
              (CallCreateGame (Some "alice") "Normal" "distance" "g1" "t0") emptyStore)
           "g1").
  - apply reachable_step; [apply reachable_empty | split; reflexivity].
  - vm_compute. reflexivity.
Defined.



(** X5.  Run one after the other, the calls never leave a negative step
    balance: from a store whose balances are all non-negative, every call
    (an earn adds a positive delta, a move writes balance - cost only when
    balance >= cost) gives a store whose balances are all non-negative, and
    so does every sequence of calls. *)
Theorem X5_sequential_balances_nonnegative (O : ChessJs)
    (parse : string -> option PresetValues) calls s :
  balances_nonneg s ->
  balances_nonneg (fold_left (fun acc c => exec parse c acc) calls s).
Proof.
  revert s. induction calls as [| c calls IH]; intros s Hinv; [exact Hinv |].
  cbn. apply IH. apply balances_step. exact Hinv.
Qed.

Lemma X5_witness :
  balances_nonneg
    (fold_left (fun acc c => exec (O := MiniChess.chessjs) FlatJson.parse c acc)
       [CallSubmitStepDelta makeFallbackConfig (Some "alice") "g1" (Some 30);
        CallMakeMove makeFallbackConfig (Some "alice") "g1" "e2" "e4" None false]
       (demoStore (demoGame "distance") 0 0)).
Proof.
  apply (X5_sequential_balances_nonnegative MiniChess.chessjs FlatJson.parse).
  intros k b Hk. unfold demoStore in Hk. cbn in Hk.
  destruct (decide (k = ("g1", "alice"))) as [-> | Hne].
  - rewrite lookup_insert_eq in Hk. injection Hk as <-. lia.
  - rewrite lookup_insert_ne in Hk by congruence.
    destruct (decide (k = ("g1", "bob"))) as [-> | Hne2].
    + rewrite lookup_singleton_eq in Hk. injection Hk as <-. lia.
    + rewrite lookup_singleton_ne in Hk by congruence. discriminate.
Defined.

(** ** Creating, joining and ending *)

Lemma createGame_blocked uid pn cm gid now s g0 :
  userActiveGame s !! uid = Some g0 ->
  exists code msg,
    createGame (Some uid) pn cm gid now s = (s, Err (HttpsError code msg)) /\
    (truthy pn && truthy cm = true -> In pn KNOWN_PRESET_NAMES ->
     code = failed_precondition).
Proof.
  intros Hptr. unfold createGame, assertNoActiveGame. unfold_store.
  remember (includes KNOWN_PRESET_NAMES pn) as known eqn:Hknown.
  symmetry in Hknown. cbn.
  destruct (truthy pn && truthy cm); cbn.
  2:{ eexists _, _. split; [reflexivity | discriminate]. }
  destruct known; cbn.
  - rewrite Hptr. cbn. eexists _, _. split; [reflexivity | reflexivity].
  - eexists _, _. split; [reflexivity |]. intros _ Hin. exfalso.
    assert (includes KNOWN_PRESET_NAMES pn = true) as Habs; [| congruence].
    unfold includes. apply existsb_exists. exists pn. split; [exact Hin |].
    apply String.eqb_refl.
Qed.

(** X6.  The single-active-game guard of [createGame]: a successful
    [createGame] stores a waiting game in the starting position with the
    caller as white, no black player and no moves, identically in the live
    store and in Firestore, and points the caller's active-game pointer at
    it; from then on every further [createGame] by the same caller fails
    without writing (with failed-precondition when its arguments are
    valid), and so does every [joinGame] of another game outside the
    emulator. *)
Theorem X6_createGame_single_active_game uid pn cm gid now s s' r :
  createGame (Some uid) pn cm gid now s = (s', Ok r) ->
  r = gid /\
  userActiveGame s !! uid = None /\
  rtdb_games s' !! gid =
    Some (mkGame gid uid None INITIAL_FEN [] waiting pn cm now None None) /\
  fs_games s' !! gid = rtdb_games s' !! gid /\
  userActiveGame s' !! uid = Some gid /\
  (forall pn2 cm2 gid2 now2,
      exists code msg,
        createGame (Some uid) pn2 cm2 gid2 now2 s' = (s', Err (HttpsError code msg)) /\
        (truthy pn2 && truthy cm2 = true -> In pn2 KNOWN_PRESET_NAMES ->
         code = failed_precondition)) /\
  (forall gid2,
      exists code msg, joinGame false (Some uid) gid2 s' = (s', Err (HttpsError code msg))).
Proof.
  intros Hrun. apply createGame_inv in Hrun.
  destruct Hrun as [[_ (c & m & H)] | (uid0 & Hauth & _ & _ & Hfree & -> & Hr)];
    [discriminate |].
  injection Hauth as <-. injection Hr as ->.
  set (game := mkGame gid uid None INITIAL_FEN [] waiting pn cm now None None).
  set (s1 := fst (createGameRecord gid game uid s)).
  assert (Hr : rtdb_games s1 = <[gid := game]> (rtdb_games s)) by reflexivity.
  assert (Hf : fs_games s1 = <[gid := game]> (fs_games s)) by reflexivity.
  assert (Hp : userActiveGame s1 = <[uid := gid]> (userActiveGame s)) by reflexivity.
  assert (Hptr : userActiveGame s1 !! uid = Some gid)
    by (rewrite Hp; apply lookup_insert_eq).
  split; [reflexivity |]. split; [exact Hfree |].
  split; [rewrite Hr; apply lookup_insert_eq |].
  split; [rewrite Hr, Hf, !lookup_insert_eq; reflexivity |].
  split; [exact Hptr |]. split.
  - intros pn2 cm2 gid2 now2.
    exact (createGame_blocked uid pn2 cm2 gid2 now2 s1 gid Hptr).
  - intros gid2.
    destruct (joinGame false (Some uid) gid2 s1) as [s2 r2] eqn:Hjoin.
    apply joinGame_inv in Hjoin.
    destruct Hjoin as [[-> (c & m & ->)] | (u & g & Hu & _ & _ & _ & _ & _ & Hguard & _)];
      [eauto |].
    injection Hu as <-. exfalso.
    destruct Hguard as [Hnone | [Hem _]]; [| discriminate].
    rewrite Hptr in Hnone. discriminate.
Qed.

Lemma X6_witness :
  userActiveGame (fst (createGame (Some "carol") "Quick" "fixed" "g9" "t1" emptyStore))
    !! "carol" = Some "g9".
Proof.
  destruct (X6_createGame_single_active_game "carol" "Quick" "fixed" "g9" "t1"
              emptyStore _ _ eq_refl) as (_ & _ & _ & _ & Hptr & _).
  exact Hptr.
Defined.

(** X7.  A successful [joinGame] finds a waiting game without black player,
    seats the caller as black and makes the game active in the live store
    and in Firestore, and points the caller's active-game pointer at it;
    outside the emulator the joiner is not the white player.  The game is
    then full: every later [joinGame] of it fails with failed-precondition
    and writes nothing. *)
Theorem X7_joinGame_seats_black isEmulator uid gid s s' :
  joinGame isEmulator (Some uid) gid s = (s', Ok tt) ->
  exists g,
    rtdb_games s !! gid = Some g /\ status g = waiting /\ blackPlayerId g = None /\
    (isEmulator = false -> whitePlayerId g <> uid) /\
    rtdb_games s' !! gid =
      Some (apply_update (mkUpdate (Some uid) (Some active) None None) g) /\
    fs_games s' !! gid =
      apply_update (mkUpdate (Some uid) (Some active) None None) <$> fs_games s !! gid /\
    userActiveGame s' !! uid = Some gid /\
    (forall em2 uid2,
        joinGame em2 (Some uid2) gid s' =
          (s', Err (HttpsError failed_precondition "Game is already full"))).
Proof.
  intros Hrun. apply joinGame_inv in Hrun.
  destruct Hrun as [[_ (c & m & H)] |
    (u & g & Hu & Hid & Hg & Hb & Hw & Hprod & _ & -> & _)]; [discriminate |].
  injection Hu as <-. exists g.
  split; [exact Hg |]. split; [exact Hw |]. split; [exact Hb |].
  split; [exact Hprod |].
  unfold setUserActiveGame, updateGameState. unfold_store. cbn.
  assert (Hg' : alter (apply_update (mkUpdate (Some uid) (Some active) None None)) gid
                  (rtdb_games s) !! gid =
                Some (apply_update (mkUpdate (Some uid) (Some active) None None) g))
    by (rewrite lookup_alter_eq, Hg; reflexivity).
  split; [exact Hg' |].
  split; [apply lookup_alter_eq |].
  split; [apply lookup_insert_eq |].
  intros em2 uid2.
  eapply joinGame_not_waiting; [exact Hid | exact Hg' | discriminate].
Qed.

Lemma X7_witness :
  exists s',
    joinGame false (Some "bob") "g1"
      (fst (createGame (Some "alice") "Normal" "distance" "g1" "t0" emptyStore))
      = (s', Ok tt) /\
    userActiveGame s' !! "bob" = Some "g1".
Proof.
  eexists. split; [vm_compute; reflexivity |].
  destruct (X7_joinGame_seats_black false "bob" "g1"
              (fst (createGame (Some "alice") "Normal" "distance" "g1" "t0" emptyStore))
              _ eq_refl) as (g & _ & _ & _ & _ & _ & _ & Hptr & _).
  exact Hptr.
Defined.

(** X8.  Self-join is gated on the emulator flag alone: on a waiting game
    whose white player is the caller, [joinGame] outside the emulator fails
    with failed-precondition (cannot join your own game) and writes
    nothing, while in the emulator, the game having its Firestore document,
    it succeeds although the caller's active-game pointer is set, and
    leaves a game whose white and black player are the same user. *)
Theorem X8_self_join_only_in_emulator uid gid s g :
  truthy gid = true ->
  rtdb_games s !! gid = Some g ->
  fs_games s !! gid <> None ->
  status g = waiting -> blackPlayerId g = None ->
  whitePlayerId g = uid ->
  joinGame false (Some uid) gid s =
    (s, Err (HttpsError failed_precondition "Cannot join your own game")) /\
  exists s' g',
    joinGame true (Some uid) gid s = (s', Ok tt) /\
    rtdb_games s' !! gid = Some g' /\
    whitePlayerId g' = uid /\ blackPlayerId g' = Some uid /\ status g' = active.
Proof.
  intros Hid Hg Hfs Hw Hb Hself. split.
  - unfold joinGame. unfold_store. cbn. rewrite Hid; cbn. rewrite Hg; cbn.
    rewrite Hb, Hw. cbn.
    rewrite (bool_decide_eq_true_2 _ Hself). reflexivity.
  - unfold joinGame, both, setUserActiveGame, updateGameState, firestore_update_result.
    unfold_store. cbn.
    rewrite Hid; cbn. rewrite Hg; cbn. rewrite Hb, Hw.
    rewrite (bool_decide_eq_true_2 (waiting = waiting)) by reflexivity.
    rewrite (bool_decide_eq_false_2 (None <> None)) by (intros H; apply H; reflexivity).
    cbn. rewrite (bool_decide_eq_true_2 _ Hself). cbn.
    destruct (fs_games s !! gid) as [gf |]; [| contradiction].
    eexists _, _. split; [reflexivity |]. cbn.
    split; [rewrite lookup_alter_eq, Hg; reflexivity |].
    cbn. auto.
Qed.

Lemma X8_witness :
  joinGame false (Some "alice") "g1"
    (fst (createGame (Some "alice") "Normal" "distance" "g1" "t0" emptyStore)) =
  (fst (createGame (Some "alice") "Normal" "distance" "g1" "t0" emptyStore),
   Err (HttpsError failed_precondition "Cannot join your own game")).
Proof.
  refine (proj1 (X8_self_join_only_in_emulator "alice" "g1"
            (fst (createGame (Some "alice") "Normal" "distance" "g1" "t0" emptyStore))
            (mkGame "g1" "alice" None INITIAL_FEN [] waiting "Normal" "distance" "t0"
                    None None) _ _ _ _ _ _));
    first [reflexivity | vm_compute; discriminate].
Defined.

Lemma createGame_ok uid pn cm gid now s :
  truthy pn && truthy cm = true ->
  In pn KNOWN_PRESET_NAMES ->
  userActiveGame s !! uid = None ->
  createGame (Some uid) pn cm gid now s =
    (fst (createGameRecord gid
            (mkGame gid uid None INITIAL_FEN [] waiting pn cm now None None) uid s),
     Ok gid).
Proof.
  intros Hargs Hin Hfree.
  assert (Hknown : includes KNOWN_PRESET_NAMES pn = true).
  { unfold includes. apply existsb_exists. exists pn. split; [exact Hin |].
    apply String.eqb_refl. }
  unfold createGame, assertNoActiveGame. unfold_store.
  rewrite Hknown, Hargs. unfold ret. cbv beta iota. rewrite Hfree. reflexivity.
Qed.

Lemma joinGame_ok uid gid s g :
  truthy gid = true ->
  rtdb_games s !! gid = Some g ->
  fs_games s !! gid <> None ->
  status g = waiting -> blackPlayerId g = None ->
  whitePlayerId g <> uid ->
  userActiveGame s !! uid = None ->
  joinGame false (Some uid) gid s =
    (fst (setUserActiveGame uid gid
            (fst (updateGameState gid (mkUpdate (Some uid) (Some active) None None) s))),
     Ok tt).
Proof.
  intros Hid Hg Hfs Hw Hb Hne Hfree.
  unfold joinGame, both, setUserActiveGame, updateGameState, firestore_update_result,
    assertNoActiveGame.
  unfold_store. cbn.
  rewrite Hid; cbn. rewrite Hg; cbn. rewrite Hb, Hw.
  rewrite (bool_decide_eq_true_2 (waiting = waiting)) by reflexivity.
  rewrite (bool_decide_eq_false_2 (None <> None)) by (intros H; apply H; reflexivity).
  cbn. rewrite (bool_decide_eq_false_2 _ Hne). cbn. rewrite Hfree.
  destruct (fs_games s !! gid) as [gf |]; [reflexivity | contradiction].
Qed.

(** X9.  A whole game: an idle player creates a game, another idle player
    joins it, and either of them ends it with any outcome.  All three calls
    succeed, the game ends in the status of the outcome, both active-game
    pointers are released, and the creator can create a new game at once. *)
Theorem X9_create_join_end_releases_players s a b pn cm gid now o caller :
  a <> b -> truthy b = true -> truthy gid = true ->
  truthy pn && truthy cm = true -> In pn KNOWN_PRESET_NAMES ->
  userActiveGame s !! a = None -> userActiveGame s !! b = None ->
  caller = a \/ caller = b ->
  exists s1 s2 s3 g3,
    createGame (Some a) pn cm gid now s = (s1, Ok gid) /\
    joinGame false (Some b) gid s1 = (s2, Ok tt) /\
    endGame (Some caller) gid o s2 = (s3, Ok tt) /\
    rtdb_games s3 !! gid = Some g3 /\
    status g3 = finalStatus_of o /\
    whitePlayerId g3 = a /\ blackPlayerId g3 = Some b /\
    userActiveGame s3 !! a = None /\ userActiveGame s3 !! b = None /\
    (forall gid2 now2, exists s4, createGame (Some a) pn cm gid2 now2 s3 = (s4, Ok gid2)).
Proof.
  intros Hab Htb Hid Hargs Hin Ha Hb Hcaller.
  set (g1 := mkGame gid a None INITIAL_FEN [] waiting pn cm now None None).
  set (s1 := fst (createGameRecord gid g1 a s)).
  set (g2 := apply_update (mkUpdate (Some b) (Some active) None None) g1).
  set (s2 := fst (setUserActiveGame b gid
                    (fst (updateGameState gid
                            (mkUpdate (Some b) (Some active) None None) s1)))).
  set (g3 := apply_update (endGame_update caller o) g2).
  set (s3 := fst (clearUserActiveGames (uidsToClean g2)
                    (fst (updateGameState gid (endGame_update caller o) s2)))).
  assert (Hg1 : rtdb_games s1 !! gid = Some g1) by apply lookup_insert_eq.
  assert (Hf1 : fs_games s1 !! gid <> None).
  { change (<[gid := g1]> (fs_games s) !! gid <> None).
    rewrite lookup_insert_eq. discriminate. }
  assert (Hf2 : fs_games s2 !! gid <> None).
  { change (alter (apply_update (mkUpdate (Some b) (Some active) None None)) gid
              (<[gid := g1]> (fs_games s)) !! gid <> None).
    rewrite lookup_alter_eq, lookup_insert_eq. discriminate. }
  assert (Hb1 : userActiveGame s1 !! b = None).
  { change (<[a := gid]> (userActiveGame s) !! b = None).
    rewrite lookup_insert_ne by exact Hab. exact Hb. }
  assert (Hg2 : rtdb_games s2 !! gid = Some g2).
  { change (alter (apply_update (mkUpdate (Some b) (Some active) None None)) gid
              (rtdb_games s1) !! gid = Some g2).
    rewrite lookup_alter_eq, Hg1. reflexivity. }
  assert (Hpl : is_player g2 caller = true).
  { unfold is_player. cbn. destruct Hcaller as [-> | ->].
    - rewrite bool_decide_eq_true_2 by reflexivity. reflexivity.
    - rewrite (bool_decide_eq_true_2 (Some b = Some b)) by reflexivity. apply orb_true_r. }
  assert (Hclean : uidsToClean g2 = [a; b]).
  { unfold uidsToClean. cbn. rewrite Htb. reflexivity. }
  assert (Hptr3 : forall u, userActiveGame s3 !! u =
                    if decide (u ∈ [a; b]) then None else userActiveGame s2 !! u).
  { intros u. rewrite <- Hclean.
    change (foldr (fun uid acc => delete uid acc) (userActiveGame s2) (uidsToClean g2)
              !! u = if decide (u ∈ uidsToClean g2) then None else userActiveGame s2 !! u).
    apply lookup_foldr_delete. }
  exists s1, s2, s3, g3.
  split; [exact (createGame_ok a pn cm gid now s Hargs Hin Ha) |].
  split.
  { apply (joinGame_ok b gid s1 g1 Hid Hg1 Hf1); try reflexivity; [| exact Hb1].
    cbn. exact Hab. }
  split.
  { rewrite (endGame_accepted caller gid o s2 g2 Hid Hg2 Hpl).
    unfold firestore_update_result.
    destruct (fs_games s2 !! gid); [reflexivity | contradiction]. }
  split.
  { change (alter (apply_update (endGame_update caller o)) gid (rtdb_games s2) !! gid
            = Some g3).
    rewrite lookup_alter_eq, Hg2. reflexivity. }
  split; [reflexivity |]. split; [reflexivity |]. split; [reflexivity |].
  assert (Ha3 : userActiveGame s3 !! a = None).
  { rewrite Hptr3. destruct (decide (a ∈ [a; b])) as [_ | Hn]; [reflexivity |].
    contradiction Hn. left. }
  split; [exact Ha3 |]. split.
  { rewrite Hptr3. destruct (decide (b ∈ [a; b])) as [_ | Hn]; [reflexivity |].
    contradiction Hn. right. left. }
  intros gid2 now2. eexists.
  exact (createGame_ok a pn cm gid2 now2 s3 Hargs Hin Ha3).
Qed.

Lemma X9_witness :
  exists s1 s2 s3,
    createGame (Some "alice") "Normal" "distance" "g1" "t0" emptyStore = (s1, Ok "g1") /\
    joinGame false (Some "bob") "g1" s1 = (s2, Ok tt) /\
    endGame (Some "bob") "g1" win s2 = (s3, Ok tt) /\
    userActiveGame s3 !! "alice" = None /\ userActiveGame s3 !! "bob" = None.
Proof.
  destruct (X9_create_join_end_releases_players emptyStore "alice" "bob" "Normal"
              "distance" "g1" "t0" win "bob")
    as (s1 & s2 & s3 & g3 & H1 & H2 & H3 & _ & _ & _ & _ & Ha & Hb & _);
    try reflexivity; try discriminate.
  - cbn. tauto.
  - right. reflexivity.
  - exists s1, s2, s3. auto.
Defined.

(** ** Caller errors and the step ledger *)



Lemma submitStepDelta_ok config uid gid s g d :
  truthy gid = true ->
  rtdb_games s !! gid = Some g ->
  status g = active ->
  is_player g uid = true ->
  0 < d <= getNumber config CONFIG_KEYS.MAX_STEP_DELTA_PER_CALL ->
  exists s',
    submitStepDelta config (Some uid) gid (Some d) s =
      (s', Ok (balance_of s gid uid + d)) /\
    balance_of s' gid uid = balance_of s gid uid + d /\
    (forall k, k <> (gid, uid) -> rtdb_steps s' !! k = rtdb_steps s !! k) /\
    rtdb_games s' = rtdb_games s /\ fs_games s' = fs_games s /\
    userActiveGame s' = userActiveGame s /\ leaderboard s' = leaderboard s.
Proof.
  intros Hid Hg Hst Hpl [Hpos Hcap].
  unfold submitStepDelta, atomicIncrementStepBalance. unfold_store. cbn.
  rewrite Hid; cbn.
  destruct (Z.leb_spec d 0) as [Hle | _]; [lia |]. cbn.
  rewrite Hg; cbn. rewrite Hpl; cbn.
  rewrite (bool_decide_eq_true_2 _ Hst). cbn.
  destruct (Z.ltb_spec (getNumber config CONFIG_KEYS.MAX_STEP_DELTA_PER_CALL) d)
    as [Hover | _]; [lia |]. cbn.
  eexists. split; [reflexivity |].
  split; [apply balance_of_set |].
  split; [intros k Hk; cbn; rewrite lookup_insert_ne by congruence; reflexivity |].
  repeat split.
Qed.

(** X11.  The earn bounds of [submitStepDelta]: for a player of an active
    game, a delta is accepted exactly when it is an integer with
    0 < delta <= max_step_delta_per_call of the configuration.  An accepted
    delta raises that player's balance in that game by exactly delta, the
    new balance is returned, and no other balance, no game, no pointer and
    no leaderboard entry changes; a refused one fails with invalid-argument
    and changes nothing. *)
Theorem X11_submitStepDelta_bounds config uid gid s g :
  truthy gid = true ->
  rtdb_games s !! gid = Some g ->
  status g = active ->
  is_player g uid = true ->
  (forall d,
      0 < d <= getNumber config CONFIG_KEYS.MAX_STEP_DELTA_PER_CALL ->
      exists s',
        submitStepDelta config (Some uid) gid (Some d) s =
          (s', Ok (balance_of s gid uid + d)) /\
        balance_of s' gid uid = balance_of s gid uid + d /\
        (forall k, k <> (gid, uid) -> rtdb_steps s' !! k = rtdb_steps s !! k) /\
        rtdb_games s' = rtdb_games s /\ fs_games s' = fs_games s /\
        userActiveGame s' = userActiveGame s /\ leaderboard s' = leaderboard s) /\
  (forall delta,
      (forall d, delta = Some d ->
                 ~ 0 < d <= getNumber config CONFIG_KEYS.MAX_STEP_DELTA_PER_CALL) ->
      exists msg,
        submitStepDelta config (Some uid) gid delta s =
          (s, Err (HttpsError invalid_argument msg))).
Proof.
  intros Hid Hg Hst Hpl. split.
  - intros d Hd. exact (submitStepDelta_ok config uid gid s g d Hid Hg Hst Hpl Hd).
  - intros delta Hbad.
    unfold submitStepDelta, atomicIncrementStepBalance. unfold_store. cbn.
    rewrite Hid; cbn.
    destruct delta as [d |]; cbn; [| eauto].
    destruct (Z.leb_spec d 0) as [Hle | Hpos]; cbn; [eauto |].
    rewrite Hg; cbn. rewrite Hpl; cbn.
    rewrite (bool_decide_eq_true_2 _ Hst). cbn.
    destruct (Z.ltb_spec (getNumber config CONFIG_KEYS.MAX_STEP_DELTA_PER_CALL) d)
      as [Hover | Hin]; cbn; [eauto |].
    exfalso. apply (Hbad d eq_refl). lia.
Qed.

Lemma X11_witness :
  exists s',
    submitStepDelta makeFallbackConfig (Some "alice") "g1" (Some 10000)
      (demoStore (demoGame "distance") 7 0) = (s', Ok 10007) /\
    exists msg,
      submitStepDelta makeFallbackConfig (Some "alice") "g1" (Some 10001)
        (demoStore (demoGame "distance") 7 0) =
        (demoStore (demoGame "distance") 7 0, Err (HttpsError invalid_argument msg)).
Proof.
  destruct (X11_submitStepDelta_bounds makeFallbackConfig "alice" "g1"
              (demoStore (demoGame "distance") 7 0) (demoGame "distance")
              eq_refl eq_refl eq_refl eq_refl) as [Hok Hbad].
  destruct (Hok 10000) as (s' & Hrun & _); [vm_compute; split; congruence |].
  exists s'. split; [exact Hrun |].
  apply (Hbad (Some 10001)). intros d [= <-]. vm_compute. intros [_ H]. apply H. reflexivity.
Defined.



(** X13.  Earning and spending compose: when a move is valid at cost c for
    a player of an active game, an accepted [submitStepDelta] of d followed
    by that [makeMove] succeeds as soon as c <= balance + d, and leaves the
    balance at balance + d - c. *)
Theorem X13_earn_then_spend (O : ChessJs) (parse : string -> option PresetValues)
    config uid gid from to promotion ck s g preset mr c d :
  truthy gid && truthy from && truthy to = true ->
  rtdb_games s !! gid = Some g ->
  status g = active ->
  is_player g uid = true ->
  getPreset parse config (presetName g) = Ok preset ->
  validateAndApplyMove g uid from to promotion ck preset = Ok mr ->
  cost mr = Some c ->
  0 < d <= getNumber config CONFIG_KEYS.MAX_STEP_DELTA_PER_CALL ->
  c <= balance_of s gid uid + d ->
  exists s1 s2 resp,
    submitStepDelta config (Some uid) gid (Some d) s =
      (s1, Ok (balance_of s gid uid + d)) /\
    makeMove parse config (Some uid) gid from to promotion ck s1 = (s2, Ok resp) /\
    r_newBalance resp = Some (balance_of s gid uid + d - c) /\
    balance_of s2 gid uid = balance_of s gid uid + d - c.
Proof.
  intros Hargs Hg Hst Hpl Hp Hv Hc Hd Hle.
  assert (Hid : truthy gid = true).
  { destruct (truthy gid); [reflexivity | discriminate]. }
  destruct (submitStepDelta_ok config uid gid s g d Hid Hg Hst Hpl Hd)
    as (s1 & Hrun1 & Hb1 & _ & Hg1 & _).
  exists s1. eexists _, _. split; [exact Hrun1 |].
  assert (Hlt : lt_num (balance_of s1 gid uid) (Some c) = false).
  { unfold lt_num. apply Z.ltb_ge. rewrite Hb1. exact Hle. }
  assert (Hg1' : rtdb_games s1 !! gid = Some g) by (rewrite Hg1; exact Hg).
  rewrite (makeMove_commit parse config uid gid from to promotion ck s1 g preset mr c
             Hargs Hg1' Hst Hpl Hp Hv Hc Hlt).
  assert (Hbal : balance_of (committed gid uid g mr c s1) gid uid =
                 balance_of s1 gid uid - c) by apply balance_of_set.
  split; [reflexivity |]. cbn [r_newBalance]. rewrite Hbal, Hb1.
  split; reflexivity.
Qed.

Lemma X13_witness :
  exists s1 s2 resp,
    submitStepDelta makeFallbackConfig (Some "alice") "g1" (Some 15)
      (demoStore (demoGame "distance") 10 0) = (s1, Ok 25) /\
    makeMove (chessjs := MiniChess.chessjs) FlatJson.parse makeFallbackConfig
             (Some "alice") "g1" "e2" "e4" None false s1 = (s2, Ok resp) /\
    r_newBalance resp = Some 5.
Proof.
  destruct (X13_earn_then_spend MiniChess.chessjs FlatJson.parse makeFallbackConfig
              "alice" "g1" "e2" "e4" None false
              (demoStore (demoGame "distance") 10 0) (demoGame "distance")
              NormalPreset
              (mkMoveResult "rnbqkbnr/pppppppp/8/8/4P3/8/PPPP1PPP/RNBQKBNR b KQkq - 0 1"
                            (Some 20) "e2e4") 20 15)
    as (s1 & s2 & resp & H1 & H2 & H3 & _);
    try (vm_compute; reflexivity).
  - vm_compute. split; congruence.
  - vm_compute. congruence.
  - exists s1, s2, resp. auto.
Defined.

(** ** The cost model beyond the two metrics *)

Lemma charCodeAt_defined s i :
  charCodeAt s i <> None <-> (i < String.length s)%nat.
Proof.
  unfold charCodeAt. revert i. induction s as [| c s IH]; intros i; cbn.
  - split; [intros H; contradiction H; reflexivity | lia].
  - destruct i as [| i]; cbn.
    + split; [lia | discriminate].
    + rewrite IH. lia.
Qed.

Lemma moveDistance_sym piece from to :
  moveDistance piece from to = moveDistance piece to from.
Proof.
  unfold moveDistance, num_add, num_max, num_abs, num_sub.
  destruct (charCodeAt to 0), (charCodeAt from 0), (charCodeAt to 1), (charCodeAt from 1),
    (decide (piece = n_)); try reflexivity; f_equal; lia.
Qed.

Lemma moveDistance_defined piece from to :
  moveDistance piece from to <> None <->
  (2 <= String.length from)%nat /\ (2 <= String.length to)%nat.
Proof.
  pose proof (charCodeAt_defined from 0) as Hf0.
  pose proof (charCodeAt_defined from 1) as Hf1.
  pose proof (charCodeAt_defined to 0) as Ht0.
  pose proof (charCodeAt_defined to 1) as Ht1.
  unfold moveDistance, num_add, num_max, num_abs, num_sub.
  destruct (charCodeAt to 0), (charCodeAt from 0), (charCodeAt to 1), (charCodeAt from 1),
    (decide (piece = n_)); split; intros H;
    try discriminate; try (contradiction H; reflexivity);
    try (split; first [apply Hf1; discriminate | apply Ht1; discriminate]);
    try (destruct H as [Ha Hb]; exfalso;
         first [ apply (proj2 Hf0); [lia | reflexivity]
               | apply (proj2 Hf1); [lia | reflexivity]
               | apply (proj2 Ht0); [lia | reflexivity]
               | apply (proj2 Ht1); [lia | reflexivity] ]).
Qed.

Lemma moveDistance_nonneg piece from to d :
  moveDistance piece from to = Some d -> 0 <= d.
Proof.
  unfold moveDistance, num_add, num_max, num_abs, num_sub.
  destruct (charCodeAt to 0), (charCodeAt from 0), (charCodeAt to 1), (charCodeAt from 1),
    (decide (piece = n_)); intros [= <-] || discriminate; lia.
Qed.

(** X14.  The price of a move does not depend on its direction: in every
    cost mode, for every piece, moving from a to b costs what moving from b
    to a costs. *)
Theorem X14_cost_symmetric preset mode piece from to ck :
  calculateCost preset mode piece from to ck =
  calculateCost preset mode piece to from ck.
Proof.
  unfold calculateCost. rewrite (moveDistance_sym piece from to). reflexivity.
Qed.

(** X15.  In the modes distance and baseDistance, with a non-negative
    distance multiplier, the cost of a piece's move never decreases when
    the distance grows: a move whose distance is at most that of another
    costs at most as much. *)
Theorem X15_cost_monotone_in_distance preset mode piece f1 t1 f2 t2 d1 d2 ck1 ck2 :
  mode = "distance" \/ mode = "baseDistance" ->
  0 <= distanceCost preset ->
  moveDistance piece f1 t1 = Some d1 ->
  moveDistance piece f2 t2 = Some d2 ->
  d1 <= d2 ->
  exists c1 c2,
    calculateCost preset mode piece f1 t1 ck1 = Some c1 /\
    calculateCost preset mode piece f2 t2 ck2 = Some c2 /\
    c1 <= c2.
Proof.
  intros Hmode Hk H1 H2 Hle. unfold calculateCost. rewrite H1, H2.
  destruct Hmode as [-> | ->]; cbn; eexists _, _;
    (split; [reflexivity |]; split; [reflexivity |]); nia.
Qed.

Lemma X15_witness :
  exists c1 c2,
    calculateCost NormalPreset "baseDistance" r_ "a1" "a4" false = Some c1 /\
    calculateCost NormalPreset "baseDistance" r_ "a1" "h1" false = Some c2 /\
    c1 <= c2.
Proof.
  apply (X15_cost_monotone_in_distance NormalPreset "baseDistance" r_
           "a1" "a4" "a1" "h1" 3 7 false false);
    try reflexivity; try (vm_compute; congruence).
  right. reflexivity.
Defined.

(** X16.  When the cost is a number.  [calculateCost] yields a number
    exactly when the cost mode is fixed, or is distance or baseDistance and
    both square names have at least two characters; for any other mode
    string, or a shorter square name in a distance mode, it yields none.
    When the preset's seven numbers are non-negative, the number is
    non-negative. *)
Theorem X16_cost_defined_and_nonnegative preset mode piece from to ck :
  (calculateCost preset mode piece from to ck <> None <->
     mode = "fixed" \/
     ((mode = "distance" \/ mode = "baseDistance") /\
      (2 <= String.length from)%nat /\ (2 <= String.length to)%nat)) /\
  (forall c,
      0 <= pawn preset -> 0 <= knight preset -> 0 <= bishop preset ->
      0 <= rook preset -> 0 <= queen preset -> 0 <= king preset ->
      0 <= distanceCost preset ->
      calculateCost preset mode piece from to ck = Some c ->
      0 <= c).
Proof.
  split.
  - pose proof (moveDistance_defined piece from to) as Hdef.
    unfold calculateCost.
    destruct (String.eqb_spec mode "baseDistance") as [-> | Hbd].
    { destruct (moveDistance piece from to) as [d |]; cbn; split.
      - intros _. right. split; [right; reflexivity |]. apply Hdef. discriminate.
      - discriminate.
      - intros H. contradiction H. reflexivity.
      - intros [H | [_ H]]; [discriminate |]. apply Hdef in H. contradiction H. reflexivity. }
    destruct (String.eqb_spec mode "distance") as [-> | Hd].
    { destruct (moveDistance piece from to) as [d |]; cbn; split.
      - intros _. right. split; [left; reflexivity |]. apply Hdef. discriminate.
      - discriminate.
      - intros H. contradiction H. reflexivity.
      - intros [H | [_ H]]; [discriminate |]. apply Hdef in H. contradiction H. reflexivity. }
    destruct (String.eqb_spec mode "fixed") as [-> | Hf].
    { split; [intros _; left; reflexivity | discriminate]. }
    split; [intros H; contradiction H; reflexivity |].
    intros [H | [[H | H] _]]; contradiction.
  - intros c Hp Hn Hb Hr Hq Hk Hdc.
    assert (Hbase : 0 <= baseCostFor preset piece) by (destruct piece; assumption).
    unfold calculateCost.
    destruct (String.eqb mode "baseDistance").
    { destruct (moveDistance piece from to) as [d |] eqn:Hd; cbn; [| discriminate].
      apply moveDistance_nonneg in Hd. intros [= <-]. nia. }
    destruct (String.eqb mode "distance").
    { destruct (moveDistance piece from to) as [d |] eqn:Hd; cbn; [| discriminate].
      apply moveDistance_nonneg in Hd. intros [= <-]. nia. }
    destruct (String.eqb mode "fixed"); [| discriminate].
    intros [= <-]. destruct ck; lia.
Qed.

Lemma X16_witness :
  0 <= 160 /\ calculateCost NormalPreset "fixed" n_ "g1" "f3" true = Some 160.
Proof.
  split; [| reflexivity].
  apply (proj2 (X16_cost_defined_and_nonnegative NormalPreset "fixed" n_ "g1" "f3" true) 160);
    try (vm_compute; congruence); reflexivity.
Defined.

(** ** Presets by name *)




(** ** The side to move handed to the oracle *)

Lemma split_nonempty sep s : split sep s <> [].
Proof.
  destruct s as [| c s]; cbn; [discriminate |].
  destruct (Ascii.eqb c sep); [discriminate |].
  destruct (split sep s); discriminate.
Qed.

Lemma join_split sep s : join (String sep EmptyString) (split sep s) = s.
Proof.
  induction s as [| c s IH]; [reflexivity |]. cbn [split].
  destruct (Ascii.eqb_spec c sep) as [-> | Hne].
  - pose proof (split_nonempty sep s) as Hnil.
    destruct (split sep s) as [| h t]; [contradiction |].
    change (String sep (join (String sep EmptyString) (h :: t)) = String sep s).
    rewrite IH. reflexivity.
  - pose proof (split_nonempty sep s) as Hnil.
    destruct (split sep s) as [| h t]; [contradiction |].
    destruct t as [| h2 t].
    + cbn in IH. subst s. reflexivity.
    + change (String c (join (String sep EmptyString) (h :: h2 :: t)) = String c s).
      rewrite IH. reflexivity.
Qed.

Lemma split_no_sep sep s p i :
  In p (split sep s) -> String.get i p <> Some sep.
Proof.
  revert p i. induction s as [| c s IH]; intros p i; cbn [split].
  - intros [<- | []]. destruct i; discriminate.
  - destruct (Ascii.eqb_spec c sep) as [-> | Hne].
    + intros [<- | Hin]; [destruct i; discriminate | exact (IH p i Hin)].
    + pose proof (split_nonempty sep s) as Hnil.
      destruct (split sep s) as [| h t]; [contradiction |].
      intros [<- | Hin].
      * destruct i as [| i]; cbn; [congruence |]. apply IH. left. reflexivity.
      * apply IH. right. exact Hin.
Qed.

Lemma split_append_no_sep sep p rest :
  (forall i, String.get i p <> Some sep) ->
  split sep (p ++ String sep rest) = p :: split sep rest.
Proof.
  induction p as [| c p IH]; intros Hp.
  - change (split sep (String sep rest) = EmptyString :: split sep rest).
    cbn [split]. rewrite Ascii.eqb_refl. reflexivity.
  - change (split sep (String c (p ++ String sep rest)) = String c p :: split sep rest).
    cbn [split].
    destruct (Ascii.eqb_spec c sep) as [-> | Hne].
    + exfalso. apply (Hp 0%nat). reflexivity.
    + rewrite IH; [reflexivity |]. intros i. exact (Hp (S i)).
Qed.

Lemma split_no_sep_id sep p :
  (forall i, String.get i p <> Some sep) -> split sep p = [p].
Proof.
  induction p as [| c p IH]; intros Hp; [reflexivity |]. cbn [split].
  destruct (Ascii.eqb_spec c sep) as [-> | Hne].
  - exfalso. apply (Hp 0%nat). reflexivity.
  - rewrite IH; [reflexivity |]. intros i. exact (Hp (S i)).
Qed.

Lemma split_join sep parts :
  parts <> [] ->
  (forall p i, In p parts -> String.get i p <> Some sep) ->
  split sep (join (String sep EmptyString) parts) = parts.
Proof.
  induction parts as [| p parts IH]; intros Hnil Hparts; [contradiction |].
  destruct parts as [| q parts].
  - cbn [join]. apply split_no_sep_id. intros i. apply Hparts. left. reflexivity.
  - change (split sep (p ++ String sep (join (String sep EmptyString) (q :: parts)))
            = p :: q :: parts).
    rewrite split_append_no_sep by (intros i; apply Hparts; left; reflexivity).
    rewrite IH; [reflexivity | discriminate |].
    intros p0 i Hin. apply Hparts. right. exact Hin.
Qed.

Lemma set_index1_spec v parts :
  nth_error (set_index1 v parts) 1 = Some v /\
  (parts <> [] -> forall i, i <> 1%nat ->
     nth_error (set_index1 v parts) i = nth_error parts i) /\
  set_index1 v parts <> [] /\
  (forall p, In p (set_index1 v parts) -> p = v \/ p = EmptyString \/ In p parts).
Proof.
  destruct parts as [| a [| b rest]]; cbn.
  - repeat split; [contradiction | discriminate |].
    intros p [<- | [<- | []]]; auto.
  - repeat split; [| discriminate |].
    + intros _ [| [| i]] Hi; [reflexivity | contradiction | destruct i; reflexivity].
    + intros p [<- | [<- | []]]; auto.
  - repeat split; [| discriminate |].
    + intros _ [| [| i]] Hi; [reflexivity | contradiction | reflexivity].
    + intros p [<- | [<- | Hin]]; auto.
Qed.

(** X18.  The free-play alignment.  The board encoding handed to the oracle
    on the ordinary path has the caller's colour (w for the white player, b
    for anyone else) as its second blank-separated field and every other
    field as stored; it is the stored encoding itself when that already
    names the caller's colour, and aligning an aligned encoding changes
    nothing. *)
Theorem X18_alignedFen_sets_side_to_move g uid :
  let color := if bool_decide (uid = whitePlayerId g) then "w" else "b" in
  nth_error (split " " (alignedFen g uid)) 1 = Some color /\
  (forall i, i <> 1%nat ->
     nth_error (split " " (alignedFen g uid)) i = nth_error (split " " (fen g)) i) /\
  (nth_error (split " " (fen g)) 1 = Some color -> alignedFen g uid = fen g) /\
  alignedFen (mkGame (id g) (whitePlayerId g) (blackPlayerId g) (alignedFen g uid)
                     (moveHistory g) (status g) (presetName g) (costModeName g)
                     (createdAt g) (outcome g) (winnerId g)) uid = alignedFen g uid.
Proof.
  intros color.
  assert (Hcolor : forall i, String.get i color <> Some " "%char).
  { intros i. subst color. destruct (bool_decide (uid = whitePlayerId g));
      destruct i as [| [| i]]; discriminate. }
  pose proof (split_nonempty " " (fen g)) as Hnil.
  assert (Hsplit : split " " (alignedFen g uid) =
                   if bool_decide (nth_error (split " " (fen g)) 1 = Some color)
                   then split " " (fen g) else set_index1 color (split " " (fen g))).
  { unfold alignedFen. fold color.
    destruct (bool_decide (nth_error (split " " (fen g)) 1 = Some color)).
    - rewrite join_split. reflexivity.
    - destruct (set_index1_spec color (split " " (fen g))) as (_ & _ & Hne & Hin).
      apply split_join; [exact Hne |].
      intros p i Hp. destruct (Hin p Hp) as [-> | [-> | Hp']].
      + apply Hcolor.
      + destruct i; discriminate.
      + exact (split_no_sep " " (fen g) p i Hp'). }
  assert (H1 : nth_error (split " " (alignedFen g uid)) 1 = Some color).
  { rewrite Hsplit.
    destruct (bool_decide (nth_error (split " " (fen g)) 1 = Some color)) eqn:Hb.
    - apply bool_decide_eq_true in Hb. exact Hb.
    - apply set_index1_spec. }
  split; [exact H1 |]. split; [| split].
  - intros i Hi. rewrite Hsplit.
    destruct (bool_decide (nth_error (split " " (fen g)) 1 = Some color));
      [reflexivity |].
    apply set_index1_spec; assumption.
  - intros Haligned. unfold alignedFen. fold color.
    rewrite (bool_decide_eq_true_2 _ Haligned). apply join_split.
  - unfold alignedFen at 1. cbn [fen whitePlayerId]. fold color.
    rewrite (bool_decide_eq_true_2 _ H1). apply join_split.
Qed.

Lemma X18_witness :
  alignedFen (demoGame "distance") "alice" = INITIAL_FEN.
Proof.
  destruct (X18_alignedFen_sets_side_to_move (demoGame "distance") "alice")
    as (_ & _ & Hsame & _).
  apply Hsame. vm_compute. reflexivity.
Defined.

(** ** Promotion letters and the price of a promotion *)

Lemma lower_ascii_idem c : lower_ascii (lower_ascii c) = lower_ascii c.
Proof. destruct c as [[] [] [] [] [] [] [] []]; reflexivity. Qed.

Lemma toLowerCase_idem s : toLowerCase (toLowerCase s) = toLowerCase s.
Proof.
  induction s as [| c s IH]; [reflexivity |]. cbn.
  rewrite lower_ascii_idem, IH. reflexivity.
Qed.

(** X19.  On the ordinary path the promotion letter is case-insensitive
    and the price is that of the piece that stood on the origin: a call
    with promotion letter pr is accepted or rejected exactly as the call
    with the lower-cased letter, with the same board and cost (only the
    move record keeps the letter as supplied); and an accepted move costs
    what [calculateCost] gives for the type of the piece found on the
    origin before the move, so a promoting pawn pays the pawn price. *)
Theorem X19_promotion_letter_and_price (O : ChessJs) game uid from to preset :
  (forall pr,
      match validateAndApplyMove game uid from to (Some pr) false preset,
            validateAndApplyMove game uid from to (Some (toLowerCase pr)) false preset with
      | Ok r1, Ok r2 =>
          newFen r1 = newFen r2 /\ cost r1 = cost r2 /\
          moveRecord r1 = from ++ to ++ pr /\
          moveRecord r2 = from ++ to ++ toLowerCase pr
      | Err e1, Err e2 => e1 = e2
      | _, _ => False
      end) /\
  (forall chess pc promotion r,
      chess_new (alignedFen game uid) = Some chess ->
      chess_get chess from = Some pc ->
      validateAndApplyMove game uid from to promotion false preset = Ok r ->
      cost r = calculateCost preset (costModeName game) (ptype pc) from to false /\
      (costModeName game = "fixed" -> cost r = Some (baseCostFor preset (ptype pc)))).
Proof.
  split.
  - intros pr. unfold validateAndApplyMove.
    assert (Hsame : applyNormalMove game uid from to (Some pr) =
                    applyNormalMove game uid from to (Some (toLowerCase pr))).
    { unfold applyNormalMove. rewrite toLowerCase_idem. reflexivity. }
    rewrite <- Hsame.
    destruct (applyNormalMove game uid from to (Some pr)) as [[piece nf] | e];
      [| reflexivity].
    cbn. auto.
  - intros chess pc promotion r Hnew Hget. unfold validateAndApplyMove, applyNormalMove.
    rewrite Hnew, Hget.
    match goal with
    | |- context [chess_move chess from to ?p] => destruct (chess_move chess from to p)
    end; [| discriminate].
    intros [= <-]. cbn. split; [reflexivity |].
    intros ->. reflexivity.
Qed.

Lemma X19_witness :
  exists r,
    validateAndApplyMove (chessjs := MiniChess.chessjs) promotionGame "alice" "e7" "e8"
                         (Some "Q") false NormalPreset = Ok r /\
    cost r = Some 50 /\ moveRecord r = "e7e8Q".
Proof.
  destruct (MiniChess.load (alignedFen promotionGame "alice")) as [chess |] eqn:Hload;
    [| vm_compute in Hload; discriminate Hload].
  destruct (validateAndApplyMove (chessjs := MiniChess.chessjs) promotionGame "alice"
              "e7" "e8" (Some "Q") false NormalPreset) as [r | e] eqn:Hrun;
    [| vm_compute in Hrun; discriminate Hrun].
  destruct (proj2 (X19_promotion_letter_and_price MiniChess.chessjs promotionGame "alice"
                     "e7" "e8" NormalPreset)
              chess (mkPiece p_ w_) (Some "Q") r Hload) as [_ Hfixed].
  - vm_compute in Hload. injection Hload as <-. vm_compute. reflexivity.
  - exact Hrun.
  - exists r. split; [reflexivity |]. split; [exact (Hfixed eq_refl) |].
    vm_compute in Hrun. injection Hrun as <-. reflexivity.
Defined.

(** ** The leaderboard trigger as a whole *)

Lemma stats_after_win lb w u :
  stats_of (<[w := mkStats (wins (stats_of lb w) + 1) (losses (stats_of lb w))
                           (draws (stats_of lb w))]> lb) u =
    if decide (w = u)
    then mkStats (wins (stats_of lb u) + 1) (losses (stats_of lb u)) (draws (stats_of lb u))
    else stats_of lb u.
Proof.
  destruct (decide (w = u)) as [-> | Hne];
    [apply stats_of_insert_eq | apply stats_of_insert_ne; exact Hne].
Qed.

Lemma stats_after_loss lb l u :
  stats_of (<[l := mkStats (wins (stats_of lb l)) (losses (stats_of lb l) + 1)
                           (draws (stats_of lb l))]> lb) u =
    if decide (l = u)
    then mkStats (wins (stats_of lb u)) (losses (stats_of lb u) + 1) (draws (stats_of lb u))
    else stats_of lb u.
Proof.
  destruct (decide (l = u)) as [-> | Hne];
    [apply stats_of_insert_eq | apply stats_of_insert_ne; exact Hne].
Qed.

Lemma stats_after_draw lb d u :
  stats_of (<[d := mkStats (wins (stats_of lb d)) (losses (stats_of lb d))
                           (draws (stats_of lb d) + 1)]> lb) u =
    if decide (d = u)
    then mkStats (wins (stats_of lb u)) (losses (stats_of lb u)) (draws (stats_of lb u) + 1)
    else stats_of lb u.
Proof.
  destruct (decide (d = u)) as [-> | Hne];
    [apply stats_of_insert_eq | apply stats_of_insert_ne; exact Hne].
Qed.

(** The three things the trigger can do. *)
Lemma onGameCompleted_cases before after s :
  onGameCompleted before after s = (s, Ok tt) \/
  (exists a w l,
      after = Some a /\ outcome a = Some win /\ winnerId a = Some w /\
      truthy_opt (blackPlayerId a) = true /\ truthy w = true /\
      l = (if bool_decide (w = whitePlayerId a)
           then default "" (blackPlayerId a) else whitePlayerId a) /\
      onGameCompleted before after s =
        ((incrementWin w ;;; incrementLoss l)%store s)) \/
  (exists a,
      after = Some a /\ outcome a = Some draw /\
      truthy_opt (blackPlayerId a) = true /\
      onGameCompleted before after s =
        ((incrementDraw (whitePlayerId a) ;;;
          incrementDraw (default "" (blackPlayerId a)))%store s)).
Proof.
  unfold onGameCompleted.
  destruct before as [b |]; [| left; reflexivity].
  destruct after as [a |]; [| left; reflexivity].
  destruct (bool_decide (status b = status a) || negb (bool_decide (status a = completed)));
    [left; reflexivity |].
  unfold applyGameResult.
  destruct (truthy_opt (blackPlayerId a)) eqn:Hblack; cbn; [| left; reflexivity].
  destruct (outcome a) as [[| |] |] eqn:Ho; cbn; try (left; reflexivity).
  - destruct (winnerId a) as [w |] eqn:Hw; cbn; [| left; reflexivity].
    destruct (truthy w) eqn:Htw; [| left; reflexivity].
    right; left. eexists a, w, _. repeat (split; [reflexivity || assumption |]).
    split; reflexivity.
  - right; right. exists a. repeat (split; [reflexivity || assumption |]). reflexivity.
Qed.

(** X20.  The leaderboard trigger never fails and writes nothing but the
    leaderboard: games, balances and active-game pointers are as before.
    No counter ever decreases; one event raises a player's wins by at most
    1, losses by at most 1, draws by at most 2, and the three together by at
    most 2.  An update into completed scores nothing when the game has no
    second player, has no outcome, has outcome abandoned, or has outcome win
    but no winner recorded. *)
Theorem X20_trigger_only_raises_counters before after s :
  exists s',
    onGameCompleted before after s = (s', Ok tt) /\
    rtdb_games s' = rtdb_games s /\ fs_games s' = fs_games s /\
    rtdb_steps s' = rtdb_steps s /\ userActiveGame s' = userActiveGame s /\
    (forall u,
        wins (stats_of (leaderboard s) u) <= wins (stats_of (leaderboard s') u)
          <= wins (stats_of (leaderboard s) u) + 1 /\
        losses (stats_of (leaderboard s) u) <= losses (stats_of (leaderboard s') u)
          <= losses (stats_of (leaderboard s) u) + 1 /\
        draws (stats_of (leaderboard s) u) <= draws (stats_of (leaderboard s') u)
          <= draws (stats_of (leaderboard s) u) + 2 /\
        wins (stats_of (leaderboard s') u) + losses (stats_of (leaderboard s') u)
          + draws (stats_of (leaderboard s') u)
          <= wins (stats_of (leaderboard s) u) + losses (stats_of (leaderboard s) u)
             + draws (stats_of (leaderboard s) u) + 2) /\
    (forall a,
        after = Some a ->
        truthy_opt (blackPlayerId a) = false \/ outcome a = None \/
        outcome a = Some outcome_abandoned \/
        (outcome a = Some win /\ truthy_opt (winnerId a) = false) ->
        s' = s).
Proof.
  destruct (onGameCompleted_cases before after s)
    as [Hrun | [(a & w & l & Ha & Ho & Hw & Hb & Htw & _ & Hrun) | (a & Ha & Ho & Hb & Hrun)]];
    rewrite Hrun.
  - exists s. repeat (split; [reflexivity |]).
    split; [intros u; lia | reflexivity].
  - unfold incrementWin, incrementLoss. unfold_store. cbn.
    eexists. repeat (split; [reflexivity |]). cbn.
    split.
    + intros u. rewrite stats_after_loss, stats_after_win.
      destruct (decide (l = u)), (decide (w = u)); cbn; lia.
    + intros a0 Ha0 Hnone. rewrite Ha in Ha0. injection Ha0 as <-.
      destruct Hnone as [H | [H | [H | [_ H]]]]; try congruence.
      rewrite Hw in H. cbn in H. congruence.
  - unfold incrementDraw. unfold_store. cbn.
    eexists. repeat (split; [reflexivity |]). cbn.
    split.
    + intros u. rewrite !stats_after_draw.
      destruct (decide (default "" (blackPlayerId a) = u)),
               (decide (whitePlayerId a = u)); cbn; lia.
    + intros a0 Ha0 Hnone. rewrite Ha in Ha0. injection Ha0 as <-.
      destruct Hnone as [H | [H | [H | [H _]]]]; congruence.
Qed.

Lemma X20_witness :
  fst (onGameCompleted (Some (demoGame "distance"))
         (Some (apply_update (endGame_update "alice" outcome_abandoned) (demoGame "distance")))
         (demoStore (demoGame "distance") 0 0)) =
  demoStore (demoGame "distance") 0 0.
Proof.
  destruct (X20_trigger_only_raises_counters (Some (demoGame "distance"))
              (Some (apply_update (endGame_update "alice" outcome_abandoned)
                       (demoGame "distance")))
              (demoStore (demoGame "distance") 0 0))
    as (s' & Hrun & _ & _ & _ & _ & _ & Hnone).
  rewrite Hrun. cbn [fst]. apply (Hnone _ eq_refl).
  right; right; left. reflexivity.
Defined.

(** X21.  From [endGame] to the leaderboard.  When a player ends a game of
    two distinct players whose status is not yet completed (an active game,
    but also one that was abandoned before), the Firestore update that
    [endGame] makes is the event the trigger scores: with outcome win the
    caller's wins and the opponent's losses go up by exactly 1, with outcome
    draw both players' draws go up by exactly 1, nobody else's counters
    move, and with outcome abandoned nothing is scored. *)
Theorem X21_endGame_scores_through_trigger s gid g gf caller blk o :
  truthy gid = true ->
  rtdb_games s !! gid = Some g ->
  fs_games s !! gid = Some gf ->
  same_record g gf ->
  status g <> completed ->
  blackPlayerId g = Some blk ->
  truthy blk = true -> truthy caller = true ->
  whitePlayerId g <> blk ->
  is_player g caller = true ->
  let opponent := if bool_decide (caller = whitePlayerId g) then blk else whitePlayerId g in
  exists s1 s2,
    endGame (Some caller) gid o s = (s1, Ok tt) /\
    fire_onGameCompleted gid s s1 s1 = (s2, Ok tt) /\
    caller <> opponent /\
    (forall u, u <> caller -> u <> opponent ->
               stats_of (leaderboard s2) u = stats_of (leaderboard s) u) /\
    match o with
    | win =>
        stats_of (leaderboard s2) caller =
          mkStats (wins (stats_of (leaderboard s) caller) + 1)
                  (losses (stats_of (leaderboard s) caller))
                  (draws (stats_of (leaderboard s) caller)) /\
        stats_of (leaderboard s2) opponent =
          mkStats (wins (stats_of (leaderboard s) opponent))
                  (losses (stats_of (leaderboard s) opponent) + 1)
                  (draws (stats_of (leaderboard s) opponent))
    | draw =>
        stats_of (leaderboard s2) caller =
          mkStats (wins (stats_of (leaderboard s) caller))
                  (losses (stats_of (leaderboard s) caller))
                  (draws (stats_of (leaderboard s) caller) + 1) /\
        stats_of (leaderboard s2) opponent =
          mkStats (wins (stats_of (leaderboard s) opponent))
                  (losses (stats_of (leaderboard s) opponent))
                  (draws (stats_of (leaderboard s) opponent) + 1)
    | outcome_abandoned => s2 = s1
    end.
Proof.
  intros Hid Hg Hf Hsame Hst Hblk Htb Htc Hdistinct Hpl opponent.
  destruct Hsame as (_ & Hwf & Hbf & Hsf & _).
  set (s1 := fst (clearUserActiveGames (uidsToClean g)
                    (fst (updateGameState gid (endGame_update caller o) s)))).
  assert (Hlb : leaderboard s1 = leaderboard s) by reflexivity.
  assert (Hf1 : fs_games s1 !! gid = Some (apply_update (endGame_update caller o) gf)).
  { change (alter (apply_update (endGame_update caller o)) gid (fs_games s) !! gid =
            Some (apply_update (endGame_update caller o) gf)).
    rewrite lookup_alter_eq, Hf. reflexivity. }
  assert (Hcases : caller = whitePlayerId g /\ opponent = blk \/
                   caller = blk /\ opponent = whitePlayerId g).
  { subst opponent. unfold is_player in Hpl.
    destruct (decide (caller = whitePlayerId g)) as [Hw | Hnw].
    - left. rewrite (bool_decide_eq_true_2 _ Hw). auto.
    - right. rewrite (bool_decide_eq_false_2 _ Hnw) in *. cbn in Hpl.
      apply bool_decide_eq_true in Hpl. rewrite Hblk in Hpl. injection Hpl as ->. auto. }
  assert (Hne : caller <> opponent).
  { destruct Hcases as [[-> ->] | [-> ->]]; congruence. }
  assert (Hacc : forall o0,
             endGame (Some caller) gid o0 s =
               (fst (clearUserActiveGames (uidsToClean g)
                       (fst (updateGameState gid (endGame_update caller o0) s))), Ok tt)).
  { intros o0. rewrite (endGame_accepted caller gid o0 s g Hid Hg Hpl).
    unfold firestore_update_result. rewrite Hf. reflexivity. }
  exists s1. unfold fire_onGameCompleted. rewrite Hf, Hf1.
  destruct o.
  - (* win *)
    rewrite onGameCompleted_fresh; [| rewrite <- Hsf; exact Hst | reflexivity].
    unfold applyGameResult. cbn [blackPlayerId outcome winnerId whitePlayerId apply_update
      endGame_update u_blackPlayerId u_outcome u_winnerId u_status].
    rewrite <- Hbf, Hblk. cbn [truthy_opt default]. rewrite Htb, Htc. cbn.
    rewrite <- Hwf. fold opponent.
    unfold incrementWin, incrementLoss. unfold_store. cbn.
    eexists. split; [exact (Hacc _) |].
    split; [reflexivity |].
    split; [exact Hne |]. cbn. rewrite ?Hlb. split; [| split].
    + intros u Hu1 Hu2. rewrite stats_after_loss, stats_after_win.
      destruct (decide (opponent = u)), (decide (caller = u)); congruence.
    + rewrite stats_after_loss, stats_after_win.
      destruct (decide (opponent = caller)), (decide (caller = caller)); congruence.
    + rewrite stats_after_loss, !stats_after_win.
      destruct (decide (opponent = opponent)), (decide (caller = opponent)); congruence.
  - (* draw *)
    rewrite onGameCompleted_fresh; [| rewrite <- Hsf; exact Hst | reflexivity].
    unfold applyGameResult. cbn [blackPlayerId outcome winnerId whitePlayerId apply_update
      endGame_update u_blackPlayerId u_outcome u_winnerId u_status].
    rewrite <- Hbf, Hblk. cbn [truthy_opt default]. rewrite Htb. cbn.
    rewrite <- Hwf.
    unfold incrementDraw. unfold_store. cbn.
    eexists. split; [exact (Hacc _) |].
    split; [reflexivity |].
    split; [exact Hne |]. cbn. rewrite ?Hlb.
    destruct Hcases as [[Hc Ho] | [Hc Ho]]; rewrite Ho in *; rewrite Hc in *;
      (split; [| split]);
      try (intros u Hu1 Hu2); rewrite !stats_after_draw;
      repeat match goal with
             | |- context [decide (?a = ?b)] => destruct (decide (a = b))
             end; congruence.
  - (* abandoned *)
    rewrite onGameCompleted_not_completed; [| intros a [= <-]; discriminate].
    eexists. split; [exact (Hacc _) |].
    split; [reflexivity |].
    split; [exact Hne |]. split; [| reflexivity].
    intros u _ _. rewrite ?Hlb. reflexivity.
Qed.

Lemma X21_witness :
  exists s1 s2,
    endGame (Some "bob") "g1" win (demoStore (demoGame "distance") 0 0) = (s1, Ok tt) /\
    fire_onGameCompleted "g1" (demoStore (demoGame "distance") 0 0) s1 s1 = (s2, Ok tt) /\
    stats_of (leaderboard s2) "bob" = mkStats 1 0 0 /\
    stats_of (leaderboard s2) "alice" = mkStats 0 1 0.
Proof.
  destruct (X21_endGame_scores_through_trigger (demoStore (demoGame "distance") 0 0)
              "g1" (demoGame "distance") (demoGame "distance") "bob" "bob" win)
    as (s1 & s2 & H1 & H2 & _ & _ & Hw & Hl);
    try reflexivity; try discriminate.
  - repeat split; reflexivity.
  - exists s1, s2. auto.
Defined.

(** ** Matchmaking *)

(** X22.  What a pairing writes.  With fewer than two queue entries the
    trigger changes nothing.  With at least two it creates, at the new id
    and identically in the live store and in Firestore, an active game in
    the starting position between the first entry as white and the second
    as black, under preset Normal and cost mode distance; it publishes the
    game id to both players and points both active-game pointers at it,
    whatever they pointed at before; every other game, pointer and match
    notification, all balances and the leaderboard are unchanged. *)
Theorem X22_matchmaking_pairs_first_two entries gameId now db :
  ((length entries < 2)%nat -> matchmakingOnQueueWrite entries gameId now db = db) /\
  (forall p1 p2 rest,
      entries = p1 :: p2 :: rest ->
      let db' := matchmakingOnQueueWrite entries gameId now db in
      let game := mkGame gameId (userId p1) (Some (userId p2)) INITIAL_FEN [] active
                         "Normal" "distance" now None None in
      rtdb_games (m_store db') !! gameId = Some game /\
      fs_games (m_store db') !! gameId = Some game /\
      (forall gid, gid <> gameId ->
         rtdb_games (m_store db') !! gid = rtdb_games (m_store db) !! gid /\
         fs_games (m_store db') !! gid = fs_games (m_store db) !! gid) /\
      matches db' !! userId p1 = Some gameId /\
      matches db' !! userId p2 = Some gameId /\
      userActiveGame (m_store db') !! userId p1 = Some gameId /\
      userActiveGame (m_store db') !! userId p2 = Some gameId /\
      (forall u, u <> userId p1 -> u <> userId p2 ->
         matches db' !! u = matches db !! u /\
         userActiveGame (m_store db') !! u = userActiveGame (m_store db) !! u) /\
      rtdb_steps (m_store db') = rtdb_steps (m_store db) /\
      leaderboard (m_store db') = leaderboard (m_store db)).
Proof.
  split.
  - intros Hlen. destruct entries as [| p1 [| p2 rest]]; [reflexivity | reflexivity |].
    cbn in Hlen. lia.
  - intros p1 p2 rest -> db' game. subst db'. cbn.
    split; [apply lookup_insert_eq |]. split; [apply lookup_insert_eq |].
    split; [intros gid Hne; rewrite !lookup_insert_ne by congruence; auto |].
    assert (Hins : forall (m : gmap string string),
               <[userId p2 := gameId]> (<[userId p1 := gameId]> m) !! userId p1
               = Some gameId).
    { intros m. destruct (decide (userId p2 = userId p1)) as [-> | Hne].
      - apply lookup_insert_eq.
      - rewrite lookup_insert_ne by exact Hne. apply lookup_insert_eq. }
    split; [apply Hins |]. split; [apply lookup_insert_eq |].
    split; [apply Hins |]. split; [apply lookup_insert_eq |].
    split; [| split; reflexivity].
    intros u H1 H2. rewrite !lookup_insert_ne by congruence. auto.
Qed.

Lemma X22_witness :
  matches (matchmakingOnQueueWrite [mkEntry "alice" 5; mkEntry "bob" 9; mkEntry "carol" 12]
             "g7" "t3" (mkMatchDb emptyStore ∅ ∅)) !! "bob" = Some "g7".
Proof.
  destruct (X22_matchmaking_pairs_first_two
              [mkEntry "alice" 5; mkEntry "bob" 9; mkEntry "carol" 12] "g7" "t3"
              (mkMatchDb emptyStore ∅ ∅)) as [_ Hpair].
  destruct (Hpair (mkEntry "alice" 5) (mkEntry "bob" 9) [mkEntry "carol" 12] eq_refl)
    as (_ & _ & _ & _ & Hbob & _).
  exact Hbob.
Defined.

Lemma snapshot_lookup entries (q : gmap string Z) e :
  Permutation (map (fun e => (userId e, joinedAt e)) entries) (map_to_list q) ->
  In e entries -> q !! userId e = Some (joinedAt e).
Proof.
  intros Hperm Hin. apply elem_of_map_to_list. apply list_elem_of_In.
  apply (Permutation_in _ Hperm).
  apply (in_map (fun e => (userId e, joinedAt e))). exact Hin.
Qed.

Lemma snapshot_rest p rest (q : gmap string Z) :
  Permutation (map (fun e => (userId e, joinedAt e)) (p :: rest)) (map_to_list q) ->
  Permutation (map (fun e => (userId e, joinedAt e)) rest)
              (map_to_list (delete (userId p) q)).
Proof.
  intros Hperm.
  assert (Hp : q !! userId p = Some (joinedAt p)).
  { apply (snapshot_lookup (p :: rest) q p Hperm). left. reflexivity. }
  pose proof (map_to_list_delete q (userId p) (joinedAt p) Hp) as Hdel.
  apply (Permutation_cons_inv (a := (userId p, joinedAt p))).
  cbn in Hperm. rewrite Hperm. symmetry. exact Hdel.
Qed.

(** X23.  The queue is consumed in join order.  When the entries are the
    queue ordered by joinedAt and there are at least two, the two players
    paired are distinct, they are the only entries removed from the queue
    (its size drops by exactly 2), nobody left waiting joined before either
    of them, and the remaining entries, in the same order, are the ordered
    snapshot of the queue that is left. *)
Theorem X23_matchmaking_consumes_queue_fifo p1 p2 rest gameId now db :
  is_snapshot (p1 :: p2 :: rest) (queue db) ->
  let db' := matchmakingOnQueueWrite (p1 :: p2 :: rest) gameId now db in
  userId p1 <> userId p2 /\
  queue db' !! userId p1 = None /\ queue db' !! userId p2 = None /\
  (forall u, u <> userId p1 -> u <> userId p2 -> queue db' !! u = queue db !! u) /\
  (size (queue db') + 2 = size (queue db))%nat /\
  (forall u t, queue db' !! u = Some t -> joinedAt p1 <= t /\ joinedAt p2 <= t) /\
  is_snapshot rest (queue db').
Proof.
  intros [Hperm Hsorted] db'. subst db'. cbn [matchmakingOnQueueWrite queue].
  pose proof (snapshot_rest p1 (p2 :: rest) (queue db) Hperm) as Hperm1.
  pose proof (snapshot_rest p2 rest _ Hperm1) as Hperm2.
  assert (Hp2 : delete (userId p1) (queue db) !! userId p2 = Some (joinedAt p2)).
  { apply (snapshot_lookup (p2 :: rest) _ p2 Hperm1). left. reflexivity. }
  assert (Hne : userId p1 <> userId p2).
  { intros Heq. rewrite <- Heq, lookup_delete_eq in Hp2. discriminate. }
  inversion Hsorted as [| ? ? Hsorted1 Hall1]; subst.
  inversion Hsorted1 as [| ? ? Hsorted2 Hall2]; subst.
  split; [exact Hne |].
  split; [rewrite lookup_delete_ne by congruence; apply lookup_delete_eq |].
  split; [apply lookup_delete_eq |].
  split; [intros u H1 H2; rewrite !lookup_delete_ne by congruence; reflexivity |].
  split.
  { rewrite <- !length_map_to_list.
    rewrite <- (Permutation_length Hperm), <- (Permutation_length Hperm2).
    cbn. rewrite !length_map. lia. }
  split; [| split; assumption].
  intros u t Hu. apply elem_of_map_to_list in Hu. apply list_elem_of_In in Hu.
  apply (Permutation_in _ (Permutation_sym Hperm2)) in Hu.
  apply in_map_iff in Hu. destruct Hu as (e & He & Hin). injection He as <- <-.
  inversion Hall1 as [| ? ? _ Hall1']; subst.
  rewrite Forall_forall in Hall1', Hall2.
  apply list_elem_of_In in Hin. split; [apply Hall1' | apply Hall2]; exact Hin.
Qed.

Lemma X23_witness :
  size (queue (matchmakingOnQueueWrite
                 [mkEntry "alice" 5; mkEntry "bob" 9; mkEntry "carol" 12] "g7" "t3"
                 (mkMatchDb emptyStore
                    (<["carol" := 12]> (<["alice" := 5]> (<["bob" := 9]> ∅))) ∅)))
  = 1%nat.
Proof.
  assert (Hsnap : is_snapshot [mkEntry "alice" 5; mkEntry "bob" 9; mkEntry "carol" 12]
                    (<["carol" := 12]> (<["alice" := 5]> (<["bob" := 9]> ∅)))).
  { split.
    - vm_compute. apply (perm_trans (l' := [("alice", 5); ("carol", 12); ("bob", 9)])).
      + apply perm_skip. apply perm_swap.
      + apply perm_swap.
    - repeat constructor; cbn; lia. }
  destruct (X23_matchmaking_consumes_queue_fifo
              (mkEntry "alice" 5) (mkEntry "bob" 9) [mkEntry "carol" 12] "g7" "t3"
              (mkMatchDb emptyStore
                 (<["carol" := 12]> (<["alice" := 5]> (<["bob" := 9]> ∅))) ∅) Hsnap)
    as (_ & _ & _ & _ & Hsize & _).
  vm_compute in Hsize. vm_compute. reflexivity.
Defined.

(** ** User profiles *)

(** X24.  For every value of Math.random(), that is every r with
    0 <= r < 1, randomAvatarColor returns one of the eight avatar colours,
    never undefined: the colour at index i exactly when r lies in the i-th
    eighth of the unit interval, i/8 <= r < (i+1)/8. *)
Theorem X24_randomAvatarColor_in_palette r :
  (0 <= r)%Q -> (r < 1)%Q ->
  exists i c,
    (i < 8)%nat /\
    (inject_Z (Z.of_nat i) / 8 <= r)%Q /\ (r < inject_Z (Z.of_nat i + 1) / 8)%Q /\
    nth_error AVATAR_COLORS i = Some c /\ In c AVATAR_COLORS /\
    randomAvatarColor r = Some c.
Proof.
  intros H0 H1. unfold randomAvatarColor.
  change (inject_Z (Z.of_nat (length AVATAR_COLORS))) with (8 # 1)%Q.
  pose proof (Qfloor_le (r * (8 # 1))) as Hlo.
  pose proof (Qlt_floor (r * (8 # 1))) as Hhi.
  set (k := Qfloor (r * (8 # 1))) in *.
  assert (Hk0 : (0 <= k)%Z).
  { change 0%Z with (Qfloor (inject_Z 0)). apply Qfloor_resp_le.
    change (inject_Z 0) with 0%Q. lra. }
  assert (Hk8 : (k < 8)%Z).
  { rewrite Zlt_Qlt. change (inject_Z 8) with (8 # 1)%Q. lra. }
  destruct (Z.ltb_spec k 0) as [Hneg | _]; [lia |].
  assert (Hcases : k = 0 \/ k = 1 \/ k = 2 \/ k = 3 \/ k = 4 \/ k = 5 \/ k = 6 \/ k = 7)
    by lia.
  clearbody k.
  destruct Hcases as [-> | [-> | [-> | [-> | [-> | [-> | [-> | ->]]]]]]];
    [exists 0%nat | exists 1%nat | exists 2%nat | exists 3%nat
     | exists 4%nat | exists 5%nat | exists 6%nat | exists 7%nat];
    eexists;
    (split; [lia |]);
    (split; [q_consts; lra |]);
    (split; [q_consts; lra |]);
    (split; [reflexivity |]);
    (split; [cbn; tauto | reflexivity]).
Qed.

Lemma X24_witness :
  exists i c,
    (i < 8)%nat /\
    (inject_Z (Z.of_nat i) / 8 <= 3 # 10)%Q /\ (3 # 10 < inject_Z (Z.of_nat i + 1) / 8)%Q /\
    nth_error AVATAR_COLORS i = Some c /\ In c AVATAR_COLORS /\
    randomAvatarColor (3 # 10) = Some c.
Proof.
  apply (X24_randomAvatarColor_in_palette (3 # 10)); vm_compute; congruence.
Defined.

Lemma length_zero_empty (s : string) : Nat.eqb (String.length s) 0 = true <-> s = "".
Proof.
  destruct s; cbn; split; intros H; try reflexivity; discriminate.
Qed.

Lemma truthy_nonempty (s : string) : truthy s = true <-> s <> "".
Proof.
  unfold truthy. destruct (String.eqb_spec s ""); cbn; split; intros H;
    try reflexivity; try discriminate; try congruence.
Qed.

(** X25.  updateDisplayName.  Every HttpsError (no caller, no string, an
    empty name, a name that trims to nothing) leaves all documents as they
    were.  The call succeeds exactly when the caller is signed in, the name
    is a non-empty string that does not trim to the empty string, and both
    the profile and the leaderboard entry of the caller exist; it then
    stores the trimmed name, never an empty one, in both documents of the
    caller, keeps the other profile fields, and changes no other user's
    documents, no statistics and no balance. *)
Theorem X25_updateDisplayName_trims_and_syncs (trim : string -> string)
    auth displayName db db' r :
  updateDisplayName trim auth displayName db = (db', r) ->
  (forall code msg, r = Err (HttpsError code msg) -> db' = db) /\
  (r = Ok tt <->
   exists uid d, auth = Some uid /\ displayName = Some d /\ d <> "" /\ trim d <> "" /\
                 users db !! uid <> None /\ lbDisplayName db !! uid <> None) /\
  (r = Ok tt ->
   exists uid d pr,
     auth = Some uid /\ displayName = Some d /\ trim d <> "" /\
     users db !! uid = Some pr /\
     users db' !! uid =
       Some (mkProfile (up_id pr) (trim d) (up_avatarColor pr) (up_isOnline pr)) /\
     lbDisplayName db' !! uid = Some (trim d) /\
     (forall u, u <> uid ->
        users db' !! u = users db !! u /\ lbDisplayName db' !! u = lbDisplayName db !! u) /\
     u_store db' = u_store db /\ lifetimeSteps db' = lifetimeSteps db).
Proof.
  unfold updateDisplayName.
  destruct auth as [uid |];
    [| intros [= <- <-]; split; [reflexivity |]; split;
       [split; [discriminate | intros (? & ? & ? & _); discriminate] | discriminate]].
  destruct displayName as [d |];
    [| intros [= <- <-]; split; [reflexivity |]; split;
       [split; [discriminate | intros (? & ? & _ & ? & _); discriminate] | discriminate]].
  destruct (truthy d) eqn:Ht; cbn [negb orb].
  2:{ intros [= <- <-]. split; [reflexivity |]. split; [| discriminate].
      split; [discriminate |]. intros (? & d0 & _ & [= <-] & Hd & _).
      apply truthy_nonempty in Hd. congruence. }
  apply truthy_nonempty in Ht.
  destruct (Nat.eqb (String.length (trim d)) 0) eqn:Hlen.
  { intros [= <- <-]. split; [reflexivity |]. split; [| discriminate].
    split; [discriminate |]. intros (? & d0 & _ & [= <-] & _ & Htr & _).
    apply length_zero_empty in Hlen. contradiction. }
  assert (Htrim : trim d <> "").
  { intros Heq. apply length_zero_empty in Heq. congruence. }
  unfold syncDisplayName.
  destruct (users db !! uid) as [pr |] eqn:Hu;
    [destruct (lbDisplayName db !! uid) as [nm |] eqn:Hl |].
  - intros [= <- <-]. split; [discriminate |]. split.
    + split; [| reflexivity]. intros _. exists uid, d.
      rewrite Hu, Hl. repeat split; try assumption; discriminate.
    + intros _. exists uid, d, pr. cbn.
      split; [reflexivity |]. split; [reflexivity |]. split; [exact Htrim |].
      split; [exact Hu |].
      split; [rewrite lookup_alter_eq, Hu; reflexivity |].
      split; [rewrite lookup_alter_eq, Hl; reflexivity |].
      split; [| split; reflexivity].
      intros u Hne. rewrite !lookup_alter_ne by congruence. auto.
  - intros [= <- <-]. split; [discriminate |]. split; [| discriminate].
    split; [discriminate |].
    intros (u0 & d0 & [= <-] & _ & _ & _ & _ & Hl'). rewrite Hl in Hl'. contradiction.
  - intros [= <- <-]. split; [discriminate |].
    split; [| discriminate]. split; [discriminate |].
    intros (u0 & d0 & [= <-] & _ & _ & _ & Hu' & _). rewrite Hu in Hu'. contradiction.
Qed.

Lemma X25_witness :
  exists db',
    updateDisplayName AsciiTrim.trim (Some "alice") (Some "  Alice B  ")
      (onUserCreated (Some (mkAuthUser "alice" None (Some "alice@example.org"))) (3 # 10)
         (mkUserDb emptyStore ∅ ∅ ∅)) = (db', Ok tt) /\
    lbDisplayName db' !! "alice" = Some "Alice B".
Proof.
  assert (Hrun : { db' | updateDisplayName AsciiTrim.trim (Some "alice")
                            (Some "  Alice B  ")
                            (onUserCreated
                               (Some (mkAuthUser "alice" None (Some "alice@example.org")))
                               (3 # 10) (mkUserDb emptyStore ∅ ∅ ∅)) = (db', Ok tt) }).
  { eexists. vm_compute. reflexivity. }
  destruct Hrun as [db' Hrun]. exists db'. split; [exact Hrun |].
  destruct (X25_updateDisplayName_trims_and_syncs AsciiTrim.trim
              (Some "alice") (Some "  Alice B  ")
              (onUserCreated (Some (mkAuthUser "alice" None (Some "alice@example.org")))
                 (3 # 10) (mkUserDb emptyStore ∅ ∅ ∅)) _ _ Hrun)
    as (_ & _ & Hok).
  destruct (Hok eq_refl) as (uid & d & pr & [= <-] & [= <-] & _ & _ & _ & Hlb & _).
  exact Hlb.
Defined.

(** X26.  A new account can be renamed at once.  onUserCreated on an event
    with data writes the profile (id, initial name, a palette slot chosen by
    the random value, offline), the leaderboard entry under the same name
    with all-zero statistics, and a lifetime step balance of 0, and touches
    no other user; an event without data writes nothing.  A following
    updateDisplayName by that user with a name that is non-empty after
    trimming succeeds and replaces the name in both documents, keeping the
    avatar colour, the zero statistics and the balance. *)
Theorem X26_new_account_bootstrap_then_rename (trim : string -> string) u r d db :
  let uid := au_uid u in
  let db1 := onUserCreated (Some u) r db in
  onUserCreated None r db = db /\
  users db1 !! uid =
    Some (mkProfile uid (initialDisplayName u) (randomAvatarColor r) false) /\
  lbDisplayName db1 !! uid = Some (initialDisplayName u) /\
  leaderboard (u_store db1) !! uid = Some zeroStats /\
  lifetimeSteps db1 !! uid = Some 0 /\
  (forall v, v <> uid ->
     users db1 !! v = users db !! v /\ lbDisplayName db1 !! v = lbDisplayName db !! v /\
     leaderboard (u_store db1) !! v = leaderboard (u_store db) !! v /\
     lifetimeSteps db1 !! v = lifetimeSteps db !! v) /\
  (d <> "" -> trim d <> "" ->
   exists db2,
     updateDisplayName trim (Some uid) (Some d) db1 = (db2, Ok tt) /\
     users db2 !! uid = Some (mkProfile uid (trim d) (randomAvatarColor r) false) /\
     lbDisplayName db2 !! uid = Some (trim d) /\
     leaderboard (u_store db2) !! uid = Some zeroStats /\
     lifetimeSteps db2 !! uid = Some 0).
Proof.
  intros uid db1. subst uid db1. cbn [onUserCreated users lbDisplayName u_store lifetimeSteps].
  split; [reflexivity |].
  split; [apply lookup_insert_eq |]. split; [apply lookup_insert_eq |].
  split; [cbn; apply lookup_insert_eq |]. split; [apply lookup_insert_eq |].
  split.
  { intros v Hne. cbn. rewrite !lookup_insert_ne by congruence. auto. }
  intros Hd Htrim. unfold updateDisplayName.
  apply truthy_nonempty in Hd. rewrite Hd. cbn [negb orb].
  destruct (Nat.eqb (String.length (trim d)) 0) eqn:Hlen;
    [apply length_zero_empty in Hlen; contradiction |].
  unfold syncDisplayName. cbn [users lbDisplayName u_store lifetimeSteps].
  rewrite !lookup_insert_eq. eexists. split; [reflexivity |].
  cbn [users lbDisplayName u_store lifetimeSteps].
  split; [rewrite lookup_alter_eq, lookup_insert_eq; reflexivity |].
  split; [rewrite lookup_alter_eq, lookup_insert_eq; reflexivity |].
  split; [cbn; apply lookup_insert_eq | apply lookup_insert_eq].
Qed.

Lemma X26_witness :
  exists db2,
    updateDisplayName AsciiTrim.trim (Some "bob") (Some " Bobby ")
      (onUserCreated (Some (mkAuthUser "bob" (Some "bob") None)) (7 # 8)
         (mkUserDb emptyStore ∅ ∅ ∅)) = (db2, Ok tt) /\
    users db2 !! "bob" = Some (mkProfile "bob" "Bobby" (Some 0xFFEC407A) false).
Proof.
  destruct (X26_new_account_bootstrap_then_rename AsciiTrim.trim
              (mkAuthUser "bob" (Some "bob") None) (7 # 8) " Bobby "
              (mkUserDb emptyStore ∅ ∅ ∅)) as (_ & _ & _ & _ & _ & _ & Hren).
  destruct Hren as (db2 & Hrun & Hprofile & _);
    [discriminate | vm_compute; discriminate |].
  exists db2. split; [exact Hrun |]. exact Hprofile.
Defined.

(** X27.  The name a new account starts with.  A display name carried by
    the event is used as it is, the empty string included; without one, the
    name is the part of the e-mail address before its first at sign, or the
    whole address when it has none; with neither it is Player. *)
Theorem X27_initial_display_name uid :
  (forall n email, initialDisplayName (mkAuthUser uid (Some n) email) = n) /\
  (forall local domain,
      (forall i, String.get i local <> Some "@"%char) ->
      initialDisplayName (mkAuthUser uid None (Some (local ++ String "@" domain))) = local) /\
  (forall e,
      (forall i, String.get i e <> Some "@"%char) ->
      initialDisplayName (mkAuthUser uid None (Some e)) = e) /\
  initialDisplayName (mkAuthUser uid None None) = "Player".
Proof.
  split; [reflexivity |]. split; [| split; [| reflexivity]].
  - intros local domain Hlocal. unfold initialDisplayName. cbn [au_displayName au_email].
    rewrite (split_append_no_sep "@" local domain Hlocal). reflexivity.
  - intros e He. unfold initialDisplayName. cbn [au_displayName au_email].
    rewrite (split_no_sep_id "@" e He). reflexivity.
Qed.

Lemma X27_witness :
  initialDisplayName (mkAuthUser "u1" None (Some ("carol" ++ String "@" "mail.example@x")))
  = "carol".
Proof.
  destruct (X27_initial_display_name "u1") as (_ & Hemail & _).
  apply (Hemail "carol" "mail.example@x").
  intros i. do 6 (destruct i as [| i]; [vm_compute; discriminate |]).
  vm_compute; discriminate.
Defined.

(** ** Interleaved earns and spends *)

Lemma total_earned_insert ts i t t' :
  nth_error ts i = Some t ->
  total_earned (<[i := t']> ts) = total_earned ts - earned_of t + earned_of t'.
Proof.
  assert (Hcons : forall a l, total_earned (a :: l) = earned_of a + total_earned l)
    by reflexivity.
  revert i. induction ts as [| a ts IH]; intros [| i] Hi; try discriminate.
  - injection Hi as ->.
    change (<[0%nat := t']> (t :: ts)) with (t' :: ts). rewrite !Hcons. lia.
  - change (<[S i := t']> (a :: ts)) with (a :: <[i := t']> ts).
    rewrite !Hcons, (IH i Hi). lia.
Qed.

Lemma step_earn_only gameId uid i s ts :
  Forall earn_task ts ->
  balance_of (fst (step gameId uid i (s, ts))) gameId uid
    = balance_of s gameId uid + (total_earned (snd (step gameId uid i (s, ts)))
                                 - total_earned ts) /\
  Forall earn_task (snd (step gameId uid i (s, ts))).
Proof.
  intros Hts. unfold step. cbn [fst snd].
  destruct (nth_error ts i) as [t |] eqn:Hi; [| cbn [fst snd]; split; [lia | exact Hts]].
  assert (Ht : earn_task t).
  { rewrite Forall_forall in Hts. apply Hts. apply list_elem_of_In.
    eapply nth_error_In. exact Hi. }
  destruct t as [c | c b | d | c | | d]; try contradiction.
  - unfold step_task, atomicIncrementStepBalance. cbn [fst snd].
    rewrite balance_of_set, (total_earned_insert ts i _ _ Hi). cbn [earned_of].
    split; [lia |]. apply Forall_insert; [exact Hts | exact I].
  - cbn [step_task fst snd]. rewrite (total_earned_insert ts i _ _ Hi).
    split; [lia |]. apply Forall_insert; [exact Hts | exact I].
Qed.

(** X28.  Step submissions lose nothing to one another.  When the calls
    in flight for a player are all step submissions, then under every
    interleaving of them the balance ends at the starting balance plus the
    sum of the deltas of the submissions that have completed since. *)
Theorem X28_concurrent_earns_all_counted gameId uid schedule s ts :
  Forall earn_task ts ->
  balance_of (fst (run gameId uid schedule (s, ts))) gameId uid
    = balance_of s gameId uid
      + (total_earned (snd (run gameId uid schedule (s, ts))) - total_earned ts) /\
  Forall earn_task (snd (run gameId uid schedule (s, ts))).
Proof.
  revert s ts. induction schedule as [| i schedule IH]; intros s ts Hts.
  - change (run gameId uid [] (s, ts)) with (s, ts). cbn [fst snd].
    split; [lia | exact Hts].
  - change (run gameId uid (i :: schedule) (s, ts))
      with (run gameId uid schedule (step gameId uid i (s, ts))).
    destruct (step_earn_only gameId uid i s ts Hts) as (Hb & Hts').
    destruct (step gameId uid i (s, ts)) as [s1 ts1]. cbn [fst snd] in *.
    destruct (IH s1 ts1 Hts') as (Hb2 & Hts2). split; [lia | exact Hts2].
Qed.

Lemma X28_witness :
  balance_of (fst (run "g1" "alice" [1; 0; 1]%nat
                     (demoStore (demoGame "distance") 100 0, [Earn 5; Earn 7])))
             "g1" "alice" = 112.
Proof.
  destruct (X28_concurrent_earns_all_counted "g1" "alice" [1; 0; 1]%nat
              (demoStore (demoGame "distance") 100 0) [Earn 5; Earn 7]) as [Hb _].
  - repeat constructor.
  - rewrite Hb. vm_compute. reflexivity.
Defined.

(** X29.  No interleaving overdraws.  From a balance that is not
    negative, whatever the order in which the steps of concurrent moves and
    step submissions (with deltas that are not negative) are run, the
    balance is never negative, although a spend may be counted twice. *)
Theorem X29_no_interleaving_overdraws gameId uid schedule s ts :
  0 <= balance_of s gameId uid ->
  (forall t, In t ts -> (exists c, t = Spend c) \/ (exists d, t = Earn d /\ 0 <= d)) ->
  0 <= balance_of (fst (run gameId uid schedule (s, ts))) gameId uid.
Proof.
  intros Hb Hts.
  apply (run_balance_nonneg gameId uid schedule s ts Hb).
  apply Forall_forall. intros t Hin. apply list_elem_of_In in Hin.
  destruct (Hts t Hin) as [[c ->] | (d & -> & Hd)]; [exact I | exact Hd].
Qed.

Lemma X29_witness :
  0 <= balance_of (fst (run "g1" "alice" [0; 1; 2; 0; 1]%nat
                          (demoStore (demoGame "distance") 100 0,
                           [Spend 60; Spend 60; Earn 5])))
                  "g1" "alice".
Proof.
  apply (X29_no_interleaving_overdraws "g1" "alice" [0; 1; 2; 0; 1]%nat
           (demoStore (demoGame "distance") 100 0) [Spend 60; Spend 60; Earn 5]).
  - vm_compute. discriminate.
  - intros t [<- | [<- | [<- | []]]].
    + left. exists 60. reflexivity.
    + left. exists 60. reflexivity.
    + right. exists 5. split; [reflexivity | lia].
Defined.

(** ** Joins in flight side by side *)

Lemma joinGame_steps_read uid gid s g :
  truthy gid = true ->
  rtdb_games s !! gid = Some g ->
  status g = waiting -> blackPlayerId g = None ->
  whitePlayerId g <> uid ->
  step_proc (joinGame_steps false (Some uid) gid) s =
    (s, Await (assertNoActiveGame uid) (fun _ => join_write uid gid)).
Proof.
  intros Hid Hg Hw Hb Hne.
  unfold joinGame_steps. rewrite Hid. cbn. unfold getGame. rewrite Hg.
  rewrite Hb, Hw.
  rewrite (bool_decide_eq_false_2 (None <> None)) by (intros H; apply H; reflexivity).
  rewrite (bool_decide_eq_true_2 (waiting = waiting)) by reflexivity.
  rewrite (bool_decide_eq_false_2 _ Hne). cbn. reflexivity.
Qed.

Lemma joinGame_steps_guard uid gid s :
  userActiveGame s !! uid = None ->
  step_proc (Await (assertNoActiveGame uid) (fun _ => join_write uid gid)) s =
    (s, join_write uid gid).
Proof.
  intros Hnone. cbn. unfold assertNoActiveGame. rewrite Hnone. reflexivity.
Qed.

Lemma joinGame_steps_write uid gid s :
  fs_games s !! gid <> None ->
  step_proc (join_write uid gid) s = (seated uid gid s, Done (Ok tt)).
Proof.
  intros Hfs. unfold join_write, seated. cbn.
  unfold both, updateGameState, setUserActiveGame, firestore_update_result, modify.
  destruct (fs_games s !! gid); [reflexivity | contradiction].
Qed.

Lemma seated_game uid gid s g :
  rtdb_games s !! gid = Some g ->
  rtdb_games (seated uid gid s) !! gid =
    Some (apply_update (mkUpdate (Some uid) (Some active) None None) g).
Proof.
  intros Hg. unfold seated, setUserActiveGame, updateGameState, modify. cbn.
  rewrite lookup_alter_eq, Hg. reflexivity.
Qed.

Lemma seated_firestore uid gid s :
  fs_games s !! gid <> None -> fs_games (seated uid gid s) !! gid <> None.
Proof.
  intros Hfs. unfold seated, setUserActiveGame, updateGameState, modify. cbn.
  rewrite lookup_alter_eq. destruct (fs_games s !! gid); [discriminate | contradiction].
Qed.

Lemma seated_pointer uid gid s u :
  userActiveGame (seated uid gid s) !! u =
    if decide (u = uid) then Some gid else userActiveGame s !! u.
Proof.
  unfold seated, setUserActiveGame, updateGameState, modify. cbn.
  destruct (decide (u = uid)) as [-> | Hne].
  - apply lookup_insert_eq.
  - rewrite lookup_insert_ne by congruence. reflexivity.
Qed.

Lemma sched_step_0 {A} (s : Store) (p q : Proc A) :
  sched_step 0 (s, [p; q]) = (fst (step_proc p s), [snd (step_proc p s); q]).
Proof. unfold sched_step. cbn. destruct (step_proc p s). reflexivity. Qed.

Lemma sched_step_1 {A} (s : Store) (p q : Proc A) :
  sched_step 1 (s, [p; q]) = (fst (step_proc q s), [p; snd (step_proc q s)]).
Proof. unfold sched_step. cbn. destruct (step_proc q s). reflexivity. Qed.

(** X30.  Two joins in flight at once can both be seated.  On a waiting
    game with its Firestore document, when two users who are not its white
    player and hold no active-game pointer call [joinGame] and both calls
    read the game before either writes, both calls succeed: the second
    write puts its caller in the black seat in the place of the first, and
    the first caller keeps an active-game pointer to a game in which they
    do not play.  Run one after the other, the second call fails because
    the game is already full and leaves its caller without a pointer. *)
Theorem X30_concurrent_joins_both_seated s gid g u1 u2 :
  truthy gid = true ->
  rtdb_games s !! gid = Some g ->
  fs_games s !! gid <> None ->
  status g = waiting -> blackPlayerId g = None ->
  whitePlayerId g <> u1 -> whitePlayerId g <> u2 -> u1 <> u2 ->
  userActiveGame s !! u1 = None -> userActiveGame s !! u2 = None ->
  let joins := [joinGame_steps false (Some u1) gid; joinGame_steps false (Some u2) gid] in
  let st := interleave [0; 1; 0; 1; 0; 1]%nat (s, joins) in
  let sq := interleave [0; 0; 0; 1; 1; 1]%nat (s, joins) in
  map result_of (snd st) = [Some (Ok tt); Some (Ok tt)] /\
  rtdb_games (fst st) !! gid =
    Some (apply_update (mkUpdate (Some u2) (Some active) None None) g) /\
  userActiveGame (fst st) !! u1 = Some gid /\
  userActiveGame (fst st) !! u2 = Some gid /\
  ~ pointers_ok (fst st) /\
  map result_of (snd sq) =
    [Some (Ok tt); Some (Err (HttpsError failed_precondition "Game is already full"))] /\
  rtdb_games (fst sq) !! gid =
    Some (apply_update (mkUpdate (Some u1) (Some active) None None) g) /\
  userActiveGame (fst sq) !! u2 = None.
Proof.
  intros Hid Hg Hfs Hw Hb Hn1 Hn2 Hne Hp1 Hp2.
  cbv zeta. unfold interleave. cbn [fold_left].
  pose proof (seated_firestore u1 gid s Hfs) as Hfs1.
  pose proof (seated_game u1 gid s g Hg) as Hg1.
  assert (Hrace : sched_step 1 (sched_step 0 (sched_step 1 (sched_step 0 (sched_step 1
            (sched_step 0 (s, [joinGame_steps false (Some u1) gid;
                               joinGame_steps false (Some u2) gid]))))))
          = (seated u2 gid (seated u1 gid s), [Done (Ok tt); Done (Ok tt)])).
  { rewrite sched_step_0, (joinGame_steps_read u1 gid s g Hid Hg Hw Hb Hn1). cbn [fst snd].
    rewrite sched_step_1, (joinGame_steps_read u2 gid s g Hid Hg Hw Hb Hn2). cbn [fst snd].
    rewrite sched_step_0, (joinGame_steps_guard u1 gid s Hp1). cbn [fst snd].
    rewrite sched_step_1, (joinGame_steps_guard u2 gid s Hp2). cbn [fst snd].
    rewrite sched_step_0, (joinGame_steps_write u1 gid s Hfs). cbn [fst snd].
    rewrite sched_step_1, (joinGame_steps_write u2 gid _ Hfs1). reflexivity. }
  rewrite Hrace. cbn [fst snd map result_of].
  split; [reflexivity |].
  assert (Hgame : rtdb_games (seated u2 gid (seated u1 gid s)) !! gid =
                  Some (apply_update (mkUpdate (Some u2) (Some active) None None) g)).
  { rewrite (seated_game u2 gid _ _ Hg1). reflexivity. }
  assert (Hptr1 : userActiveGame (seated u2 gid (seated u1 gid s)) !! u1 = Some gid).
  { rewrite seated_pointer, decide_False by exact Hne.
    rewrite seated_pointer, decide_True by reflexivity. reflexivity. }
  split; [exact Hgame |]. split; [exact Hptr1 |].
  split; [rewrite seated_pointer, decide_True by reflexivity; reflexivity |].
  split.
  { intros Hok. destruct (Hok u1 gid Hptr1) as (g' & Hg' & Hpl).
    rewrite Hgame in Hg'. injection Hg' as <-.
    unfold is_player in Hpl. cbn in Hpl.
    rewrite (bool_decide_eq_false_2 (u1 = whitePlayerId g)) in Hpl by congruence.
    rewrite (bool_decide_eq_false_2 (Some u1 = Some u2)) in Hpl by congruence.
    discriminate Hpl. }
  assert (Hseq : sched_step 1 (sched_step 1 (sched_step 1 (sched_step 0 (sched_step 0
            (sched_step 0 (s, [joinGame_steps false (Some u1) gid;
                               joinGame_steps false (Some u2) gid]))))))
          = (seated u1 gid s,
             [Done (Ok tt);
              Done (Err (HttpsError failed_precondition "Game is already full"))])).
  { assert (Hfull : step_proc (joinGame_steps false (Some u2) gid) (seated u1 gid s) =
              (seated u1 gid s,
               Done (Err (HttpsError failed_precondition "Game is already full")))).
    { unfold joinGame_steps. rewrite Hid. cbn [negb]. unfold step_proc, getGame.
      rewrite Hg1. cbn [blackPlayerId apply_update u_blackPlayerId].
      rewrite (bool_decide_eq_true_2 (Some u1 <> None)) by discriminate. reflexivity. }
    rewrite sched_step_0, (joinGame_steps_read u1 gid s g Hid Hg Hw Hb Hn1). cbn [fst snd].
    rewrite sched_step_0, (joinGame_steps_guard u1 gid s Hp1). cbn [fst snd].
    rewrite sched_step_0, (joinGame_steps_write u1 gid s Hfs). cbn [fst snd].
    rewrite sched_step_1, Hfull. cbn [fst snd].
    rewrite !sched_step_1. reflexivity. }
  rewrite Hseq. cbn [fst snd map result_of].
  split; [reflexivity |]. split; [exact Hg1 |].
  rewrite seated_pointer, decide_False by congruence. exact Hp2.
Qed.

Lemma X30_witness :
  let s := fst (createGame (Some "alice") "Normal" "distance" "g1" "t0" emptyStore) in
  let joins := [joinGame_steps false (Some "bob") "g1";
                joinGame_steps false (Some "carol") "g1"] in
  map result_of (snd (interleave [0; 1; 0; 1; 0; 1]%nat (s, joins))) =
    [Some (Ok tt); Some (Ok tt)].
Proof.
  refine (proj1 (X30_concurrent_joins_both_seated
            (fst (createGame (Some "alice") "Normal" "distance" "g1" "t0" emptyStore))
            "g1"
            (mkGame "g1" "alice" None INITIAL_FEN [] waiting "Normal" "distance" "t0"
                    None None)
            "bob" "carol" _ _ _ _ _ _ _ _ _ _));
    first [reflexivity | vm_compute; discriminate | discriminate].
Defined.
